(** * Discovery Engine: the event-driven research pipeline

    A shallow embedding of the step handlers of the Discovery Engine agent
    (query generation, Exa search, content extraction, question
    brainstorming, question judging, report compilation and the report
    endpoint) together with the properties of the trace state store, the
    retry loop and the ranking step.

    Conventions of the embedding.
    - A JavaScript [number] is an exact rational ([Q]).  Every finite double
      is a rational; for the integer criterion scores that the judging
      prompt asks for, the sums and the division by four are exact in
      double arithmetic, so nothing is lost there.  [NaN] and the
      infinities are not represented.
    - A value that a handler awaits from outside (a completion, a fetched
      page, a search, the clock, a failing store) is read from an
      environment [Env], indexed by the number of calls made so far.
    - Effects are threaded through a [World]: the trace state store, the
      heap of arrays that are passed by reference, and the trace of the
      observable actions.  A handler is a computation in the monad [M],
      which also carries JavaScript exceptions; whatever was done before a
      throw stays done.
    - An [emit] always succeeds, and the context always has its [emit]
      function (the handlers that test for it do so only on their error
      paths).
    - A completion's reply, once parsed, is read at the type the handler
      declares for it.
    - Logging is not modelled: it changes neither state, events nor
      control flow. *)

From Stdlib Require Import String Ascii List ZArith QArith Qround Qabs Lia Lqa Sorted Permutation.
From stdpp Require Import base option list gmap strings pretty.
Import ListNotations.
Open Scope string_scope.
Open Scope list_scope.
Set Warnings "-register-all".
Set Default Proof Using "Type".

(** ** JavaScript values that the handlers test for truthiness *)

Module JS.

(** [!!s] for a string: the empty string is falsy. *)
Definition truthy_string (s : string) : bool :=
  match s with
  | EmptyString => false
  | String _ _ => true
  end.

(** [!!x] for [x : string | undefined]. *)
Definition truthy_opt_string (x : option string) : bool :=
  match x with
  | None => false
  | Some s => truthy_string s
  end.

(** [!!n] for a number: zero is falsy. *)
Definition truthy_number (n : Q) : bool := negb (Qeq_bool n 0).

(** [a || b] on strings. *)
Definition or_string (a : option string) (b : string) : string :=
  match a with
  | Some s => if truthy_string s then s else b
  | None => b
  end.

(** A thrown value: an [Error] object with its [name] and [message], or
    anything else, kept as what [String(value)] gives. *)
Inductive Thrown :=
| ThrownError (name message : string)
| ThrownValue (repr : string).

(** [let m = fallback; if (e instanceof Error) m = e.message]. *)
Definition message_or (fallback : string) (e : Thrown) : string :=
  match e with
  | ThrownError _ m => m
  | ThrownValue _ => fallback
  end.

(** [e instanceof Error ? e.message : String(e)]. *)
Definition message_or_String (e : Thrown) : string :=
  match e with
  | ThrownError _ m => m
  | ThrownValue r => r
  end.

(** [Array.prototype.sort(comparefn)].  The sort is stable and, for a
    consistent comparator, its result is the one stable ordering; it is
    written here as the insertion of each element in front of the sorted
    rest, moving right only past elements that must precede it
    ([comparefn x y > 0]). *)
Section Sort.
Context {A : Type} (comparefn : A -> A -> Q).

Fixpoint sort_insert (x : A) (l : list A) : list A :=
  match l with
  | [] => [x]
  | y :: l' =>
      if Qlt_le_dec 0 (comparefn x y)
      then y :: sort_insert x l'
      else x :: l
  end.

Fixpoint sort (l : list A) : list A :=
  match l with
  | [] => []
  | x :: l' => sort_insert x (sort l')
  end.
End Sort.

(** [Array.prototype.slice(0, n)]. *)
Definition slice0 {A : Type} (n : nat) (l : list A) : list A := take n l.

(** [s.includes(sub)]. *)
Definition includes (s sub : string) : bool :=
  match String.index 0 sub s with
  | Some _ => true
  | None => false
  end.

(** White space and line terminators among the code units below 256. *)
Definition is_white_space (c : ascii) : bool :=
  let n := nat_of_ascii c in
  ((9 <=? n) && (n <=? 13) || (n =? 32) || (n =? 160))%nat.

Fixpoint trim_start (s : string) : string :=
  match s with
  | String c s' => if is_white_space c then trim_start s' else s
  | EmptyString => EmptyString
  end.

(** The text without its trailing white space. *)
Fixpoint trim_end (s : string) : string :=
  match s with
  | EmptyString => EmptyString
  | String c s' =>
      match trim_end s' with
      | EmptyString => if is_white_space c then EmptyString else String c EmptyString
      | t => String c t
      end
  end.

(** [s.trim()]. *)
Definition trim (s : string) : string := trim_end (trim_start s).

(** [parseFloat(x.toFixed(2))]: [toFixed] takes the integer [n] with
    [n / 100] closest to [|x|], the larger one on a tie, and restores the
    sign. *)
Definition toFixed2 (x : Q) : Q :=
  if Qlt_le_dec x 0
  then - (Qfloor (- x * 100 + (1 # 2)) # 100)
  else Qfloor (x * 100 + (1 # 2)) # 100.

(** The characters that [.] does not match in a regular expression. *)
Definition is_line_terminator (c : ascii) : bool :=
  let n := nat_of_ascii c in ((n =? 10) || (n =? 13))%nat.

Definition is_quote (c : ascii) : bool := (nat_of_ascii c =? 34)%nat.

(** The one-character string holding a double quote. *)
Definition quote : string := String (ascii_of_nat 34) EmptyString.

(** After an opening quote: the shortest run of [.] followed by a quote,
    and the text after that quote. *)
Fixpoint until_quote (s : string) : option (string * string) :=
  match s with
  | EmptyString => None
  | String c s' =>
      if is_quote c then Some (EmptyString, s')
      else if is_line_terminator c then None
      else match until_quote s' with
           | Some (inner, rest) => Some (String c inner, rest)
           | None => None
           end
  end.

(** The matches, from left to right, of the global regular expression
    that the query generator falls back to (a quote, a lazy run of [.],
    a quote), each with its quotes removed by the [replace] that follows;
    a match is tried at each position, and the search resumes after a
    match or one character further. *)
Fixpoint quoted_from (fuel : nat) (s : string) : list string :=
  match fuel with
  | O => []
  | S fuel' =>
      match s with
      | EmptyString => []
      | String c s' =>
          if is_quote c then
            match until_quote s' with
            | Some (inner, rest) => inner :: quoted_from fuel' rest
            | None => quoted_from fuel' s'
            end
          else quoted_from fuel' s'
      end
  end.

(** [s.match(re)?.map(q => q.replace(quote, '')) || []]; the search
    needs at most one step per character. *)
Definition quoted_substrings (s : string) : list string :=
  quoted_from (String.length s) s.

End JS.

(** ** Data model: the artifacts of a trace *)

Module EvaluationCriterion.
Record t := mk { score : Q; justification : string }.
End EvaluationCriterion.

Module EvaluatedQuestion.
Record t := mk {
  question : string;
  novelty : EvaluationCriterion.t;
  feasibility : EvaluationCriterion.t;
  impact : EvaluationCriterion.t;
  crossDisciplinary : EvaluationCriterion.t;
  overallScore : Q;
  error : option string
}.
End EvaluatedQuestion.

Module ReportMetadata.
Record t := mk { totalQuestionsEvaluated : nat; questionsInReport : nat }.
End ReportMetadata.

Module FinalReport.
Record t := mk {
  traceId : string;
  seedTopic : string;
  timestamp : string;
  topQuestions : list EvaluatedQuestion.t;
  metadata : ReportMetadata.t
}.
End FinalReport.

(** A search result as the Exa searcher stores it. *)
Module SearchResult.
Record t := mk {
  url : string;
  title : string;
  id : string;
  publishedDate : option string;
  author : option string;
  score : option Q
}.
End SearchResult.

Module ExtractedContent.
Record t := mk {
  url : string;
  title : string;
  content : string;
  excerpt : option string;
  length : option Z;
  error : option string
}.
End ExtractedContent.

(** What the state store holds under a key.  The store itself is
    untyped; each constructor is the shape one stage writes. *)
Inductive Value :=
| VString (s : string)
| VStrings (l : list string)
| VSearchResults (l : list SearchResult.t)
| VExtracted (l : list ExtractedContent.t)
| VEvaluated (l : list EvaluatedQuestion.t)
| VReport (r : FinalReport.t).

(** [!!v] for a stored value: only the empty string is falsy, arrays and
    objects are truthy even when empty. *)
Definition truthy_value (v : Value) : bool :=
  match v with
  | VString s => JS.truthy_string s
  | _ => true
  end.

(** The [data] of an emitted event. *)
Inductive EventData :=
| DError (traceId step error : string)
| DTopic (traceId topic : string)
| DQueries (traceId : string) (queries : list string)
| DSearchResults (traceId : string) (results : list SearchResult.t) (errors : list string)
| DExtracted (traceId : string) (extractedContent : list ExtractedContent.t)
| DQuestions (traceId : string) (questions : list string)
| DEvaluated (traceId : string) (evaluatedQuestions : list EvaluatedQuestion.t)
| DReport (traceId : string) (report : FinalReport.t).

(** ** The outside world *)

(** What [openai.chat.completions.create] does on one call: it rejects, or
    it resolves and [choices[0]?.message?.content] is read. *)
Inductive CompletionOutcome :=
| CompletionThrows (e : JS.Thrown)
| CompletionContent (content : option string).

(** What [exa.searchAndContents] does on one call; [results.results] may
    be missing. *)
Inductive SearchOutcome :=
| SearchThrows (e : JS.Thrown)
| SearchResponse (results : option (list SearchResult.t)).

(** What Readability's [parse()] returns when it returns an article. *)
Module Article.
Record t := mk {
  title : option string;
  textContent : option string;
  excerpt : option string;
  length : option Z
}.
End Article.

(** What happens to a page once its response is accepted:
    [response.text()], [new JSDOM] or [reader.parse()] throws, or
    [parse()] returns an article or [null]. *)
Inductive PageOutcome :=
| PageThrows (e : JS.Thrown)
| PageParsed (article : option Article.t).

(** What one call of [fetch] does: the promise rejects (a transport error,
    or an [AbortError] when the 15 s timer fired), or a response arrives. *)
Inductive FetchOutcome :=
| FetchRejects (e : JS.Thrown)
| FetchResponds (ok : bool) (status : Z) (contentType : option string)
                (page : PageOutcome).

(** The observable actions of a handler, in the order they happen. *)
Inductive Action :=
| StateSet (key : string) (v : Value)      (* a [state.set] that succeeded *)
| Emit (topic : string) (data : EventData) (* an [emit] *)
| Fetch (url : string) (outcome : FetchOutcome) (* one call of [fetch], and what came of it *)
| Delay (ms : Z)                           (* [await delay(ms)] *)
| Completion                               (* one chat completion request *)
| Search (query : string).                 (* one Exa search *)

(** A parsed JSON text.  The members of an object are listed in property
    order, so that [Object.values] is the list of the second components. *)
Inductive json :=
| JNull
| JBool (b : bool)
| JNumber (n : Q)
| JString (s : string)
| JArray (items : list json)
| JObject (members : list (string * json)).

(** The completion's reply to the judging prompt, after [JSON.parse], at
    the declared type of [evaluationResult]: an object with the four
    criteria, any of which may be missing. *)
Module Evaluation.
Record t := mk {
  novelty : option EvaluationCriterion.t;
  feasibility : option EvaluationCriterion.t;
  impact : option EvaluationCriterion.t;
  crossDisciplinary : option EvaluationCriterion.t
}.
End Evaluation.

Record Env := mkEnv {
  (** [process.env] *)
  process_env : gmap string string;
  (** [context.secrets] *)
  secrets : gmap string string;
  (** whether the n-th store operation fails, and with what *)
  store_fault : nat -> option JS.Thrown;
  (** the n-th chat completion *)
  completion : nat -> CompletionOutcome;
  (** the n-th call of [fetch] *)
  fetch : nat -> FetchOutcome;
  (** the n-th Exa search *)
  exa : nat -> SearchOutcome;
  (** [new Date().toISOString()] at the n-th reading of the clock *)
  clock : nat -> string;
  (** [JSON.parse]: the parsed text, or the [SyntaxError] *)
  JSON_parse : string -> JS.Thrown + json;
  (** [JSON.parse] read at the type of an evaluation; [inl] also stands
      for a text that parses to [null], on which the first member access
      throws *)
  JSON_parse_evaluation : string -> JS.Thrown + Evaluation.t
}.

(** An array of evaluated questions lives in the heap and is handed
    around by reference. *)
Definition ref := nat.

Record World := mkWorld {
  store : gmap string Value;
  heap : list (list EvaluatedQuestion.t);
  trace : list Action;
  store_ops : nat;
  completions : nat;
  fetches : nat;
  searches : nat;
  clock_reads : nat
}.

Definition set_store (f : gmap string Value -> gmap string Value) (w : World) : World :=
  mkWorld (f (store w)) (heap w) (trace w) (store_ops w) (completions w)
          (fetches w) (searches w) (clock_reads w).
Definition set_heap (f : list (list EvaluatedQuestion.t) -> list (list EvaluatedQuestion.t))
    (w : World) : World :=
  mkWorld (store w) (f (heap w)) (trace w) (store_ops w) (completions w)
          (fetches w) (searches w) (clock_reads w).
Definition log (a : Action) (w : World) : World :=
  mkWorld (store w) (heap w) (trace w ++ [a]) (store_ops w) (completions w)
          (fetches w) (searches w) (clock_reads w).
Definition tick_store (w : World) : World :=
  mkWorld (store w) (heap w) (trace w) (S (store_ops w)) (completions w)
          (fetches w) (searches w) (clock_reads w).
Definition tick_completion (w : World) : World :=
  mkWorld (store w) (heap w) (trace w) (store_ops w) (S (completions w))
          (fetches w) (searches w) (clock_reads w).
Definition tick_fetch (w : World) : World :=
  mkWorld (store w) (heap w) (trace w) (store_ops w) (completions w)
          (S (fetches w)) (searches w) (clock_reads w).
Definition tick_search (w : World) : World :=
  mkWorld (store w) (heap w) (trace w) (store_ops w) (completions w)
          (fetches w) (S (searches w)) (clock_reads w).
Definition tick_clock (w : World) : World :=
  mkWorld (store w) (heap w) (trace w) (store_ops w) (completions w)
          (fetches w) (searches w) (S (clock_reads w)).

(** ** The monad of handlers: state and exceptions *)

Inductive Res (A : Type) :=
| Ok (a : A)
| Throw (e : JS.Thrown).
Arguments Ok {A} a.
Arguments Throw {A} e.

Definition M (A : Type) : Type := World -> Res A * World.

Definition ret {A} (a : A) : M A := fun w => (Ok a, w).

Definition bind {A B} (c : M A) (k : A -> M B) : M B :=
  fun w =>
    match c w with
    | (Ok a, w') => k a w'
    | (Throw e, w') => (Throw e, w')
    end.

Definition throw {A} (e : JS.Thrown) : M A := fun w => (Throw e, w).

(** [throw new Error(message)] *)
Definition throw_Error {A} (message : string) : M A :=
  throw (JS.ThrownError "Error" message).

(** [try { c } catch (e) { h e }] *)
Definition try_catch {A} (c : M A) (h : JS.Thrown -> M A) : M A :=
  fun w =>
    match c w with
    | (Ok a, w') => (Ok a, w')
    | (Throw e, w') => h e w'
    end.

Declare Scope js_scope.
Delimit Scope js_scope with js.
Notation "x <- c ;; k" := (bind c (fun x => k))
  (at level 100, c at next level, right associativity) : js_scope.
Notation "c ;;; k" := (bind c (fun _ => k))
  (at level 100, right associativity) : js_scope.
Open Scope js_scope.

(** The world after a handler, and what it added to the trace. *)
Definition run {A} (c : M A) (w : World) : World := snd (c w).
Definition outcome {A} (c : M A) (w : World) : Res A := fst (c w).
Definition actions {A} (c : M A) (w : World) : list Action :=
  drop (length (trace w)) (trace (run c w)).

(** An action that is neither a write to the store nor an event. *)
Definition silent (a : Action) : Prop :=
  match a with
  | StateSet _ _ | Emit _ _ => False
  | _ => True
  end.

(** From [w] to [w'] the store was left alone and only silent actions
    were added to the trace. *)
Definition quiet (w w' : World) : Prop :=
  store w' = store w
  /\ store_ops w' = store_ops w
  /\ exists acts, trace w' = trace w ++ acts /\ Forall silent acts.

(** *** The primitives of the context *)

(** [await state.get(key)] *)
Definition state_get (env : Env) (key : string) : M (option Value) :=
  fun w =>
    match store_fault env (store_ops w) with
    | Some e => (Throw e, tick_store w)
    | None => (Ok (store w !! key), tick_store w)
    end.

(** [await state.get<string>(key)]: the value is read at the type the
    caller declares. *)
Definition state_get_string (env : Env) (key : string) : M (option string) :=
  v <- state_get env key ;;
  ret (match v with Some (VString s) => Some s | _ => None end).

(** [await state.set(key, value)] *)
Definition state_set (env : Env) (key : string) (v : Value) : M unit :=
  fun w =>
    match store_fault env (store_ops w) with
    | Some e => (Throw e, tick_store w)
    | None => (Ok tt, log (StateSet key v) (set_store (insert key v) (tick_store w)))
    end.

(** [await emit({ topic, data })], [await event.emit(topic, data)] *)
Definition emit (topic : string) (data : EventData) : M unit :=
  fun w => (Ok tt, log (Emit topic data) w).

(** [await delay(ms)] *)
Definition delay (ms : Z) : M unit :=
  fun w => (Ok tt, log (Delay ms) w).

(** [new Date().toISOString()] *)
Definition now (env : Env) : M string :=
  fun w => (Ok (clock env (clock_reads w)), tick_clock w).

(** [await openai.chat.completions.create(...)], then
    [choices[0]?.message?.content] *)
Definition create_completion (env : Env) : M (option string) :=
  fun w =>
    let w' := log Completion (tick_completion w) in
    match completion env (completions w) with
    | CompletionThrows e => (Throw e, w')
    | CompletionContent c => (Ok c, w')
    end.

(** *** Arrays of evaluated questions, by reference *)

Definition not_an_array {A} : M A :=
  throw (JS.ThrownError "TypeError" "Cannot read properties of undefined").

(** [a.length] *)
Definition array_length (a : ref) : M nat :=
  fun w =>
    match heap w !! a with
    | Some l => (Ok (length l), w)
    | None => not_an_array w
    end.

(** The elements of [a], as they are now. *)
Definition array_elements (a : ref) : M (list EvaluatedQuestion.t) :=
  fun w =>
    match heap w !! a with
    | Some l => (Ok l, w)
    | None => not_an_array w
    end.

(** [a.filter(p)]: a new array. *)
Definition array_filter (p : EvaluatedQuestion.t -> bool) (a : ref) : M ref :=
  fun w =>
    match heap w !! a with
    | Some l => (Ok (length (heap w)), set_heap (fun h => h ++ [List.filter p l]) w)
    | None => not_an_array w
    end.

(** [a.sort(comparefn)]: sorts [a] in place. *)
Definition array_sort (comparefn : EvaluatedQuestion.t -> EvaluatedQuestion.t -> Q)
    (a : ref) : M unit :=
  fun w =>
    match heap w !! a with
    | Some l => (Ok tt, set_heap (fun h => <[a := JS.sort comparefn l]> h) w)
    | None => not_an_array w
    end.

(** [a.slice(0, n)]: a new array. *)
Definition array_slice0 (n : nat) (a : ref) : M ref :=
  fun w =>
    match heap w !! a with
    | Some l => (Ok (length (heap w)), set_heap (fun h => h ++ [JS.slice0 n l]) w)
    | None => not_an_array w
    end.

(** ** The report compiler (report-compiler.event.step.ts) *)

Module ReportCompiler.

Record QuestionsEvaluatedPayload := mkPayload {
  traceId : string;
  evaluatedQuestions : ref
}.

Definition config_name : string := "report-compiler".

Definition TOP_N_QUESTIONS : nat := 5.

(** [q => !q.error] *)
Definition no_error (q : EvaluatedQuestion.t) : bool :=
  negb (JS.truthy_opt_string (EvaluatedQuestion.error q)).

(** [(a, b) => b.overallScore - a.overallScore] *)
Definition by_score_desc (a b : EvaluatedQuestion.t) : Q :=
  EvaluatedQuestion.overallScore b - EvaluatedQuestion.overallScore a.

Definition handler (env : Env) (payload : QuestionsEvaluatedPayload) : M unit :=
  let traceId := traceId payload in
  let evaluatedQuestions := evaluatedQuestions payload in
  (* the first log line reads evaluatedQuestions.length, outside the try *)
  _ <- array_length evaluatedQuestions ;;
  try_catch
    ((* 1. retrieve the seed topic *)
     seedTopic <- state_get_string env (traceId +:+ ":seed_topic") ;;
     (* 2. filter out the failed evaluations and sort by score *)
     validEvaluations <- array_filter no_error evaluatedQuestions ;;
     array_sort by_score_desc validEvaluations ;;;
     (* 3. select the top N *)
     topQuestions <- array_slice0 TOP_N_QUESTIONS validEvaluations ;;
     (* 4. the report *)
     timestamp <- now env ;;
     top <- array_elements topQuestions ;;
     total <- array_length evaluatedQuestions ;;
     let finalReport :=
       FinalReport.mk traceId (JS.or_string seedTopic "Unknown") timestamp top
         (ReportMetadata.mk total (length top)) in
     (* 5. store it *)
     state_set env (traceId +:+ ":final_report") (VReport finalReport) ;;;
     (* 6. announce it *)
     emit "report.generated" (DReport traceId finalReport))
    (fun error =>
       emit "workflow.error"
         (DError traceId config_name
            (JS.message_or "Unknown error during report compilation" error))).

(** The ranking that the handler computes, as a function of the list. *)
Definition ranked (qs : list EvaluatedQuestion.t) : list EvaluatedQuestion.t :=
  JS.slice0 TOP_N_QUESTIONS (JS.sort by_score_desc (List.filter no_error qs)).

(** The report that the handler builds in the world [w] when the array
    it is given holds [qs]. *)
Definition report_of (env : Env) (payload : QuestionsEvaluatedPayload) (w : World)
    (qs : list EvaluatedQuestion.t) : FinalReport.t :=
  FinalReport.mk (traceId payload)
    (JS.or_string
       (match store w !! (traceId payload +:+ ":seed_topic") with
        | Some (VString s) => Some s
        | _ => None
        end) "Unknown")
    (clock env (clock_reads w))
    (ranked qs)
    (ReportMetadata.mk (length qs) (length (ranked qs))).

(** The properties of a final report compiled from the list [qs]. *)








End ReportCompiler.

(** ** Loops and the remaining primitives *)

(** [for (const x of l) { s = body(s, x) }], where [s] stands for the
    local variables the body updates. *)
Fixpoint for_of {A S : Type} (l : list A) (body : S -> A -> M S) (s : S) : M S :=
  match l with
  | [] => ret s
  | x :: l' => s' <- body s x ;; for_of l' body s'
  end.

(** A response of [fetch], as far as the extractor reads it. *)
Record Response := mkResponse {
  ok : bool;
  status : Z;
  content_type : option string;   (* response.headers.get('content-type') *)
  page : PageOutcome
}.

(** [await fetch(url, ...)] *)
Definition do_fetch (env : Env) (url : string) : M Response :=
  fun w =>
    let w' := log (Fetch url (fetch env (fetches w))) (tick_fetch w) in
    match fetch env (fetches w) with
    | FetchRejects e => (Throw e, w')
    | FetchResponds ok status ctype page => (Ok (mkResponse ok status ctype page), w')
    end.

(** [await response.text()], [new JSDOM(html)], [new Readability(...)]
    and [reader.parse()] *)
Definition read_article (r : Response) : M (option Article.t) :=
  match page r with
  | PageThrows e => throw e
  | PageParsed a => ret a
  end.

(** [await exa.searchAndContents(query, ...)], then [results.results] *)
Definition exa_search (env : Env) (query : string) : M (option (list SearchResult.t)) :=
  fun w =>
    let w' := log (Search query) (tick_search w) in
    match exa env (searches w) with
    | SearchThrows e => (Throw e, w')
    | SearchResponse r => (Ok r, w')
    end.

(** [if (!content) throw new Error(message)] *)
Definition require_content (content : option string) (message : string) : M string :=
  match content with
  | Some s => if JS.truthy_string s then ret s else throw_Error message
  | None => throw_Error message
  end.

(** [items.filter(q => typeof q === 'string')] *)
Fixpoint strings_of (items : list json) : list string :=
  match items with
  | [] => []
  | JString s :: items' => s :: strings_of items'
  | _ :: items' => strings_of items'
  end.

(** [object[key]] on the members of a parsed object. *)
Fixpoint member (key : string) (members : list (string * json)) : option json :=
  match members with
  | [] => None
  | (k, v) :: members' => if String.eqb k key then Some v else member key members'
  end.

(** [Object.values(object).find(Array.isArray)] *)
Fixpoint first_array (members : list (string * json)) : option (list json) :=
  match members with
  | [] => None
  | (_, JArray items) :: _ => Some items
  | _ :: members' => first_array members'
  end.

(** Reading a property of [null]. *)
Definition null_property {A} (name : string) : M A :=
  throw (JS.ThrownError "TypeError"
           ("Cannot read properties of null (reading '" +:+ name +:+ "')")).

(** ** The question judger (question-judger step) *)

Module QuestionJudger.

Record QuestionsGeneratedPayload := mkPayload {
  traceId : string;
  questions : list string
}.

Definition config_name : string := "question-judger".

(** [!c?.score] *)
Definition lacks_score (c : option EvaluationCriterion.t) : bool :=
  match c with
  | Some c => negb (JS.truthy_number (EvaluationCriterion.score c))
  | None => true
  end.

(** [JSON.parse(responseContent)] and the basic validation of the parsed
    structure; the four criteria are returned once they are known to be
    there. *)
Definition parse_evaluation (env : Env) (responseContent : string)
  : M (EvaluationCriterion.t * EvaluationCriterion.t *
       EvaluationCriterion.t * EvaluationCriterion.t) :=
  match JSON_parse_evaluation env responseContent with
  | inl e => throw e
  | inr evaluationResult =>
      if lacks_score (Evaluation.novelty evaluationResult)
         || lacks_score (Evaluation.feasibility evaluationResult)
         || lacks_score (Evaluation.impact evaluationResult)
         || lacks_score (Evaluation.crossDisciplinary evaluationResult)
      then throw_Error "Parsed JSON is missing required evaluation fields or scores."
      else
        match Evaluation.novelty evaluationResult,
              Evaluation.feasibility evaluationResult,
              Evaluation.impact evaluationResult,
              Evaluation.crossDisciplinary evaluationResult with
        | Some n, Some f, Some i, Some c => ret (n, f, i, c)
        | _, _, _, _ =>
            throw_Error "Parsed JSON is missing required evaluation fields or scores."
        end
  end.

(** The entry pushed when the evaluation of a question failed. *)
Definition failed_entry (question errorMessage : string) : EvaluatedQuestion.t :=
  let placeholder := EvaluationCriterion.mk 0 "Evaluation Error" in
  EvaluatedQuestion.mk question placeholder placeholder placeholder placeholder
    0 (Some errorMessage).

(** The entry pushed after a successful evaluation:
    [{ question, ...evaluationResult, overallScore }]. *)
Definition scored_entry (question : string)
    (n f i c : EvaluationCriterion.t) : EvaluatedQuestion.t :=
  let overallScore :=
    ((EvaluationCriterion.score n + EvaluationCriterion.score f
      + EvaluationCriterion.score i + EvaluationCriterion.score c) / 4)%Q in
  EvaluatedQuestion.mk question n f i c (JS.toFixed2 overallScore) None.

(** The body of the loop over the questions; [evaluatedQuestions] is the
    array the entries are pushed on. *)
Definition evaluate (env : Env) (evaluatedQuestions : list EvaluatedQuestion.t)
    (question : string) : M (list EvaluatedQuestion.t) :=
  try_catch
    (responseContent <- create_completion env ;;
     responseContent <-
       require_content responseContent "OpenAI evaluation response content was empty." ;;
     evaluationResult <-
       try_catch (parse_evaluation env responseContent)
         (fun parseError =>
            throw_Error ("Failed to parse OpenAI JSON evaluation: "
                         +:+ JS.message_or "Unknown parsing error" parseError)) ;;
     let '(n, f, i, c) := evaluationResult in
     let evaluatedQuestions := evaluatedQuestions ++ [scored_entry question n f i c] in
     delay 500 ;;;
     ret evaluatedQuestions)
    (fun evalError =>
       ret (evaluatedQuestions
            ++ [failed_entry question
                  (JS.message_or "Unknown evaluation error" evalError)])).

Definition handler (env : Env) (payload : QuestionsGeneratedPayload) : M unit :=
  let traceId := traceId payload in
  if negb (JS.truthy_opt_string (secrets env !! "OPENAI_API_KEY")) then
    emit "workflow.error" (DError traceId config_name "Missing OpenAI API Key")
  else
    try_catch
      (seedTopic <- state_get_string env (traceId +:+ ":seed_topic") ;;
       evaluatedQuestions <- for_of (questions payload) (evaluate env) [] ;;
       state_set env (traceId +:+ ":evaluated_questions") (VEvaluated evaluatedQuestions) ;;;
       emit "questions.judged" (DEvaluated traceId evaluatedQuestions))
      (fun error =>
         emit "workflow.error"
           (DError traceId config_name
              ("Critical error in evaluation step: "
               +:+ JS.message_or "Unknown critical error" error))).

(** The entry that one completion leads to, as a function of what the
    completion service did. *)
Definition entry_for (env : Env) (question : string) (o : CompletionOutcome)
  : EvaluatedQuestion.t :=
  let missing := "Parsed JSON is missing required evaluation fields or scores." in
  let unparsed m := failed_entry question ("Failed to parse OpenAI JSON evaluation: " +:+ m) in
  match o with
  | CompletionThrows e =>
      failed_entry question (JS.message_or "Unknown evaluation error" e)
  | CompletionContent content =>
      if JS.truthy_opt_string content then
        match JSON_parse_evaluation env (default EmptyString content) with
        | inl e => unparsed (JS.message_or "Unknown parsing error" e)
        | inr r =>
            match Evaluation.novelty r, Evaluation.feasibility r,
                  Evaluation.impact r, Evaluation.crossDisciplinary r with
            | Some n, Some f, Some i, Some c =>
                if JS.truthy_number (EvaluationCriterion.score n)
                   && JS.truthy_number (EvaluationCriterion.score f)
                   && JS.truthy_number (EvaluationCriterion.score i)
                   && JS.truthy_number (EvaluationCriterion.score c)
                then scored_entry question n f i c
                else unparsed missing
            | _, _, _, _ => unparsed missing
            end
        end
      else failed_entry question "OpenAI evaluation response content was empty."
  end.

(** The entries for a list of questions when the first of them is
    answered by the [k]-th completion. *)
Fixpoint entries_from (env : Env) (k : nat) (questions : list string)
  : list EvaluatedQuestion.t :=
  match questions with
  | [] => []
  | question :: questions' =>
      entry_for env question (completion env k) :: entries_from env (S k) questions'
  end.

(** The properties of an entry of [evaluated_questions]. *)






End QuestionJudger.

(** ** The content extractor (content-extractor step) *)

Module ContentExtractor.

(** An element of [payload.results]. *)
Module Hit.
Record t := mk { url : string; title : string; score : Q }.
End Hit.

Record SearchResultsObtainedPayload := mkPayload {
  traceId : string;
  results : list Hit.t;
  errors : list string
}.

Definition MAX_RETRIES : nat := 2.
Definition RETRY_DELAY : Z := 1000.
Definition FETCH_TIMEOUT : Z := 15000.

(** The variables of the retry loop. *)
Record Retry := mkRetry {
  success : bool;
  attempt : nat;
  extracted : option ExtractedContent.t
}.

(** The entry of a URL that could not be used. *)
Definition failed (result : Hit.t) (errorMessage : string) : ExtractedContent.t :=
  ExtractedContent.mk (Hit.url result) (Hit.title result) EmptyString None None (Some errorMessage).

(** The message the catch block records. *)
Definition error_message (error : JS.Thrown) : string :=
  match error with
  | JS.ThrownError name message =>
      if String.eqb name "AbortError"
      then "Fetch timed out after " +:+ pretty (FETCH_TIMEOUT / 1000)%Z +:+ "s"
      else message
  | JS.ThrownValue _ => "Unknown error"
  end.

(** One turn of the while loop, after [attempt++]; it gives the new
    values of [success] and [extracted]. *)
Definition fetch_and_extract (env : Env) (result : Hit.t) (attempt : nat)
  : M (bool * ExtractedContent.t) :=
  try_catch
    (response <- do_fetch env (Hit.url result) ;;
     if negb (ok response) then
       throw_Error ("HTTP error! status: " +:+ pretty (status response)
                    +:+ " for " +:+ Hit.url result)
     else
       let contentType := default EmptyString (content_type response) in
       if negb (JS.includes contentType "text/html") then
         (* recorded as it is, and [success = true] ends the loop *)
         ret (true, failed result ("Skipped non-HTML content type: " +:+ contentType))
       else
         article <- read_article response ;;
         match article with
         | Some article =>
             if JS.truthy_opt_string (Article.textContent article) then
               ret (true,
                    ExtractedContent.mk (Hit.url result)
                      (JS.or_string (Article.title article) (Hit.title result))
                      (JS.trim (default EmptyString (Article.textContent article)))
                      (Article.excerpt article) (Article.length article) None)
             else
               throw_Error ("Readability could not extract content from "
                            +:+ Hit.url result)
         | None =>
             throw_Error ("Readability could not extract content from "
                          +:+ Hit.url result)
         end)
    (fun error =>
       let extracted := failed result (error_message error) in
       (if (attempt <=? MAX_RETRIES)%nat then delay RETRY_DELAY else ret tt) ;;;
       ret (false, extracted)).

(** [while (attempt < MAX_RETRIES + 1 && !success) { attempt++; ... }] *)
Fixpoint retry_loop (fuel : nat) (env : Env) (result : Hit.t) (st : Retry) : M Retry :=
  match fuel with
  | O => ret st
  | S fuel' =>
      if (attempt st <? MAX_RETRIES + 1)%nat && negb (success st) then
        let attempt := S (attempt st) in
        r <- fetch_and_extract env result attempt ;;
        retry_loop fuel' env result (mkRetry (fst r) attempt (Some (snd r)))
      else ret st
  end.

(** The body of the loop over the results; the while loop stops by its
    own condition within [MAX_RETRIES + 1] turns. *)
Definition extract (env : Env) (extractedContents : list ExtractedContent.t)
    (result : Hit.t) : M (list ExtractedContent.t) :=
  if negb (JS.truthy_string (Hit.url result)) then
    ret extractedContents                           (* continue *)
  else
    st <- retry_loop (MAX_RETRIES + 1) env result (mkRetry false 0 None) ;;
    match extracted st with
    | Some extracted => ret (extractedContents ++ [extracted])
    | None => ret extractedContents
    end.

Definition handler (env : Env) (payload : SearchResultsObtainedPayload) : M unit :=
  extractedContents <- for_of (results payload) (extract env) [] ;;
  state_set env (traceId payload +:+ ":extracted_content") (VExtracted extractedContents) ;;;
  emit "content.extracted" (DExtracted (traceId payload) extractedContents).

(** What one attempt amounts to, as a function of what [fetch] did: the
    page was extracted, the URL was rejected for good, or the attempt
    failed with a message. *)
Inductive Verdict :=
| Extracted (e : ExtractedContent.t)
| Rejected (e : ExtractedContent.t)
| Failed (message : string).

Definition verdict (result : Hit.t) (o : FetchOutcome) : Verdict :=
  let no_content :=
    Failed ("Readability could not extract content from " +:+ Hit.url result) in
  match o with
  | FetchRejects e => Failed (error_message e)
  | FetchResponds ok status ctype page =>
      if negb ok then
        Failed ("HTTP error! status: " +:+ pretty status +:+ " for " +:+ Hit.url result)
      else if negb (JS.includes (default EmptyString ctype) "text/html") then
        Rejected (failed result ("Skipped non-HTML content type: " +:+ default EmptyString ctype))
      else
        match page with
        | PageThrows e => Failed (error_message e)
        | PageParsed None => no_content
        | PageParsed (Some article) =>
            if JS.truthy_opt_string (Article.textContent article) then
              Extracted
                (ExtractedContent.mk (Hit.url result)
                   (JS.or_string (Article.title article) (Hit.title result))
                   (JS.trim (default EmptyString (Article.textContent article)))
                   (Article.excerpt article) (Article.length article) None)
            else no_content
        end
  end.

(** The retry discipline, spelled out for the three outcomes that the
    next calls of [fetch] would have: an attempt that extracts the page or
    rejects the URL ends the work on the URL; a failed attempt is followed
    by a delay of one second and a new attempt, up to three attempts, and
    the third failure is the one recorded.  The result is the entry and
    the actions taken. *)
Definition unit_result (result : Hit.t) (o1 o2 o3 : FetchOutcome)
  : ExtractedContent.t * list Action :=
  let u := Hit.url result in
  match verdict result o1 with
  | Extracted e | Rejected e => (e, [Fetch u o1])
  | Failed _ =>
      match verdict result o2 with
      | Extracted e | Rejected e => (e, [Fetch u o1; Delay 1000; Fetch u o2])
      | Failed _ =>
          match verdict result o3 with
          | Extracted e | Rejected e =>
              (e, [Fetch u o1; Delay 1000; Fetch u o2; Delay 1000; Fetch u o3])
          | Failed m =>
              (failed result m,
               [Fetch u o1; Delay 1000; Fetch u o2; Delay 1000; Fetch u o3])
          end
      end
  end.

(** The retry policy as the specification describes it: an attempt is
    repeated only when [fetch] itself failed, by a transport error or a
    timeout; whatever a response leads to is recorded at once. *)
Definition retried_as_specified (o : FetchOutcome) : bool :=
  match o with
  | FetchRejects _ => true
  | FetchResponds _ _ _ _ => false
  end.

Definition unit_as_specified (result : Hit.t) (o1 : FetchOutcome) (acts : list Action)
  : Prop :=
  retried_as_specified o1 = false -> acts = [Fetch (Hit.url result) o1].

(** The entries and the actions of a batch: a result without a URL is
    skipped, every other result is worked on by the retry discipline, one
    after the other. *)
Inductive settled : list Hit.t -> list ExtractedContent.t -> list Action -> Prop :=
| settled_nil : settled [] [] []
| settled_skip r rs l acts :
    JS.truthy_string (Hit.url r) = false ->
    settled rs l acts ->
    settled (r :: rs) l acts
| settled_unit r rs l acts o1 o2 o3 :
    JS.truthy_string (Hit.url r) = true ->
    settled rs l acts ->
    settled (r :: rs) (fst (unit_result r o1 o2 o3) :: l)
      (snd (unit_result r o1 o2 o3) ++ acts).

(** A call of [fetch] that delivered a page with text. *)
Definition usable (o : FetchOutcome) : bool :=
  match o with
  | FetchResponds true _ ctype (PageParsed (Some article)) =>
      JS.includes (default EmptyString ctype) "text/html"
      && JS.truthy_opt_string (Article.textContent article)
  | _ => false
  end.

Definition usable_fetches (acts : list Action) : nat :=
  length (List.filter (fun a => match a with Fetch _ o => usable o | _ => false end) acts).

(** The entry carries an error field. *)
Definition has_error (e : ExtractedContent.t) : bool :=
  match ExtractedContent.error e with
  | Some _ => true
  | None => false
  end.

(** The results that the loop does not skip. *)
Definition with_url (results : list Hit.t) : list Hit.t :=
  List.filter (fun r => JS.truthy_string (Hit.url r)) results.

(** An entry of [extracted_content]: extracted text without an error, or
    an error and no content. *)
Definition text_or_error (e : ExtractedContent.t) : Prop :=
  ExtractedContent.error e = None
  \/ (ExtractedContent.error e <> None /\ ExtractedContent.content e = EmptyString).


(** The artifact as the handler builds it: one entry per search result
    that has a URL, in order, those whose extraction failed with an error
    and no content. *)
Definition batch_as_extracted (results : list Hit.t) (acts : list Action)
    (l : list ExtractedContent.t) : Prop :=
  map ExtractedContent.url l = map Hit.url (with_url results)
  /\ Forall text_or_error l
  /\ (length (List.filter has_error l) + usable_fetches acts)%nat = length l
  /\ (forall r, r ∈ with_url results -> exists o, Fetch (Hit.url r) o ∈ acts).

End ContentExtractor.

(** ** The Exa searcher (exa-searcher.event.step.ts) *)

Module ExaSearcher.

Record QueriesGeneratedPayload := mkPayload {
  traceId : string;
  queries : list string
}.

Definition config_name : string := "exa-searcher".

(** The two arrays the loop fills. *)
Record Found := mkFound {
  allResults : list SearchResult.t;
  errors : list string
}.

(** One pushed result: the fields are copied one by one. *)
Definition copy (res : SearchResult.t) : SearchResult.t :=
  SearchResult.mk (SearchResult.url res) (SearchResult.title res) (SearchResult.id res)
    (SearchResult.publishedDate res) (SearchResult.author res) (SearchResult.score res).

(** The body of the loop over the queries. *)
Definition search (env : Env) (found : Found) (query : string) : M Found :=
  try_catch
    (results <- exa_search env query ;;
     match results with
     | Some (r :: rs) =>
         ret (mkFound (allResults found ++ map copy (r :: rs)) (errors found))
     | _ => ret found
     end)
    (fun error =>
       ret (mkFound (allResults found)
              (errors found
               ++ ["Query: " +:+ JS.quote +:+ query +:+ JS.quote +:+ " - Error: "
                   +:+ JS.message_or_String error]))).

Definition handler (env : Env) (payload : QueriesGeneratedPayload) : M unit :=
  let traceId := traceId payload in
  if negb (JS.truthy_opt_string (process_env env !! "EXA_API_KEY")) then
    emit "workflow.error" (DError traceId config_name "Missing Exa API Key")
  else
    found <- for_of (queries payload) (search env) (mkFound [] []) ;;
    match allResults found with
    | [] =>
        let errorMsg :=
          match errors found with
          | first :: _ => "Failed to get results for any query. First error: " +:+ first
          | [] => "No search results found for any query."
          end in
        emit "workflow.error" (DError traceId config_name errorMsg)
    | _ :: _ =>
        state_set env (traceId +:+ ":exa_search_results")
          (VSearchResults (allResults found)) ;;;
        emit "search_results.obtained"
          (DSearchResults traceId (allResults found) (errors found))
    end.

End ExaSearcher.

(** ** The query generator (query-generator step) *)

Module QueryGenerator.

Record TopicSeededPayload := mkPayload {
  traceId : string;
  topic : string
}.

Definition config_name : string := "query-generator".

(** The try block of the parsing: the strict parse, then the root array
    or the array under [queries]. *)
Definition parse_queries (env : Env) (rawQueries : string) : M (list string) :=
  match JSON_parse env rawQueries with
  | inl e => throw e
  | inr parsedResponse =>
      match parsedResponse with
      | JArray items => ret (strings_of items)
      | JNull => null_property "queries"
      | JObject members =>
          match member "queries" members with
          | Some (JArray items) => ret (strings_of items)
          | _ => throw_Error "Could not find expected queries array in OpenAI JSON response."
          end
      | _ => throw_Error "Could not find expected queries array in OpenAI JSON response."
      end
  end.

(** The catch block of the parsing: the quoted substrings of the raw text. *)
Definition extract_queries (rawQueries : string) : M (list string) :=
  match JS.quoted_substrings rawQueries with
  | [] =>
      throw_Error ("Could not parse or extract queries from OpenAI response: "
                   +:+ rawQueries)
  | generatedQueries => ret generatedQueries
  end.

Definition handler (env : Env) (payload : TopicSeededPayload) : M unit :=
  let traceId := traceId payload in
  if negb (JS.truthy_opt_string (process_env env !! "OPENAI_API_KEY")) then
    emit "workflow.error" (DError traceId config_name "Missing OpenAI API Key")
  else
    try_catch
      (rawQueries <- create_completion env ;;
       rawQueries <- require_content rawQueries "OpenAI response content is empty." ;;
       generatedQueries <-
         try_catch (parse_queries env rawQueries)
           (fun parseError => extract_queries rawQueries) ;;
       match generatedQueries with
       | [] => throw_Error "No valid queries were generated or extracted."
       | _ :: _ =>
           state_set env (traceId +:+ ":generated_queries") (VStrings generatedQueries) ;;;
           emit "queries.generated" (DQueries traceId generatedQueries)
       end)
      (fun error =>
         emit "workflow.error"
           (DError traceId config_name (JS.message_or_String error))).

(** What the try block of the parsing yields when it completes. *)
Definition parsed_queries (env : Env) (rawQueries : string) : option (list string) :=
  match JSON_parse env rawQueries with
  | inr (JArray items) => Some (strings_of items)
  | inr (JObject members) =>
      match member "queries" members with
      | Some (JArray items) => Some (strings_of items)
      | _ => None
      end
  | _ => None
  end.

(** The queries found in the completion: by the strict parse, at the
    root or under [queries]; failing that, the quoted substrings. *)
Definition queries_found (env : Env) (rawQueries : string) : list string :=
  match parsed_queries env rawQueries with
  | Some generatedQueries => generatedQueries
  | None => JS.quoted_substrings rawQueries
  end.

(** The actions of the handler, as a function of what the environment
    does. *)
Definition expected_actions (env : Env) (payload : TopicSeededPayload) (w : World)
  : list Action :=
  let failure message :=
    [Emit "workflow.error" (DError (traceId payload) config_name message)] in
  if negb (JS.truthy_opt_string (process_env env !! "OPENAI_API_KEY")) then
    failure "Missing OpenAI API Key"
  else
    Completion ::
    match completion env (completions w) with
    | CompletionThrows e => failure (JS.message_or_String e)
    | CompletionContent content =>
        if JS.truthy_opt_string content then
          let rawQueries := default EmptyString content in
          match queries_found env rawQueries with
          | [] =>
              failure
                (match parsed_queries env rawQueries with
                 | Some _ => "No valid queries were generated or extracted."
                 | None =>
                     "Could not parse or extract queries from OpenAI response: "
                     +:+ rawQueries
                 end)
          | q :: qs =>
              match store_fault env (store_ops w) with
              | Some e => failure (JS.message_or_String e)
              | None =>
                  [StateSet (traceId payload +:+ ":generated_queries") (VStrings (q :: qs));
                   Emit "queries.generated" (DQueries (traceId payload) (q :: qs))]
              end
          end
        else failure "OpenAI response content is empty."
    end.

End QueryGenerator.

(** ** The question brainstormer (question-brainstormer.event.step.ts) *)

Module QuestionBrainstormer.

Record ContentExtractedPayload := mkPayload {
  traceId : string
}.

Definition config_name : string := "question-brainstormer".

(** [await Promise.all([state.get(a), state.get(b)])]: both reads are
    started, then the first failure, if any, is thrown. *)
Definition state_get_both (env : Env) (a b : string) : M (option Value * option Value) :=
  fun w =>
    let w' := tick_store (tick_store w) in
    match store_fault env (store_ops w), store_fault env (S (store_ops w)) with
    | Some e, _ => (Throw e, w')
    | None, Some e => (Throw e, w')
    | None, None => (Ok (store w !! a, store w !! b), w')
    end.

(** Step 5 of the handler: the array at the root, under [questions], or
    the first array among the values; then only the strings are kept. *)
Definition parse_questions (env : Env) (responseContent : string) : M (list string) :=
  match JSON_parse env responseContent with
  | inl e => throw e
  | inr parsedJson =>
      found <-
        match parsedJson with
        | JArray items => ret items
        | JNull => null_property "questions"
        | JObject members =>
            match member "questions" members with
            | Some (JArray items) => ret items
            | _ =>
                match first_array members with
                | Some items => ret items
                | None =>
                    throw_Error "Could not find a JSON array of questions in the response."
                end
            end
        | _ => throw_Error "Could not find a JSON array of questions in the response."
        end ;;
      match strings_of found with
      | [] => throw_Error "OpenAI response parsed, but no questions found in the array."
      | generatedQuestions => ret generatedQuestions
      end
  end.

(** The prompt of step 2 and 3 is assembled from the seed topic and the
    extracted content and is only sent with the request; the reply comes
    from the environment. *)
Definition handler (env : Env) (payload : ContentExtractedPayload) : M unit :=
  let traceId := traceId payload in
  if negb (JS.truthy_opt_string (process_env env !! "OPENAI_API_KEY")) then
    emit "workflow.error" (DError traceId config_name "Missing OpenAI API Key")
  else
    let seedTopicKey := traceId +:+ ":seed_topic" in
    let contentKey := traceId +:+ ":extracted_content" in
    try_catch
      (both <- state_get_both env seedTopicKey contentKey ;;
       match fst both with
       | None =>
           throw_Error ("Seed topic not found or invalid in state for key: "
                        +:+ seedTopicKey)
       | Some _ =>
           match snd both with
           | Some (VExtracted (_ :: _)) =>
               responseContent <- create_completion env ;;
               responseContent <-
                 require_content responseContent "OpenAI response content was empty." ;;
               generatedQuestions <-
                 try_catch (parse_questions env responseContent)
                   (fun parseError =>
                      throw_Error ("Failed to parse OpenAI JSON response: "
                                   +:+ JS.message_or "Unknown parsing error" parseError)) ;;
               state_set env (traceId +:+ ":generated_questions")
                 (VStrings generatedQuestions) ;;;
               emit "questions.generated" (DQuestions traceId generatedQuestions)
           | _ =>
               throw_Error ("Extracted content not found or empty in state for key: "
                            +:+ contentKey)
           end
       end)
      (fun error =>
         emit "workflow.error"
           (DError traceId config_name
              (JS.message_or "Unknown error in question-brainstormer" error))).

End QuestionBrainstormer.

(** ** The report endpoint (report-retriever.api.step.ts) *)

Module ReportRetriever.

(** [input.queryParams?.traceId] *)
Record ReportRetrieverInput := mkInput {
  traceId : option string
}.

Inductive Body :=
| Stored (v : Value)
| ErrorBody (error : string).

(** Every response also carries the JSON content-type header. *)
Record ApiResponse := mkApiResponse {
  api_status : Z;
  api_body : Body
}.

Definition handler (env : Env) (input : ReportRetrieverInput) : M ApiResponse :=
  match traceId input with
  | None => ret (mkApiResponse 400 (ErrorBody "Valid traceId is required"))
  | Some EmptyString => ret (mkApiResponse 400 (ErrorBody "Valid traceId is required"))
  | Some traceId =>
      try_catch
        (report <- state_get env (traceId +:+ ":final_report") ;;
         match report with
         | Some report =>
             if truthy_value report then ret (mkApiResponse 200 (Stored report))
             else ret (mkApiResponse 404
                         (ErrorBody "Report not found. It might still be processing or the traceId is invalid."))
         | None =>
             ret (mkApiResponse 404
                    (ErrorBody "Report not found. It might still be processing or the traceId is invalid."))
         end)
        (fun error =>
           ret (mkApiResponse 500
                  (ErrorBody "An internal server error occurred while retrieving the report.")))
  end.

(** The status of the response, if the handler returns one. *)
Definition status_of (env : Env) (input : ReportRetrieverInput) (w : World) : option Z :=
  match outcome (handler env input) w with
  | Ok response => Some (api_status response)
  | Throw _ => None
  end.

(** The endpoint as the specification describes it for a trace
    identifier: the stored report with 200, 404 when there is none, and
    500 exactly when the store cannot be read. *)
Definition endpoint_as_specified (env : Env) (w : World) (traceId : string) : Prop :=
  let key := traceId +:+ ":final_report" in
  let input := mkInput (Some traceId) in
  (forall report,
     store_fault env (store_ops w) = None ->
     store w !! key = Some (VReport report) ->
     outcome (handler env input) w = Ok (mkApiResponse 200 (Stored (VReport report))))
  /\ (store_fault env (store_ops w) = None ->
      store w !! key = None ->
      status_of env input w = Some 404%Z)
  /\ (status_of env input w = Some 500%Z <-> store_fault env (store_ops w) <> None).

End ReportRetriever.

(** ** The pipeline: which stage an event is delivered to *)

Inductive Delivery :=
| ToQueryGenerator (payload : QueryGenerator.TopicSeededPayload)
| ToExaSearcher (payload : ExaSearcher.QueriesGeneratedPayload)
| ToContentExtractor (payload : ContentExtractor.SearchResultsObtainedPayload)
| ToQuestionBrainstormer (payload : QuestionBrainstormer.ContentExtractedPayload)
| ToQuestionJudger (payload : QuestionJudger.QuestionsGeneratedPayload)
| ToReportCompiler (payload : ReportCompiler.QuestionsEvaluatedPayload).

(** The handler that runs. *)
Definition stage (env : Env) (d : Delivery) : M unit :=
  match d with
  | ToQueryGenerator payload => QueryGenerator.handler env payload
  | ToExaSearcher payload => ExaSearcher.handler env payload
  | ToContentExtractor payload => ContentExtractor.handler env payload
  | ToQuestionBrainstormer payload => QuestionBrainstormer.handler env payload
  | ToQuestionJudger payload => QuestionJudger.handler env payload
  | ToReportCompiler payload => ReportCompiler.handler env payload
  end.

(** The event that hands over to the next stage. *)
Definition successor (d : Delivery) : string :=
  match d with
  | ToQueryGenerator _ => "queries.generated"
  | ToExaSearcher _ => "search_results.obtained"
  | ToContentExtractor _ => "content.extracted"
  | ToQuestionBrainstormer _ => "questions.generated"
  | ToQuestionJudger _ => "questions.judged"
  | ToReportCompiler _ => "report.generated"
  end.

(** The key under which the stage stores its output. *)
Definition artifact_key (d : Delivery) : string :=
  match d with
  | ToQueryGenerator payload =>
      QueryGenerator.traceId payload +:+ ":generated_queries"
  | ToExaSearcher payload =>
      ExaSearcher.traceId payload +:+ ":exa_search_results"
  | ToContentExtractor payload =>
      ContentExtractor.traceId payload +:+ ":extracted_content"
  | ToQuestionBrainstormer payload =>
      QuestionBrainstormer.traceId payload +:+ ":generated_questions"
  | ToQuestionJudger payload =>
      QuestionJudger.traceId payload +:+ ":evaluated_questions"
  | ToReportCompiler payload =>
      ReportCompiler.traceId payload +:+ ":final_report"
  end.

(** In [acts], every emission of [topic] comes after a write of [key]
    to the store. *)
Definition persist_before_emit (key topic : string) (acts : list Action) : Prop :=
  forall i data,
    acts !! i = Some (Emit topic data) ->
    exists j v, (j < i)%nat /\ acts !! j = Some (StateSet key v).

(** The three shapes of what a stage adds to the trace: silent actions
    only; silent actions and an error event; silent actions, the
    artifact, and then the event for the next stage. *)
Definition stage_trace (key topic : string) (acts : list Action) : Prop :=
  exists pre,
    Forall silent pre
    /\ (acts = pre
        \/ (exists data, acts = pre ++ [Emit "workflow.error" data])
        \/ (exists v data, acts = pre ++ [StateSet key v; Emit topic data])).

(** ** Sample data for concrete runs *)

Module Sample.

(** An environment in which the store works, the completion service
    returns nothing and every fetch is refused. *)
Definition quiet : Env :=
  mkEnv ∅ ∅
    (fun _ => None)
    (fun _ => CompletionContent None)
    (fun _ => FetchRejects (JS.ThrownError "FetchError" "connection refused"))
    (fun _ => SearchResponse None)
    (fun _ => "2025-01-01T00:00:00.000Z")
    (fun _ => inl (JS.ThrownError "SyntaxError" "Unexpected end of JSON input"))
    (fun _ => inl (JS.ThrownError "SyntaxError" "Unexpected end of JSON input")).

(** A world with an empty store and the given arrays in its heap. *)
Definition world (arrays : list (list EvaluatedQuestion.t)) : World :=
  mkWorld ∅ arrays [] 0 0 0 0 0.

Definition criterion (n : Z) : EvaluationCriterion.t :=
  EvaluationCriterion.mk (inject_Z n) "as judged".

(** An evaluated question whose four criteria are all scored [n]. *)
Definition scored (question : string) (n : Z) : EvaluatedQuestion.t :=
  EvaluatedQuestion.mk question (criterion n) (criterion n) (criterion n) (criterion n)
    (inject_Z n) None.


Definition three_questions : list EvaluatedQuestion.t :=
  [scored "Q1" 5; scored "Q2" 8; scored "Q3" 5].





(** A page that is served as HTML but from which Readability extracts
    nothing. *)
Definition no_text : FetchOutcome :=
  FetchResponds true 200 (Some "text/html; charset=utf-8") (PageParsed None).

(** An environment in which every fetched page is like that. *)
Definition unreadable : Env :=
  mkEnv ∅ ∅
    (fun _ => None)
    (fun _ => CompletionContent None)
    (fun _ => no_text)
    (fun _ => SearchResponse None)
    (fun _ => "2025-01-01T00:00:00.000Z")
    (fun _ => inl (JS.ThrownError "SyntaxError" "Unexpected end of JSON input"))
    (fun _ => inl (JS.ThrownError "SyntaxError" "Unexpected end of JSON input")).

Definition page_a : ContentExtractor.Hit.t :=
  ContentExtractor.Hit.mk "https://example.org/a" "Page A" (9 # 10).

(** A search result whose URL is the empty string. *)
Definition no_url : ContentExtractor.Hit.t :=
  ContentExtractor.Hit.mk EmptyString "Untitled" (7 # 10).

Definition batch_without_url : ContentExtractor.SearchResultsObtainedPayload :=
  ContentExtractor.mkPayload "t4" [no_url] [].

(** An environment for the query generator: the key is there and the
    completion is the given text, which does not parse as JSON. *)
Definition replying (content : string) : Env :=
  mkEnv (<["OPENAI_API_KEY" := "sk-sample"]> ∅) ∅
    (fun _ => None)
    (fun _ => CompletionContent (Some content))
    (fun _ => FetchRejects (JS.ThrownError "FetchError" "connection refused"))
    (fun _ => SearchResponse None)
    (fun _ => "2025-01-01T00:00:00.000Z")
    (fun _ => inl (JS.ThrownError "SyntaxError" "Unexpected token"))
    (fun _ => inl (JS.ThrownError "SyntaxError" "Unexpected token")).

Definition seeded : QueryGenerator.TopicSeededPayload :=
  QueryGenerator.mkPayload "t9" "Quantum computing applications in drug discovery".

(** A completion that is text with two quoted phrases. *)
Definition two_quoted : string :=
  "Try " +:+ JS.quote +:+ "query A" +:+ JS.quote +:+ " and "
  +:+ JS.quote +:+ "query B" +:+ JS.quote +:+ ".".

End Sample.

(** ** The context of the brainstorming prompt
       (question-brainstormer.event.step.ts, step 2 of the handler)

    The [length] of a text is the number of its code units, which the
    characters of a [string] stand for. *)

Module BrainstormerContext.

(** The line feed of the template literals. *)
Definition newline : string := String (ascii_of_nat 10) EmptyString.

(** [text.substring(0, n)] *)
Definition substring0 (n : nat) (text : string) : string := String.substring 0 n text.

(** The helper [truncateText]. *)
Definition truncateText (text : string) (maxLength : nat) : string :=
  if negb (JS.truthy_string text) then EmptyString
  else if (maxLength <? String.length text)%nat
       then substring0 maxLength text +:+ "..."
       else text.

Definition MAX_CONTEXT_CHARS : nat := 8000.

(** [!item.error && (item.content || item.excerpt)] *)
Definition summarised (item : ExtractedContent.t) : bool :=
  negb (JS.truthy_opt_string (ExtractedContent.error item))
  && (JS.truthy_string (ExtractedContent.content item)
      || JS.truthy_opt_string (ExtractedContent.excerpt item)).

(** The [entry] of an item: its title line when it has a title, its
    source line, and as summary its excerpt or else the first 300
    characters of its content. *)
Definition entry_of (item : ExtractedContent.t) : string :=
  let titlePart :=
    if JS.truthy_string (ExtractedContent.title item)
    then "Title: " +:+ ExtractedContent.title item +:+ newline
    else EmptyString in
  let contentPart :=
    if JS.truthy_opt_string (ExtractedContent.excerpt item)
    then default EmptyString (ExtractedContent.excerpt item)
    else truncateText (ExtractedContent.content item) 300 in
  titlePart +:+ "Source: " +:+ ExtractedContent.url item +:+ newline
  +:+ "Summary: " +:+ contentPart +:+ newline +:+ "---" +:+ newline.

(** The loop over the extracted content, from the value [contextText]
    has so far; the first entry that does not fit ends it. *)
Fixpoint add_entries (extractedContent : list ExtractedContent.t) (contextText : string)
  : string :=
  match extractedContent with
  | [] => contextText
  | item :: rest =>
      if summarised item then
        let entry := entry_of item in
        if (String.length contextText + String.length entry <=? MAX_CONTEXT_CHARS)%nat
        then add_entries rest (contextText +:+ entry)
        else contextText                                     (* break *)
      else add_entries rest contextText
  end.

(** The context that goes into the user prompt. *)
Definition contextText (extractedContent : list ExtractedContent.t) : string :=
  let contextText := add_entries extractedContent EmptyString in
  if negb (JS.truthy_string contextText)
  then "No content could be summarized from the provided sources."
  else contextText.

(** The entries of [l], one after the other. *)
Definition entries (l : list ExtractedContent.t) : string :=
  fold_right (fun item rest => entry_of item +:+ rest) EmptyString l.

End BrainstormerContext.

(** ** The entry point (research-starter.api.step.ts) *)

Module ResearchStarter.

(** [input.body], which the body schema requires to hold a [seed_topic]. *)
Record ResearchStarterInput := mkInput {
  seed_topic : string
}.

Inductive Body :=
| TraceId (traceId : string)
| ErrorBody (error : string).

Record ApiResponse := mkApiResponse {
  api_status : Z;
  api_body : Body
}.

(** What the runtime gives one call of the handler: the identifier that
    [randomUUID()] returns, and whether [context.emit] rejects. *)
Record Runtime := mkRuntime {
  randomUUID : string;
  emit_fault : option JS.Thrown
}.

(** [await context.emit({ topic, data })] of an API step, which the
    handler guards. *)
Definition context_emit (rt : Runtime) (topic : string) (data : EventData) : M unit :=
  match emit_fault rt with
  | Some e => throw e
  | None => emit topic data
  end.

(** The handler that stores the topic and announces it; [failed] stands
    for the [return] inside the catch block. *)
Definition handler (rt : Runtime) (env : Env) (input : ResearchStarterInput) : M ApiResponse :=
  let traceId := randomUUID rt in
  state_set env (traceId +:+ ":seed_topic") (VString (seed_topic input)) ;;;
  failed <-
    try_catch
      (context_emit rt "topic.seeded" (DTopic traceId (seed_topic input)) ;;;
       ret false)
      (fun error => ret true) ;;
  if failed then
    ret (mkApiResponse 500 (ErrorBody "Failed to initiate research workflow."))
  else
    ret (mkApiResponse 200 (TraceId traceId)).

(** The earlier handler of the file, which only stores the topic. *)
Definition handler_storing (rt : Runtime) (env : Env) (input : ResearchStarterInput)
  : M ApiResponse :=
  let traceId := randomUUID rt in
  state_set env (traceId +:+ ":seed_topic") (VString (seed_topic input)) ;;;
  ret (mkApiResponse 200 (TraceId traceId)).

End ResearchStarter.

(** ** What the Exa searcher collects, as a function of the searches *)

Module ExaSearch.
Import ExaSearcher.

(** The line pushed on [errors] for a query that failed. *)
Definition error_line (query : string) (error : JS.Thrown) : string :=
  "Query: " +:+ JS.quote +:+ query +:+ JS.quote +:+ " - Error: "
  +:+ JS.message_or_String error.

(** The results that one search contributes. *)
Definition results_of (o : SearchOutcome) : list SearchResult.t :=
  match o with
  | SearchResponse (Some results) => results
  | _ => []
  end.

(** The error lines that one search contributes. *)
Definition errors_of (query : string) (o : SearchOutcome) : list string :=
  match o with
  | SearchThrows e => [error_line query e]
  | SearchResponse _ => []
  end.

(** What Exa does for the queries, when the first of them is answered
    by the [k]-th search. *)
Definition outcomes (env : Env) (k : nat) (queries : list string) : list SearchOutcome :=
  map (exa env) (seq k (length queries)).

(** The results of the queries, in the order of the queries, and the
    error lines of those that failed. *)
Definition results_from (env : Env) (k : nat) (queries : list string)
  : list SearchResult.t :=
  concat (map results_of (outcomes env k queries)).

Definition errors_from (env : Env) (k : nat) (queries : list string) : list string :=
  concat (zip_with errors_of queries (outcomes env k queries)).

(** The message of the error event when no result was found. *)
Definition no_results_message (errors : list string) : string :=
  match errors with
  | first :: _ => "Failed to get results for any query. First error: " +:+ first
  | [] => "No search results found for any query."
  end.

End ExaSearch.

(** ** What the question brainstormer does, as a function of the
       environment *)

Module Brainstorming.
Import QuestionBrainstormer.

(** What step 5 yields for a reply: the questions, or the message of
    the error it throws. *)
Definition questions_found (env : Env) (responseContent : string) : string + list string :=
  let no_array := inl "Could not find a JSON array of questions in the response." in
  let of_items items :=
    match strings_of items with
    | [] => inl "OpenAI response parsed, but no questions found in the array."
    | generatedQuestions => inr generatedQuestions
    end in
  match JSON_parse env responseContent with
  | inl e => inl (JS.message_or "Unknown parsing error" e)
  | inr (JArray items) => of_items items
  | inr JNull => inl "Cannot read properties of null (reading 'questions')"
  | inr (JObject members) =>
      match member "questions" members with
      | Some (JArray items) => of_items items
      | _ =>
          match first_array members with
          | Some items => of_items items
          | None => no_array
          end
      end
  | inr _ => no_array
  end.

(** The actions of the handler. *)
Definition expected_actions (env : Env) (payload : ContentExtractedPayload) (w : World)
  : list Action :=
  let traceId := traceId payload in
  let seedTopicKey := traceId +:+ ":seed_topic" in
  let contentKey := traceId +:+ ":extracted_content" in
  let failure message :=
    [Emit "workflow.error" (DError traceId config_name message)] in
  let thrown e := failure (JS.message_or "Unknown error in question-brainstormer" e) in
  if negb (JS.truthy_opt_string (process_env env !! "OPENAI_API_KEY")) then
    failure "Missing OpenAI API Key"
  else
    match store_fault env (store_ops w), store_fault env (S (store_ops w)) with
    | Some e, _ => thrown e
    | None, Some e => thrown e
    | None, None =>
        match store w !! seedTopicKey with
        | None =>
            failure ("Seed topic not found or invalid in state for key: " +:+ seedTopicKey)
        | Some _ =>
            match store w !! contentKey with
            | Some (VExtracted (_ :: _)) =>
                Completion ::
                match completion env (completions w) with
                | CompletionThrows e => thrown e
                | CompletionContent content =>
                    if JS.truthy_opt_string content then
                      match questions_found env (default EmptyString content) with
                      | inl message =>
                          failure ("Failed to parse OpenAI JSON response: " +:+ message)
                      | inr generatedQuestions =>
                          match store_fault env (S (S (store_ops w))) with
                          | Some e => thrown e
                          | None =>
                              [StateSet (traceId +:+ ":generated_questions")
                                 (VStrings generatedQuestions);
                               Emit "questions.generated"
                                 (DQuestions traceId generatedQuestions)]
                          end
                      end
                    else failure "OpenAI response content was empty."
                end
            | _ =>
                failure ("Extracted content not found or empty in state for key: "
                         +:+ contentKey)
            end
        end
    end.

End Brainstorming.

(** ** The question brainstormer as it was first written
       (the earlier question-brainstormer step)

    It reads its key from [context.secrets], and it tests the seed topic
    for truthiness, so that an empty seed topic is refused as well. *)

Module EarlierBrainstormer.
Import QuestionBrainstormer.

Definition handler (env : Env) (payload : ContentExtractedPayload) : M unit :=
  let traceId := traceId payload in
  if negb (JS.truthy_opt_string (secrets env !! "OPENAI_API_KEY")) then
    emit "workflow.error" (DError traceId config_name "Missing OpenAI API Key")
  else
    let seedTopicKey := traceId +:+ ":seed_topic" in
    let contentKey := traceId +:+ ":extracted_content" in
    try_catch
      (both <- state_get_both env seedTopicKey contentKey ;;
       if negb (from_option truthy_value false (fst both)) then
         throw_Error ("Seed topic not found in state for key: " +:+ seedTopicKey)
       else
         match snd both with
         | Some (VExtracted (_ :: _)) =>
             responseContent <- create_completion env ;;
             responseContent <-
               require_content responseContent "OpenAI response content was empty." ;;
             generatedQuestions <-
               try_catch (parse_questions env responseContent)
                 (fun parseError =>
                    throw_Error ("Failed to parse OpenAI JSON response: "
                                 +:+ JS.message_or "Unknown parsing error" parseError)) ;;
             state_set env (traceId +:+ ":generated_questions")
               (VStrings generatedQuestions) ;;;
             emit "questions.generated" (DQuestions traceId generatedQuestions)
         | _ =>
             throw_Error ("Extracted content not found or empty in state for key: "
                          +:+ contentKey)
         end)
      (fun error =>
         emit "workflow.error"
           (DError traceId config_name
              (JS.message_or "Unknown error in question-brainstormer" error))).

End EarlierBrainstormer.

(** ** Runs of the pipeline *)

(** Deliveries, one after the other, each with the environment it runs
    in; a handler that rejects leaves the world as it is at that point. *)
Fixpoint deliver (ds : list (Env * Delivery)) (w : World) : World :=
  match ds with
  | [] => w
  | (env, d) :: ds' => deliver ds' (run (stage env d) w)
  end.

(** ** Counting and comparing *)

(** The store of [w'] differs from that of [w] at most at [key]. *)
Definition same_elsewhere (key : string) (w w' : World) : Prop :=
  forall k, k <> key -> store w' !! k = store w !! k.

(** A computation that, from every world, leads to a world related to it
    by [P]. *)
Definition keeps {A} (P : World -> World -> Prop) (c : M A) : Prop :=
  forall w, P w (run c w).

Definition is_fetch (a : Action) : bool :=
  match a with Fetch _ _ => true | _ => false end.
Definition is_delay (a : Action) : bool :=
  match a with Delay _ => true | _ => false end.

(** The trace identifier of a delivery. *)
Definition traceId_of (d : Delivery) : string :=
  match d with
  | ToQueryGenerator payload => QueryGenerator.traceId payload
  | ToExaSearcher payload => ExaSearcher.traceId payload
  | ToContentExtractor payload => ContentExtractor.traceId payload
  | ToQuestionBrainstormer payload => QuestionBrainstormer.traceId payload
  | ToQuestionJudger payload => QuestionJudger.traceId payload
  | ToReportCompiler payload => ReportCompiler.traceId payload
  end.

(** The suffix of the key under which a stage stores its artifact. *)
Definition artifact_suffix (d : Delivery) : string :=
  match d with
  | ToQueryGenerator _ => ":generated_queries"
  | ToExaSearcher _ => ":exa_search_results"
  | ToContentExtractor _ => ":extracted_content"
  | ToQuestionBrainstormer _ => ":generated_questions"
  | ToQuestionJudger _ => ":evaluated_questions"
  | ToReportCompiler _ => ":final_report"
  end.

(** [typeof q === 'string'] on an item of a parsed array. *)
Definition is_string (j : json) : bool :=
  match j with
  | JString _ => true
  | _ => false
  end.

(** A character that the lazy run between two quotes can hold: neither
    a quote nor a line terminator. *)
Definition plain (c : ascii) : Prop :=
  JS.is_quote c = false /\ JS.is_line_terminator c = false.

(** The text neither begins nor ends with white space. *)
Definition trimmed (s : string) : Prop :=
  JS.trim_start s = s /\ JS.trim_end s = s.



(** ** More sample data *)

Module Fixture.

(** An extracted page with an excerpt. *)
Definition page_with_excerpt : ExtractedContent.t :=
  ExtractedContent.mk "https://example.org/a" "Page A" "The full text of page A."
    (Some "About A.") (Some 24%Z) None.

(** An entry for a URL that could not be fetched. *)
Definition failed_page : ExtractedContent.t :=
  ExtractedContent.mk "https://example.org/b" "Page B" EmptyString None None
    (Some "HTTP error! status: 404 for https://example.org/b").

(** The runtime of one call of the entry point. *)
Definition runtime : ResearchStarter.Runtime :=
  ResearchStarter.mkRuntime "3f2c" None.

Definition request : ResearchStarter.ResearchStarterInput :=
  ResearchStarter.mkInput "Quantum computing applications in drug discovery".

(** A search result. *)
Definition hit (url : string) : SearchResult.t :=
  SearchResult.mk url "A title" "id-1" None None (Some (9 # 10)).

(** An environment for the searcher: the key is there, the first search
    fails and every later one finds one result. *)
Definition searching : Env :=
  mkEnv (<["EXA_API_KEY" := "exa-sample"]> ∅) ∅
    (fun _ => None)
    (fun _ => CompletionContent None)
    (fun _ => FetchRejects (JS.ThrownError "FetchError" "connection refused"))
    (fun n => match n with
              | O => SearchThrows (JS.ThrownError "Error" "503")
              | _ => SearchResponse (Some [hit "https://example.org/a"])
              end)
    (fun _ => "2025-01-01T00:00:00.000Z")
    (fun _ => inl (JS.ThrownError "SyntaxError" "Unexpected end of JSON input"))
    (fun _ => inl (JS.ThrownError "SyntaxError" "Unexpected end of JSON input")).

(** An environment for the brainstormer: the key is there and the reply
    parses to an object whose second member is an array with two
    questions and a number. *)
Definition brainstorming : Env :=
  mkEnv (<["OPENAI_API_KEY" := "sk-sample"]> ∅) ∅
    (fun _ => None)
    (fun _ => CompletionContent (Some "a reply"))
    (fun _ => FetchRejects (JS.ThrownError "FetchError" "connection refused"))
    (fun _ => SearchResponse None)
    (fun _ => "2025-01-01T00:00:00.000Z")
    (fun _ => inr (JObject [("note", JString "two questions");
                            ("items", JArray [JString "Q1"; JNumber 3; JString "Q2"])]))
    (fun _ => inl (JS.ThrownError "SyntaxError" "Unexpected end of JSON input")).

(** A world in which trace [t5] has its seed topic and two extracted
    pages, and trace [t4] only its seed topic. *)
Definition researched : World :=
  mkWorld
    (<["t5:seed_topic" := VString "Quantum computing"]>
       (<["t5:extracted_content" := VExtracted [page_with_excerpt; failed_page]]>
          (<["t4:seed_topic" := VString "Protein folding"]> ∅)))
    [] [] 0 0 0 0 0.

(** An environment in which every page is served as HTML and has text,
    with white space around it. *)
Definition serving : Env :=
  mkEnv ∅ ∅
    (fun _ => None)
    (fun _ => CompletionContent None)
    (fun _ => FetchResponds true 200 (Some "text/html")
                (PageParsed
                   (Some (Article.mk (Some "Page A, as published")
                            (Some "  The text of page A.  ") None (Some 20%Z)))))
    (fun _ => SearchResponse None)
    (fun _ => "2025-01-01T00:00:00.000Z")
    (fun _ => inl (JS.ThrownError "SyntaxError" "Unexpected end of JSON input"))
    (fun _ => inl (JS.ThrownError "SyntaxError" "Unexpected end of JSON input")).

(** An environment in which the store is out of reach. *)
Definition storeless : Env :=
  mkEnv ∅ ∅
    (fun _ => Some (JS.ThrownError "Error" "connect ECONNREFUSED"))
    (fun _ => CompletionContent None)
    (fun _ => FetchRejects (JS.ThrownError "FetchError" "connection refused"))
    (fun _ => SearchResponse None)
    (fun _ => "2025-01-01T00:00:00.000Z")
    (fun _ => inl (JS.ThrownError "SyntaxError" "Unexpected end of JSON input"))
    (fun _ => inl (JS.ThrownError "SyntaxError" "Unexpected end of JSON input")).



Definition one_page : ContentExtractor.SearchResultsObtainedPayload :=
  ContentExtractor.mkPayload "t6" [Sample.page_a] [].

End Fixture.

(** * Properties *)

(** ** Lists, sorting and the heap *)

Lemma lookup_snoc_new {A} (h : list A) x : (h ++ [x]) !! length h = Some x.
Proof. by rewrite list_lookup_middle. Qed.

Lemma insert_snoc_new {A} (h : list A) x y : <[length h := y]> (h ++ [x]) = h ++ [y].
Proof. rewrite insert_app_r_alt; [|lia]. by rewrite Nat.sub_diag. Qed.

Lemma lookup_snoc_old {A} (h : list A) x a y : h !! a = Some y -> (h ++ [x]) !! a = Some y.
Proof. intros H. by apply lookup_app_l_Some. Qed.

Section SortFacts.
Context {A : Type} (key : A -> Q).

Let desc (a b : A) : Q := (key b - key a)%Q.
Let ge_key (a b : A) : Prop := (key b <= key a)%Q.
Let same_key (s : Q) (a : A) : bool := Qeq_bool (key a) s.

Lemma sort_insert_perm x l : Permutation (JS.sort_insert desc x l) (x :: l).
Proof.
  induction l as [|y l IH]; simpl; [reflexivity|].
  destruct (Qlt_le_dec 0 (desc x y)); [|reflexivity].
  rewrite IH. apply perm_swap.
Qed.

Lemma sort_perm l : Permutation (JS.sort desc l) l.
Proof.
  induction l as [|x l IH]; simpl; [reflexivity|].
  rewrite sort_insert_perm. by constructor.
Qed.

Lemma sort_insert_sorted x l :
  StronglySorted ge_key l -> StronglySorted ge_key (JS.sort_insert desc x l).
Proof.
  induction 1 as [|y l Hl IH Hy]; simpl.
  - repeat constructor.
  - destruct (Qlt_le_dec 0 (desc x y)) as [Hlt|Hle].
    + constructor; [exact IH|].
      apply Forall_forall. intros z Hz.
      rewrite sort_insert_perm in Hz.
      apply elem_of_cons in Hz as [->|Hz].
      * unfold ge_key, desc in *. lra.
      * rewrite Forall_forall in Hy. by apply Hy.
    + constructor; [by constructor|].
      constructor.
      * unfold ge_key, desc in *. lra.
      * eapply Forall_impl; [exact Hy|].
        intros z Hz. unfold ge_key, desc in *. simpl in Hz. lra.
Qed.

Lemma sort_sorted l : StronglySorted ge_key (JS.sort desc l).
Proof.
  induction l as [|x l IH]; simpl; [constructor|].
  by apply sort_insert_sorted.
Qed.

Lemma sort_insert_stable s x l :
  List.filter (same_key s) (JS.sort_insert desc x l) = List.filter (same_key s) (x :: l).
Proof.
  induction l as [|y l IH]; [reflexivity|].
  simpl JS.sort_insert.
  destruct (Qlt_le_dec 0 (desc x y)) as [Hlt|Hle]; [|reflexivity].
  simpl. simpl in IH. rewrite IH.
  destruct (same_key s x) eqn:Hx; [|reflexivity].
  destruct (same_key s y) eqn:Hy; [|reflexivity].
  exfalso. unfold same_key in *.
  apply Qeq_bool_iff in Hx, Hy. unfold desc in Hlt. lra.
Qed.

Lemma sort_stable s l :
  List.filter (same_key s) (JS.sort desc l) = List.filter (same_key s) l.
Proof.
  induction l as [|x l IH]; [reflexivity|].
  simpl JS.sort. rewrite sort_insert_stable. simpl. by rewrite IH.
Qed.



Lemma sorted_lookup l i j a b :
  StronglySorted ge_key l -> (i <= j)%nat ->
  l !! i = Some a -> l !! j = Some b -> (key b <= key a)%Q.
Proof.
  intros H. revert i j. induction H as [|x l Hl IH Hx]; intros i j Hij Hi Hj.
  - by rewrite lookup_nil in Hi.
  - destruct i as [|i], j as [|j]; simpl in *; simplify_eq.
    + lra.
    + rewrite Forall_forall in Hx. apply Hx. by eapply list_elem_of_lookup_2.
    + lia.
    + apply (IH i j); [lia|done..].
Qed.

(** Two arrangements that are both sorted and both keep the elements of
    equal key in the same order are the same arrangement: the result of a
    stable sort does not depend on the algorithm. *)
Lemma sorted_stable_unique l1 l2 :
  StronglySorted ge_key l1 -> StronglySorted ge_key l2 ->
  (forall s, List.filter (same_key s) l1 = List.filter (same_key s) l2) ->
  l1 = l2.
Proof.
  intros H1. revert l2. induction H1 as [|x l1 Hl1 IH Hx]; intros l2 H2 Hsame.
  - destruct l2 as [|y l2]; [done|].
    specialize (Hsame (key y)). cbn [List.filter] in Hsame.
    assert (same_key (key y) y = true) as Hy' by apply Qeq_bool_refl.
    by rewrite Hy' in Hsame.
  - destruct H2 as [|y l2 Hl2 Hy].
    { specialize (Hsame (key x)). cbn [List.filter] in Hsame.
      assert (same_key (key x) x = true) as Hx' by apply Qeq_bool_refl.
      by rewrite Hx' in Hsame. }
    assert (forall a l l', (forall s, List.filter (same_key s) (a :: l)
                                      = List.filter (same_key s) l') -> a ∈ l') as Hmem.
    { intros a l l' Hf. specialize (Hf (key a)). cbn [List.filter] in Hf.
      assert (same_key (key a) a = true) as Ha' by apply Qeq_bool_refl.
      rewrite Ha' in Hf.
      apply list_elem_of_In.
      eapply (proj1 (List.filter_In (same_key (key a)) a l')). rewrite <- Hf. by left. }
    assert (key x <= key y)%Q as Hxy.
    { pose proof (Hmem x l1 (y :: l2) Hsame) as Hin.
      apply elem_of_cons in Hin as [->|Hin]; [lra|].
      rewrite Forall_forall in Hy. by apply Hy. }
    assert (key y <= key x)%Q as Hyx.
    { pose proof (Hmem y l2 (x :: l1) (fun s => eq_sym (Hsame s))) as Hin.
      apply elem_of_cons in Hin as [->|Hin]; [lra|].
      rewrite Forall_forall in Hx. by apply Hx. }
    assert (x = y) as <-.
    { specialize (Hsame (key x)). cbn [List.filter] in Hsame.
      assert (same_key (key x) x = true) as Hx' by apply Qeq_bool_refl.
      assert (same_key (key x) y = true) as Hy' by (apply Qeq_bool_iff; lra).
      rewrite Hx', Hy' in Hsame. by injection Hsame. }
    f_equal. apply IH; [exact Hl2|].
    intros s. specialize (Hsame s). cbn [List.filter] in Hsame.
    destruct (same_key s x); [by injection Hsame|exact Hsame].
Qed.

(** So [JS.sort] is the result of any stable sort with this comparator. *)
Lemma sort_is_the_stable_sort l l' :
  StronglySorted ge_key l' ->
  (forall s, List.filter (same_key s) l' = List.filter (same_key s) l) ->
  l' = JS.sort desc l.
Proof.
  intros Hsorted Hstable. apply sorted_stable_unique; [exact Hsorted|apply sort_sorted|].
  intros s. by rewrite Hstable, sort_stable.
Qed.
End SortFacts.

(** ** The JavaScript functions on examples *)

Example includes_html : JS.includes "text/html; charset=utf-8" "text/html" = true.
Proof. reflexivity. Qed.

Example includes_json : JS.includes "application/json" "text/html" = false.
Proof. reflexivity. Qed.

Example trim_both_ends : JS.trim "  main text  " = "main text".
Proof. reflexivity. Qed.

Example trim_blank : JS.trim "   " = EmptyString.
Proof. reflexivity. Qed.

Example toFixed2_quarter : JS.toFixed2 (29 # 4) = 725 # 100.
Proof. reflexivity. Qed.

Example toFixed2_tie : JS.toFixed2 (1005 # 1000) = 101 # 100.
Proof. reflexivity. Qed.

Example toFixed2_third : JS.toFixed2 (1 # 3) = 33 # 100.
Proof. reflexivity. Qed.

Example quoted_two :
  JS.quoted_substrings
    ("Try " +:+ JS.quote +:+ "query A" +:+ JS.quote +:+ " and "
     +:+ JS.quote +:+ "query B" +:+ JS.quote +:+ ".")
  = ["query A"; "query B"].
Proof. reflexivity. Qed.

Example quoted_unclosed : JS.quoted_substrings (JS.quote +:+ "query A") = [].
Proof. reflexivity. Qed.

Example sort_by_score :
  JS.sort ReportCompiler.by_score_desc Sample.three_questions
  = [Sample.scored "Q2" 8; Sample.scored "Q1" 5; Sample.scored "Q3" 5].
Proof. reflexivity. Qed.

(** ** The report compiler *)

Module ReportCompilerFacts.
Import ReportCompiler.

Ltac exec :=
  cbv beta iota zeta delta
    [handler bind try_catch array_length array_filter array_sort
     array_slice0 array_elements now state_get_string state_get state_set
     emit ret not_an_array throw report_of run outcome actions
     store heap trace store_ops completions fetches searches clock_reads
     set_store set_heap log tick_store tick_clock fst snd].

(** The handler, run in a world where its array holds [qs]. *)
Lemma compiler_run env payload w qs :
  heap w !! evaluatedQuestions payload = Some qs ->
  handler env payload w =
    match store_fault env (store_ops w) with
    | Some e =>
        emit "workflow.error"
          (DError (traceId payload) config_name
             (JS.message_or "Unknown error during report compilation" e))
          (tick_store w)
    | None =>
        let w1 :=
          tick_clock
            (set_heap
               (fun h => h ++ [JS.sort by_score_desc (List.filter no_error qs); ranked qs])
               (tick_store w)) in
        match store_fault env (S (store_ops w)) with
        | Some e =>
            emit "workflow.error"
              (DError (traceId payload) config_name
                 (JS.message_or "Unknown error during report compilation" e))
              (tick_store w1)
        | None =>
            let rep := report_of env payload w qs in
            (Ok tt,
             log (Emit "report.generated" (DReport (traceId payload) rep))
               (log (StateSet (traceId payload +:+ ":final_report") (VReport rep))
                  (set_store (insert (traceId payload +:+ ":final_report") (VReport rep))
                     (tick_store w1))))
        end
    end.
Proof.
  intros Hqs. destruct w as [st h tr n1 n2 n3 n4 n5]. cbn in Hqs.
  exec. rewrite Hqs. exec.
  destruct (store_fault env n1) as [e|] eqn:F0; [reflexivity|].
  exec. rewrite Hqs. exec. rewrite lookup_snoc_new. exec.
  rewrite !insert_snoc_new, lookup_snoc_new. exec.
  replace (length (h ++ [List.filter no_error qs]))
    with (length (h ++ [JS.sort by_score_desc (List.filter no_error qs)]))
    by (by rewrite !length_app).
  rewrite lookup_snoc_new. exec.
  rewrite (lookup_snoc_old _ _ _ qs); [|by apply lookup_snoc_old].
  exec.
  destruct (store_fault env (S n1)) as [e|] eqn:F1;
    rewrite <- !app_assoc; reflexivity.
Qed.

(** What the handler adds to the trace: the report and its announcement,
    or one error event. *)
Lemma compiler_actions env payload w qs :
  heap w !! evaluatedQuestions payload = Some qs ->
  let rep := report_of env payload w qs in
  let key := traceId payload +:+ ":final_report" in
  (store_fault env (store_ops w) = None
   /\ store_fault env (S (store_ops w)) = None
   /\ actions (handler env payload) w
      = [StateSet key (VReport rep); Emit "report.generated" (DReport (traceId payload) rep)]
   /\ store (run (handler env payload) w) !! key = Some (VReport rep)
   /\ outcome (handler env payload) w = Ok tt)
  \/ ((store_fault env (store_ops w) <> None \/ store_fault env (S (store_ops w)) <> None)
      /\ exists msg,
          actions (handler env payload) w
          = [Emit "workflow.error" (DError (traceId payload) config_name msg)]).
Proof.
  intros Hqs rep key.
  unfold actions, run, outcome. rewrite (compiler_run _ _ _ _ Hqs).
  destruct (store_fault env (store_ops w)) as [e|] eqn:F0.
  - right. split; [by left|]. eexists. exec. by rewrite drop_app_length.
  - destruct (store_fault env (S (store_ops w))) as [e|] eqn:F1.
    + right. split; [by right|]. eexists. exec. by rewrite drop_app_length.
    + left. repeat split.
      * exec. by rewrite <- app_assoc, drop_app_length.
      * exec. by rewrite lookup_insert_eq.
Qed.

(** The arrays of the heap after the handler: those that were there are
    untouched. *)
Lemma compiler_heap env payload w qs :
  heap w !! evaluatedQuestions payload = Some qs ->
  heap (run (handler env payload) w) = heap w
  \/ heap (run (handler env payload) w)
     = heap w ++ [JS.sort by_score_desc (List.filter no_error qs); ranked qs].
Proof.
  intros Hqs. unfold run. rewrite (compiler_run _ _ _ _ Hqs).
  destruct (store_fault env (store_ops w)); [by left|].
  destruct (store_fault env (S (store_ops w))); by right.
Qed.






Lemma persisted_report env payload w qs rep :
  heap w !! evaluatedQuestions payload = Some qs ->
  StateSet (traceId payload +:+ ":final_report") (VReport rep)
    ∈ actions (handler env payload) w ->
  rep = report_of env payload w qs.
Proof.
  intros Hqs Hin.
  destruct (compiler_actions env payload w qs Hqs) as [(_ & _ & Hacts & _)|(_ & msg & Hacts)];
    rewrite Hacts in Hin.
  - apply elem_of_cons in Hin as [Heq|Hin]; [by simplify_eq|].
    apply list_elem_of_singleton in Hin. discriminate.
  - apply list_elem_of_singleton in Hin. discriminate.
Qed.

Lemma input_survives env payload w qs a l :
  heap w !! evaluatedQuestions payload = Some qs ->
  heap w !! a = Some l ->
  heap (run (handler env payload) w) !! a = Some l.
Proof.
  intros Hqs Ha.
  destruct (compiler_heap env payload w qs Hqs) as [->| ->]; [done|].
  by apply lookup_app_l_Some.
Qed.






(** C10.  The report compiler does not mutate its input: after the
    handler the array it was given, like every array that was in the
    heap, holds the same elements in the same order; the sort ran in
    place on the array that [filter] made. *)
Theorem input_array_untouched env payload w qs :
  heap w !! evaluatedQuestions payload = Some qs ->
  let w' := run (handler env payload) w in
  heap w' !! evaluatedQuestions payload = Some qs
  /\ (forall a l, heap w !! a = Some l -> heap w' !! a = Some l)
  /\ (store_fault env (store_ops w) = None ->
      heap w' !! length (heap w)
      = Some (JS.sort by_score_desc (List.filter no_error qs))).
Proof.
  intros Hqs w'. split; [by apply (input_survives env payload w qs)|].
  split; [intros a l; by apply (input_survives env payload w qs)|].
  intros F0. subst w'. unfold run. rewrite (compiler_run _ _ _ _ Hqs), F0.
  destruct (store_fault env (S (store_ops w))); simpl;
    by rewrite (list_lookup_middle (heap w) _ _ (length (heap w))).
Qed.

Lemma input_array_untouched_witness :
  heap (Sample.world [Sample.three_questions]) !! 0%nat = Some Sample.three_questions
  /\ heap (run (handler Sample.quiet (mkPayload "t1" 0)) (Sample.world [Sample.three_questions]))
       !! 1%nat
     = Some [Sample.scored "Q2" 8; Sample.scored "Q1" 5; Sample.scored "Q3" 5].
Proof.
  split; [reflexivity|].
  apply (input_array_untouched Sample.quiet (mkPayload "t1" 0)
           (Sample.world [Sample.three_questions]) Sample.three_questions eq_refl).
  reflexivity.
Defined.

End ReportCompilerFacts.

(** ** Running computations *)

Lemma bind_ok {A B} (c : M A) (k : A -> M B) w a w' :
  c w = (Ok a, w') -> bind c k w = k a w'.
Proof. unfold bind. by intros ->. Qed.

Lemma bind_throw {A B} (c : M A) (k : A -> M B) w e w' :
  c w = (Throw e, w') -> bind c k w = (Throw e, w').
Proof. unfold bind. by intros ->. Qed.

Lemma try_ok {A} (c : M A) h w a w' :
  c w = (Ok a, w') -> try_catch c h w = (Ok a, w').
Proof. unfold try_catch. by intros ->. Qed.

Lemma try_throw {A} (c : M A) h w e w' :
  c w = (Throw e, w') -> try_catch c h w = h e w'.
Proof. unfold try_catch. by intros ->. Qed.

Lemma quiet_refl w : quiet w w.
Proof. repeat split. exists []. by rewrite app_nil_r. Qed.

Lemma quiet_trans w1 w2 w3 : quiet w1 w2 -> quiet w2 w3 -> quiet w1 w3.
Proof.
  intros (Hs & Ho & a1 & Ht & Hf) (Hs' & Ho' & a2 & Ht' & Hf').
  split; [congruence|]. split; [congruence|].
  exists (a1 ++ a2). split; [by rewrite Ht', Ht, app_assoc|by apply Forall_app].
Qed.

Lemma quiet_log a w : silent a -> quiet w (log a w).
Proof. intros Ha. repeat split. exists [a]. split; [done|by constructor]. Qed.

Lemma quiet_actions {A} (c : M A) w :
  quiet w (run c w) -> Forall silent (actions c w).
Proof.
  intros (_ & _ & acts & Ht & Hf). unfold actions. by rewrite Ht, drop_app_length.
Qed.

(** ** The question judger *)

Module QuestionJudgerFacts.
Import QuestionJudger.

(** One turn of the loop pushes the entry that the completion leads
    to, whatever that completion did. *)
Lemma evaluate_run env acc question w :
  exists w',
    evaluate env acc question w
    = (Ok (acc ++ [entry_for env question (completion env (completions w))]), w')
    /\ quiet w w'
    /\ completions w' = S (completions w).
Proof.
  set (w1 := log Completion (tick_completion w)).
  assert (quiet w w1) as Hq1 by (by apply (quiet_log Completion (tick_completion w))).
  assert (quiet w (log (Delay 500) w1)) as Hq2
    by (eapply quiet_trans; [exact Hq1|by apply quiet_log]).
  unfold evaluate, entry_for.
  cbv beta iota delta
    [bind ret try_catch throw throw_Error create_completion require_content
     parse_evaluation delay].
  fold w1.
  destruct (completion env (completions w)) as [e|content].
  { by exists w1. }
  unfold JS.truthy_opt_string, default, lacks_score.
  destruct content as [[|ch s]|]; cbn; try (by exists w1).
  destruct (JSON_parse_evaluation env (String ch s)) as [e|r]; cbn.
  { by exists w1. }
  destruct (Evaluation.novelty r) as [n|], (Evaluation.feasibility r) as [f|],
    (Evaluation.impact r) as [i|], (Evaluation.crossDisciplinary r) as [c|];
    cbn; rewrite ?orb_true_r; try (by exists w1).
  destruct (JS.truthy_number (EvaluationCriterion.score n)),
    (JS.truthy_number (EvaluationCriterion.score f)),
    (JS.truthy_number (EvaluationCriterion.score i)),
    (JS.truthy_number (EvaluationCriterion.score c)); cbn;
    try (by exists w1).
  by exists (log (Delay 500) w1).
Qed.

(** The loop pushes one entry per question, in order, and the [i]-th
    entry is the one the [i]-th completion leads to. *)
Lemma judge_loop env questions acc w :
  exists w',
    for_of questions (evaluate env) acc w
    = (Ok (acc ++ entries_from env (completions w) questions), w')
    /\ quiet w w'
    /\ completions w' = (completions w + length questions)%nat.
Proof.
  revert acc w. induction questions as [|q questions IH]; intros acc w.
  - exists w. simpl. rewrite app_nil_r, Nat.add_0_r. split; [done|]. split; [apply quiet_refl|done].
  - destruct (evaluate_run env acc q w) as (w1 & Hrun & Hq & Hc).
    destruct (IH (acc ++ [entry_for env q (completion env (completions w))]) w1)
      as (w2 & Hloop & Hq' & Hc').
    exists w2. simpl. rewrite (bind_ok _ _ _ _ _ Hrun), Hloop, Hc, <- app_assoc. simpl.
    split; [done|]. split; [by eapply quiet_trans|]. lia.
Qed.






(** What the handler adds to the trace: after the silent actions of the
    loop, the artifact and then the event, or one error event. *)
Lemma judger_actions env payload w :
  let key := traceId payload +:+ ":evaluated_questions" in
  let evs := entries_from env (completions w) (questions payload) in
  exists pre, Forall silent pre
  /\ ((JS.truthy_opt_string (secrets env !! "OPENAI_API_KEY") = true
       /\ store_fault env (store_ops w) = None
       /\ store_fault env (S (store_ops w)) = None
       /\ actions (handler env payload) w
          = pre ++ [StateSet key (VEvaluated evs);
                    Emit "questions.judged" (DEvaluated (traceId payload) evs)]
       /\ store (run (handler env payload) w) !! key = Some (VEvaluated evs)
       /\ completions (run (handler env payload) w)
          = (completions w + length (questions payload))%nat)
      \/ ((JS.truthy_opt_string (secrets env !! "OPENAI_API_KEY") = false
           \/ store_fault env (store_ops w) <> None
           \/ store_fault env (S (store_ops w)) <> None)
          /\ exists message,
              actions (handler env payload) w
              = pre ++ [Emit "workflow.error"
                          (DError (traceId payload) config_name message)])).
Proof.
  intros key evs. unfold handler, actions, run.
  destruct (JS.truthy_opt_string (secrets env !! "OPENAI_API_KEY")) eqn:Hkey;
    cbv beta iota delta [negb].
  2:{ exists []. split; [constructor|]. right. split; [by left|].
      eexists. unfold emit, log. simpl. by rewrite drop_app_length. }
  unfold state_get_string, state_get.
  cbv beta iota delta [try_catch bind ret].
  destruct (store_fault env (store_ops w)) as [e|] eqn:F0.
  { exists []. split; [constructor|]. right. split; [right; by left|].
    eexists. unfold emit, log. simpl. by rewrite drop_app_length. }
  destruct (judge_loop env (questions payload) [] (tick_store w))
    as (w2 & Hloop & (Hstore & Hops & pre & Htrace & Hpre) & Hcount).
  simpl in Hstore, Hops, Htrace, Hcount.
  rewrite Hloop. simpl app. fold evs.
  exists pre. split; [exact Hpre|].
  unfold state_set. rewrite Hops. simpl store_ops.
  destruct (store_fault env (S (store_ops w))) as [e|] eqn:F1.
  - right. split; [right; by right|].
    eexists. unfold emit, log. simpl. rewrite Htrace. simpl.
    by rewrite <- app_assoc, drop_app_length.
  - left. repeat split.
    + unfold emit, log. simpl. rewrite Htrace. simpl.
      by rewrite <- !app_assoc, drop_app_length.
    + simpl. by rewrite lookup_insert_eq.
    + simpl. exact Hcount.
Qed.








End QuestionJudgerFacts.

(** ** The content extractor *)

Module ContentExtractorFacts.
Import ContentExtractor.

(** One attempt, by the verdict on what [fetch] did. *)
Lemma attempt_run env result attempt w :
  fetch_and_extract env result attempt w =
    let o := fetch env (fetches w) in
    let w1 := log (Fetch (Hit.url result) o) (tick_fetch w) in
    match verdict result o with
    | Extracted e | Rejected e => (Ok (true, e), w1)
    | Failed m =>
        (Ok (false, failed result m),
         if (attempt <=? MAX_RETRIES)%nat then log (Delay RETRY_DELAY) w1 else w1)
    end.
Proof.
  unfold fetch_and_extract, verdict.
  cbv beta iota zeta delta
    [bind ret try_catch throw throw_Error do_fetch read_article delay ok status
     content_type page].
  destruct (fetch env (fetches w)) as [e|ok status ctype page].
  { destruct (attempt <=? MAX_RETRIES)%nat; reflexivity. }
  destruct ok; cbn [negb].
  2:{ destruct (attempt <=? MAX_RETRIES)%nat; reflexivity. }
  destruct (JS.includes (default EmptyString ctype) "text/html"); cbn [negb]; [|reflexivity].
  destruct page as [e|[article|]].
  - destruct (attempt <=? MAX_RETRIES)%nat; reflexivity.
  - destruct (JS.truthy_opt_string (Article.textContent article)); [reflexivity|].
    destruct (attempt <=? MAX_RETRIES)%nat; reflexivity.
  - destruct (attempt <=? MAX_RETRIES)%nat; reflexivity.
Qed.

(** The loop needs no more than its three turns: more fuel changes
    nothing. *)
Lemma retry_loop_fuel env result fuel st w :
  (MAX_RETRIES + 1 - attempt st <= fuel)%nat ->
  retry_loop fuel env result st w
  = retry_loop (MAX_RETRIES + 1 - attempt st) env result st w.
Proof.
  revert st w. induction fuel as [|fuel IH]; intros st w Hfuel.
  - by replace (MAX_RETRIES + 1 - attempt st)%nat with 0%nat by lia.
  - destruct (decide (attempt st < MAX_RETRIES + 1)%nat) as [Hlt|Hge].
    + replace (MAX_RETRIES + 1 - attempt st)%nat
        with (S (MAX_RETRIES + 1 - S (attempt st))) by lia.
      cbn [retry_loop].
      destruct ((attempt st <? MAX_RETRIES + 1)%nat && negb (success st)); [|reflexivity].
      unfold bind.
      destruct (fetch_and_extract env result (S (attempt st)) w) as [[r|e] w'];
        [|reflexivity].
      apply (IH (mkRetry (fst r) (S (attempt st)) (Some (snd r))) w').
      cbn [attempt]. lia.
    + replace (MAX_RETRIES + 1 - attempt st)%nat with 0%nat by lia.
      cbn [retry_loop].
      assert ((attempt st <? MAX_RETRIES + 1)%nat = false) as ->
        by (apply Nat.ltb_ge; lia).
      reflexivity.
Qed.

Ltac settle :=
  cbv beta iota zeta delta
    [MAX_RETRIES RETRY_DELAY Nat.leb fst snd success attempt extracted negb
     fetches trace store store_ops log tick_fetch].

Ltac attempt_step :=
  match goal with
  | |- context [fetch_and_extract ?env ?r ?n ?w] => rewrite (attempt_run env r n w)
  end.

(** The work on one URL follows the retry discipline of [unit_result],
    on the outcomes of the next three calls of [fetch]. *)
Lemma extract_run env acc result w :
  JS.truthy_string (Hit.url result) = true ->
  let k := fetches w in
  let r := unit_result result (fetch env k) (fetch env (S k)) (fetch env (S (S k))) in
  exists w',
    extract env acc result w = (Ok (acc ++ [fst r]), w')
    /\ trace w' = trace w ++ snd r
    /\ store w' = store w
    /\ store_ops w' = store_ops w.
Proof.
  intros Hurl k r. subst r k. unfold extract, unit_result. rewrite Hurl.
  destruct w as [st h tr n1 n2 n3 n4 n5].
  cbn [negb retry_loop MAX_RETRIES Nat.add Nat.ltb Nat.leb success attempt andb].
  cbv beta delta [bind ret].
  attempt_step. settle.
  destruct (verdict result (fetch env n3)) as [e1|e1|m1]; settle;
    try (eexists; split; [reflexivity|]; by rewrite ?app_nil_r).
  attempt_step. settle.
  destruct (verdict result (fetch env (S n3))) as [e2|e2|m2]; settle;
    try (eexists; split; [reflexivity|]; settle; by rewrite <- ?app_assoc).
  attempt_step. settle.
  destruct (verdict result (fetch env (S (S n3)))) as [e3|e3|m3]; settle;
    (eexists; split; [reflexivity|]; settle; by rewrite <- ?app_assoc).
Qed.


(** The loop over the results never throws and works on every result
    that has a URL. *)
Lemma extract_loop env results acc w :
  exists l acts w',
    for_of results (extract env) acc w = (Ok (acc ++ l), w')
    /\ trace w' = trace w ++ acts
    /\ store w' = store w
    /\ store_ops w' = store_ops w
    /\ settled results l acts.
Proof.
  revert acc w. induction results as [|r results IH]; intros acc w.
  - exists [], [], w. rewrite !app_nil_r. repeat split. constructor.
  - destruct (JS.truthy_string (Hit.url r)) eqn:Hurl.
    + destruct (extract_run env acc r w Hurl) as (w1 & Hrun & Ht & Hs & Ho).
      destruct (IH (acc ++ [(unit_result r (fetch env (fetches w)) (fetch env (S (fetches w)))
                               (fetch env (S (S (fetches w))))).1]) w1)
        as (l & acts & w2 & Hloop & Ht' & Hs' & Ho' & Hsettled).
      eexists (_ :: l), (_ ++ acts), w2.
      simpl for_of. rewrite (bind_ok _ _ _ _ _ Hrun), Hloop, <- app_assoc.
      split; [reflexivity|]. split; [by rewrite Ht', Ht, app_assoc|].
      split; [congruence|]. split; [congruence|].
      by apply settled_unit.
    + destruct (IH acc w) as (l & acts & w2 & Hloop & Ht' & Hs' & Ho' & Hsettled).
      exists l, acts, w2. simpl for_of.
      assert (extract env acc r w = (Ok acc, w)) as Hskip
        by (unfold extract; by rewrite Hurl).
      rewrite (bind_ok _ _ _ _ _ Hskip), Hloop.
      repeat split; try done. by apply settled_skip.
Qed.

Lemma verdict_extracted result o e :
  verdict result o = Extracted e ->
  usable o = true /\ ExtractedContent.url e = Hit.url result
  /\ ExtractedContent.error e = None.
Proof.
  unfold verdict, usable. intros H.
  destruct o as [|[] status ctype [|[article|]]]; simplify_eq/=;
    destruct (JS.includes (default EmptyString ctype) "text/html"); simplify_eq/=.
  destruct (JS.truthy_opt_string (Article.textContent article)); by simplify_eq/=.
Qed.

Lemma verdict_rejected result o e :
  verdict result o = Rejected e ->
  usable o = false /\ exists m, e = failed result m.
Proof.
  unfold verdict, usable. intros H.
  destruct o as [|[] status ctype [|[article|]]]; simplify_eq/=;
    destruct (JS.includes (default EmptyString ctype) "text/html") eqn:Hhtml; simplify_eq/=;
    try (split; [reflexivity|by eexists]).
  destruct (JS.truthy_opt_string (Article.textContent article)); simplify_eq/=.
Qed.

Lemma verdict_failed result o m : verdict result o = Failed m -> usable o = false.
Proof.
  unfold verdict, usable. intros H.
  destruct o as [|[] status ctype [|[article|]]]; simplify_eq/=; try reflexivity;
    destruct (JS.includes (default EmptyString ctype) "text/html"); simplify_eq/=; try reflexivity.
  destruct (JS.truthy_opt_string (Article.textContent article)); by simplify_eq/=.
Qed.

(** The entry and the actions of the work on one URL. *)
Lemma unit_result_facts result o1 o2 o3 :
  let e := fst (unit_result result o1 o2 o3) in
  let acts := snd (unit_result result o1 o2 o3) in
  ExtractedContent.url e = Hit.url result
  /\ text_or_error e
  /\ ((if has_error e then 1 else 0) + usable_fetches acts = 1)%nat
  /\ Fetch (Hit.url result) o1 ∈ acts
  /\ Forall silent acts.
Proof.
  intros e acts. subst e acts.
  unfold unit_result, usable_fetches.
  destruct (verdict result o1) as [e1|e1|m1] eqn:V1;
    [apply verdict_extracted in V1 as (U1 & Hurl & Herr)
    |apply verdict_rejected in V1 as (U1 & m & ->)
    |apply verdict_failed in V1 as U1;
     destruct (verdict result o2) as [e2|e2|m2] eqn:V2;
     [apply verdict_extracted in V2 as (U2 & Hurl & Herr)
     |apply verdict_rejected in V2 as (U2 & m & ->)
     |apply verdict_failed in V2 as U2;
      destruct (verdict result o3) as [e3|e3|m3] eqn:V3;
      [apply verdict_extracted in V3 as (U3 & Hurl & Herr)
      |apply verdict_rejected in V3 as (U3 & m & ->)
      |apply verdict_failed in V3 as U3]]];
    cbn [fst snd List.filter]; rewrite ?U1, ?U2, ?U3; cbn [length];
    (split; [done|]); unfold text_or_error, has_error; rewrite ?Herr;
    cbn [ExtractedContent.error ExtractedContent.content failed];
    (split; [(by left) || (by right)|]); (split; [done|]); (split; [by left|]);
    repeat (constructor; [exact I|]); constructor.
Qed.

Lemma usable_fetches_app a b :
  usable_fetches (a ++ b) = (usable_fetches a + usable_fetches b)%nat.
Proof. unfold usable_fetches. by rewrite List.filter_app, length_app. Qed.

(** What a settled batch looks like. *)
Lemma settled_batch results l acts :
  settled results l acts ->
  batch_as_extracted results acts l /\ Forall silent acts.
Proof.
  induction 1 as [|r rs l acts Hurl _ ((Hurls & Hshape & Hcount & Hfetched) & Hsilent)
                  |r rs l acts o1 o2 o3 Hurl _ ((Hurls & Hshape & Hcount & Hfetched) & Hsilent)].
  - repeat split; try done. intros r Hr. by apply elem_of_nil in Hr.
  - unfold batch_as_extracted, with_url in *. cbn [List.filter]. rewrite Hurl.
    by repeat split.
  - destruct (unit_result_facts r o1 o2 o3) as (Hu & Hs & Hc & Hf & Hq).
    unfold batch_as_extracted, with_url in *. cbn [List.filter]. rewrite Hurl.
    split; [|by apply Forall_app]. split; [|split; [|split]].
    + cbn [map]. by rewrite Hu, Hurls.
    + by constructor.
    + rewrite usable_fetches_app.
      destruct (has_error (unit_result r o1 o2 o3).1); cbn [length]; lia.
    + intros r' Hr'. apply elem_of_cons in Hr' as [->|Hr'].
      * exists o1. apply elem_of_app. by left.
      * destruct (Hfetched r' Hr') as (o & Ho). exists o. apply elem_of_app. by right.
Qed.


(** What the handler does: the work on the batch, then the artifact and
    the event, unless the store refuses the write. *)
Lemma extractor_actions env payload w :
  let key := traceId payload +:+ ":extracted_content" in
  exists l acts,
    settled (results payload) l acts
    /\ ((store_fault env (store_ops w) = None
         /\ actions (handler env payload) w
            = acts ++ [StateSet key (VExtracted l);
                       Emit "content.extracted" (DExtracted (traceId payload) l)]
         /\ store (run (handler env payload) w) !! key = Some (VExtracted l)
         /\ outcome (handler env payload) w = Ok tt)
        \/ (exists e, store_fault env (store_ops w) = Some e
             /\ actions (handler env payload) w = acts
             /\ outcome (handler env payload) w = Throw e)).
Proof.
  intros key.
  destruct (extract_loop env (results payload) [] w)
    as (l & acts & w1 & Hloop & Ht & Hs & Ho & Hsettled).
  exists l, acts. split; [exact Hsettled|].
  unfold handler, actions, run, outcome.
  rewrite (bind_ok _ _ _ _ _ Hloop). simpl app.
  unfold bind, state_set, emit. rewrite Ho.
  destruct (store_fault env (store_ops w)) as [e|] eqn:F0.
  - right. exists e. simpl. rewrite Ht. by rewrite drop_app_length.
  - left. simpl. rewrite Ht. repeat split.
    + by rewrite <- !app_assoc, drop_app_length.
    + by rewrite lookup_insert_eq.
Qed.





(** C5, as the handler has it.  For every URL that the content extractor
    works on: a response whose content type is not HTML is recorded at
    once as the error of the URL, without a retry; every other failure of
    an attempt (a rejected or timed-out fetch, a status that is not 2xx,
    a page that cannot be read or parsed, a page without usable text) is
    followed by a delay of 1 second and a new attempt, up to 3 attempts
    in all, after which the last error is recorded for the URL; the loop
    ends by its own condition. *)
Theorem retry_discipline env acc result w :
  JS.truthy_string (Hit.url result) = true ->
  let k := fetches w in
  let r := unit_result result (fetch env k) (fetch env (S k)) (fetch env (S (S k))) in
  outcome (extract env acc result) w = Ok (acc ++ [fst r])
  /\ actions (extract env acc result) w = snd r
  /\ (forall fuel, (MAX_RETRIES + 1 <= fuel)%nat ->
      retry_loop fuel env result (mkRetry false 0 None) w
      = retry_loop (MAX_RETRIES + 1) env result (mkRetry false 0 None) w)
  /\ (forall status ctype page,
        JS.includes (default EmptyString ctype) "text/html" = false ->
        verdict result (FetchResponds true status ctype page)
        = Rejected (failed result ("Skipped non-HTML content type: " +:+ default EmptyString ctype)))
  /\ (forall e, verdict result (FetchRejects e) = Failed (error_message e))
  /\ (forall status ctype page,
        exists m, verdict result (FetchResponds false status ctype page) = Failed m)
  /\ (forall status ctype,
        JS.includes (default EmptyString ctype) "text/html" = true ->
        exists m,
          verdict result (FetchResponds true status ctype (PageParsed None)) = Failed m).
Proof.
  intros Hurl k r.
  destruct (extract_run env acc result w Hurl) as (w' & Hrun & Ht & _).
  split; [unfold outcome; by rewrite Hrun|].
  split; [unfold actions, run; rewrite Hrun; simpl; by rewrite Ht, drop_app_length|].
  split.
  { intros fuel Hfuel. rewrite (retry_loop_fuel env result fuel); [done|].
    cbn [attempt]. lia. }
  split; [intros status ctype page Hhtml; unfold verdict; simpl; by rewrite Hhtml|].
  split; [done|].
  split; [intros; eexists; reflexivity|].
  intros status ctype Hhtml. eexists. unfold verdict. simpl. by rewrite Hhtml.
Qed.

Lemma retry_discipline_witness :
  JS.truthy_string (Hit.url Sample.page_a) = true
  /\ actions (extract Sample.quiet [] Sample.page_a) (Sample.world [])
     = [Fetch "https://example.org/a" (fetch Sample.quiet 0); Delay 1000;
        Fetch "https://example.org/a" (fetch Sample.quiet 1); Delay 1000;
        Fetch "https://example.org/a" (fetch Sample.quiet 2)].
Proof.
  split; [reflexivity|].
  apply (retry_discipline Sample.quiet [] Sample.page_a (Sample.world []) eq_refl).
Defined.

(** C5, as the specification states it, fails: a page that is fetched
    and served as HTML but yields no text is not recorded at once; the
    URL is fetched three times, one second apart. *)
Lemma page_without_text_is_retried :
  actions (extract Sample.unreadable [] Sample.page_a) (Sample.world [])
  = [Fetch "https://example.org/a" Sample.no_text; Delay 1000;
     Fetch "https://example.org/a" Sample.no_text; Delay 1000;
     Fetch "https://example.org/a" Sample.no_text]
  /\ ~ unit_as_specified Sample.page_a (fetch Sample.unreadable 0)
        (actions (extract Sample.unreadable [] Sample.page_a) (Sample.world [])).
Proof.
  split; [reflexivity|].
  intros H. specialize (H eq_refl). vm_compute in H. discriminate.
Qed.

End ContentExtractorFacts.

(** ** The query generator *)

Module QueryGeneratorFacts.
Import QueryGenerator.

(** The parsing with its fallback. *)
Lemma find_queries_run env rawQueries w :
  try_catch (parse_queries env rawQueries) (fun _ => extract_queries rawQueries) w =
    match parsed_queries env rawQueries with
    | Some generatedQueries => (Ok generatedQueries, w)
    | None =>
        match JS.quoted_substrings rawQueries with
        | [] =>
            (Throw (JS.ThrownError "Error"
                      ("Could not parse or extract queries from OpenAI response: "
                       +:+ rawQueries)), w)
        | generatedQueries => (Ok generatedQueries, w)
        end
    end.
Proof.
  unfold parse_queries, parsed_queries, extract_queries, try_catch.
  destruct (JSON_parse env rawQueries) as [e|[| | | |items|members]];
    cbv beta iota delta [throw throw_Error null_property ret];
    try (destruct (JS.quoted_substrings rawQueries); reflexivity).
  destruct (member "queries" members) as [[| | | |items|]|];
    cbv beta iota delta [throw throw_Error null_property ret];
    try (destruct (JS.quoted_substrings rawQueries); reflexivity).
Qed.

(** The handler does what [expected_actions] says, and when it announces
    queries they are in the store. *)
Lemma generator_run env payload w :
  actions (handler env payload) w = expected_actions env payload w
  /\ (forall data,
        Emit "queries.generated" data ∈ expected_actions env payload w ->
        exists q qs,
          data = DQueries (traceId payload) (q :: qs)
          /\ store (run (handler env payload) w) !! (traceId payload +:+ ":generated_queries")
             = Some (VStrings (q :: qs))).
Proof.
  unfold handler, expected_actions, actions, run.
  destruct (JS.truthy_opt_string (process_env env !! "OPENAI_API_KEY"));
    cbv beta iota delta [negb].
  2:{ split; [unfold emit, log; simpl; by rewrite drop_app_length|].
      intros data Hin. apply list_elem_of_singleton in Hin. discriminate. }
  destruct w as [st h tr n1 n2 n3 n4 n5].
  cbv beta iota zeta delta [try_catch bind create_completion completions log tick_completion
    trace store heap store_ops fetches searches clock_reads].
  destruct (completion env n2) as [e|content].
  { split; [unfold emit, log; simpl; by rewrite <- app_assoc, drop_app_length|].
    intros data Hin. apply elem_of_cons in Hin as [?|Hin]; [discriminate|].
    apply list_elem_of_singleton in Hin. discriminate. }
  assert (forall m data,
            Emit "queries.generated" data
              ∈ [Completion; Emit "workflow.error" (DError (traceId payload) config_name m)]
            -> False) as Hnot.
  { intros m data Hin. apply elem_of_cons in Hin as [?|Hin]; [discriminate|].
    apply list_elem_of_singleton in Hin. discriminate. }
  unfold JS.truthy_opt_string, require_content.
  destruct content as [rawQueries|]; [destruct (JS.truthy_string rawQueries) eqn:Hraw|].
  2,3: (split; [unfold emit, log, throw_Error, throw; simpl;
                by rewrite <- app_assoc, drop_app_length
               |intros data Hin; by destruct (Hnot _ _ Hin)]).
  cbv beta iota delta [ret default from_option id].
  pose proof (find_queries_run env rawQueries) as Hfind.
  unfold try_catch in Hfind. rewrite Hfind. clear Hfind.
  unfold queries_found.
  destruct (parsed_queries env rawQueries) as [[|q qs]|].
  - split; [unfold emit, log, throw_Error, throw; simpl;
            by rewrite <- app_assoc, drop_app_length
           |intros data Hin; by destruct (Hnot _ _ Hin)].
  - unfold state_set. cbv beta iota zeta delta [store_ops].
    destruct (store_fault env n1) as [e|].
    + split; [unfold emit, log; simpl; by rewrite <- app_assoc, drop_app_length
             |intros data Hin; by destruct (Hnot _ _ Hin)].
    + split; [unfold emit, log; simpl; by rewrite <- !app_assoc, drop_app_length|].
      intros data Hin. exists q, qs.
      apply elem_of_cons in Hin as [?|Hin]; [discriminate|].
      apply elem_of_cons in Hin as [?|Hin]; [discriminate|].
      apply list_elem_of_singleton in Hin. simplify_eq. split; [done|].
      simpl. by rewrite lookup_insert_eq.
  - destruct (JS.quoted_substrings rawQueries) as [|q qs].
    + split; [unfold emit, log, throw_Error, throw; simpl;
              by rewrite <- app_assoc, drop_app_length
             |intros data Hin; by destruct (Hnot _ _ Hin)].
    + unfold state_set. cbv beta iota zeta delta [store_ops].
      destruct (store_fault env n1) as [e|].
      * split; [unfold emit, log; simpl; by rewrite <- app_assoc, drop_app_length
               |intros data Hin; by destruct (Hnot _ _ Hin)].
      * split; [unfold emit, log; simpl; by rewrite <- !app_assoc, drop_app_length|].
        intros data Hin. exists q, qs.
        apply elem_of_cons in Hin as [?|Hin]; [discriminate|].
        apply elem_of_cons in Hin as [?|Hin]; [discriminate|].
        apply list_elem_of_singleton in Hin. simplify_eq. split; [done|].
        simpl. by rewrite lookup_insert_eq.
Qed.

(** C9.  Whenever the query generator emits [queries.generated], the
    [generated_queries] artifact in the store is the non-empty list of
    strings it announces; and when no query is found in the completion
    (by the strict parse, at the root or under [queries], or else among
    the quoted substrings) it emits [workflow.error] and not
    [queries.generated].  When queries are found and the store works,
    [queries.generated] is emitted. *)
Theorem queries_nonempty_or_error env payload w :
  let key := traceId payload +:+ ":generated_queries" in
  let acts := actions (handler env payload) w in
  (forall data,
     Emit "queries.generated" data ∈ acts ->
     exists q qs,
       data = DQueries (traceId payload) (q :: qs)
       /\ store (run (handler env payload) w) !! key = Some (VStrings (q :: qs)))
  /\ (forall content,
        JS.truthy_opt_string (process_env env !! "OPENAI_API_KEY") = true ->
        completion env (completions w) = CompletionContent (Some content) ->
        JS.truthy_string content = true ->
        match queries_found env content with
        | [] =>
            (exists message,
               Emit "workflow.error" (DError (traceId payload) config_name message) ∈ acts)
            /\ (forall data, Emit "queries.generated" data ∉ acts)
        | q :: qs =>
            store_fault env (store_ops w) = None ->
            acts = [Completion; StateSet key (VStrings (q :: qs));
                    Emit "queries.generated" (DQueries (traceId payload) (q :: qs))]
        end).
Proof.
  intros key acts. subst acts.
  destruct (generator_run env payload w) as [-> Hstored].
  split.
  - intros data Hin. by apply Hstored.
  - intros content Hkey Hcompletion Hcontent.
    unfold expected_actions. rewrite Hkey, Hcompletion. simpl.
    rewrite Hcontent.
    destruct (queries_found env content) as [|q qs].
    + split.
      * eexists. right. by left.
      * intros data Hin. apply elem_of_cons in Hin as [?|Hin]; [discriminate|].
        apply list_elem_of_singleton in Hin. discriminate.
    + by intros ->.
Qed.

Lemma queries_nonempty_or_error_witness :
  actions (handler (Sample.replying Sample.two_quoted) Sample.seeded) (Sample.world [])
  = [Completion;
     StateSet "t9:generated_queries" (VStrings ["query A"; "query B"]);
     Emit "queries.generated" (DQueries "t9" ["query A"; "query B"])].
Proof.
  destruct (queries_nonempty_or_error (Sample.replying Sample.two_quoted) Sample.seeded
              (Sample.world [])) as [_ H].
  apply (H Sample.two_quoted); reflexivity.
Defined.

End QueryGeneratorFacts.

(** ** Persist before emit *)

Module PipelineFacts.

Lemma silent_no_emit pre i topic data :
  Forall silent pre -> pre !! i = Some (Emit topic data) -> False.
Proof.
  intros Hpre Hi. rewrite Forall_forall in Hpre.
  apply (Hpre (Emit topic data)). by eapply list_elem_of_lookup_2.
Qed.

(** Each shape of a stage's trace has the artifact written before the
    event for the next stage. *)
Lemma stage_trace_persists key topic acts :
  topic <> "workflow.error" ->
  stage_trace key topic acts ->
  persist_before_emit key topic acts.
Proof.
  intros Htopic (pre & Hpre & [->|[(d & ->)|(v & d & ->)]]) i data Hi.
  - destruct (silent_no_emit _ _ _ _ Hpre Hi).
  - apply lookup_app_Some in Hi as [Hi|[_ Hi]].
    + destruct (silent_no_emit _ _ _ _ Hpre Hi).
    + destruct (i - length pre)%nat as [|[|n]]; simplify_eq/=.
  - apply lookup_app_Some in Hi as [Hi|[Hlen Hi]].
    + destruct (silent_no_emit _ _ _ _ Hpre Hi).
    + destruct (i - length pre)%nat as [|[|n]] eqn:Hn; simplify_eq/=.
      exists (length pre), v. split; [lia|].
      by rewrite list_lookup_middle.
Qed.

Lemma stage_trace_error key topic data :
  stage_trace key topic [Emit "workflow.error" data].
Proof. exists []. split; [constructor|]. right. left. by exists data. Qed.

(** The query generator. *)
Lemma generator_trace env payload w :
  stage_trace (QueryGenerator.traceId payload +:+ ":generated_queries") "queries.generated"
    (actions (QueryGenerator.handler env payload) w).
Proof.
  destruct (QueryGeneratorFacts.generator_run env payload w) as [-> _].
  unfold QueryGenerator.expected_actions.
  destruct (negb _); [apply stage_trace_error|].
  exists [Completion]. split; [by repeat constructor|].
  destruct (completion env (completions w)) as [e|content];
    [right; left; by eexists|].
  destruct (JS.truthy_opt_string content); [|right; left; by eexists].
  destruct (QueryGenerator.queries_found env _) as [|q qs]; [right; left; by eexists|].
  destruct (store_fault env (store_ops w)); [right; left; by eexists|].
  right. right. by do 2 eexists.
Qed.

(** The Exa searcher: its loop only searches. *)
Lemma search_loop env queries found w :
  exists found' w',
    for_of queries (ExaSearcher.search env) found w = (Ok found', w') /\ quiet w w'.
Proof.
  revert found w. induction queries as [|q queries IH]; intros found w.
  - exists found, w. split; [done|apply quiet_refl].
  - assert (exists found1 w1,
              ExaSearcher.search env found q w = (Ok found1, w1) /\ quiet w w1)
      as (found1 & w1 & Hsearch & Hq).
    { unfold ExaSearcher.search, try_catch, bind, exa_search, ret.
      set (w1 := log (Search q) (tick_search w)).
      assert (quiet w w1) as Hq by (by apply (quiet_log (Search q) (tick_search w))).
      destruct (exa env (searches w)) as [e|[[|r rs]|]]; by do 2 eexists. }
    destruct (IH found1 w1) as (found2 & w2 & Hloop & Hq').
    exists found2, w2. simpl. rewrite (bind_ok _ _ _ _ _ Hsearch).
    split; [done|by eapply quiet_trans].
Qed.

Lemma searcher_trace env payload w :
  stage_trace (ExaSearcher.traceId payload +:+ ":exa_search_results")
    "search_results.obtained"
    (actions (ExaSearcher.handler env payload) w).
Proof.
  unfold ExaSearcher.handler, actions, run.
  destruct (negb _).
  { unfold emit, log. simpl. rewrite drop_app_length. apply stage_trace_error. }
  destruct (search_loop env (ExaSearcher.queries payload) (ExaSearcher.mkFound [] []) w)
    as (found & w1 & Hloop & (Hs & Ho & pre & Ht & Hpre)).
  rewrite (bind_ok _ _ _ _ _ Hloop).
  exists pre. split; [exact Hpre|].
  destruct (ExaSearcher.allResults found) as [|r rs].
  - right. left. eexists. unfold emit, log. simpl.
    by rewrite Ht, <- app_assoc, drop_app_length.
  - unfold bind, state_set, emit, log.
    destruct (store_fault env (store_ops w1)); simpl.
    + left. by rewrite Ht, drop_app_length.
    + right. right. do 2 eexists.
      by rewrite Ht, <- !app_assoc, drop_app_length.
Qed.

(** The content extractor. *)
Lemma extractor_trace env payload w :
  stage_trace (ContentExtractor.traceId payload +:+ ":extracted_content")
    "content.extracted"
    (actions (ContentExtractor.handler env payload) w).
Proof.
  destruct (ContentExtractorFacts.extractor_actions env payload w)
    as (l & acts & Hsettled & [(_ & -> & _)|(e & _ & -> & _)]);
    destruct (ContentExtractorFacts.settled_batch _ _ _ Hsettled) as [_ Hsilent];
    exists acts; (split; [exact Hsilent|]).
  - right. right. by do 2 eexists.
  - by left.
Qed.

(** The question judger. *)
Lemma judger_trace env payload w :
  stage_trace (QuestionJudger.traceId payload +:+ ":evaluated_questions")
    "questions.judged"
    (actions (QuestionJudger.handler env payload) w).
Proof.
  destruct (QuestionJudgerFacts.judger_actions env payload w)
    as (pre & Hpre & [(_ & _ & _ & -> & _)|(_ & message & ->)]);
    exists pre; (split; [exact Hpre|]).
  - right. right. by do 2 eexists.
  - right. left. by eexists.
Qed.

(** The report compiler, also when its array is not in the heap. *)
Lemma compiler_trace env payload w :
  stage_trace (ReportCompiler.traceId payload +:+ ":final_report") "report.generated"
    (actions (ReportCompiler.handler env payload) w).
Proof.
  destruct (heap w !! ReportCompiler.evaluatedQuestions payload) as [qs|] eqn:Hqs.
  - destruct (ReportCompilerFacts.compiler_actions env payload w qs Hqs)
      as [(_ & _ & -> & _)|(_ & msg & ->)]; exists []; (split; [constructor|]).
    + right. right. by do 2 eexists.
    + right. left. by eexists.
  - exists []. split; [constructor|]. left.
    unfold actions, run, ReportCompiler.handler, bind, array_length. rewrite Hqs.
    simpl. by rewrite drop_all.
Qed.

(** The question brainstormer: parsing the reply touches nothing. *)
Lemma parse_questions_pure env responseContent w :
  exists r, QuestionBrainstormer.parse_questions env responseContent w = (r, w).
Proof.
  unfold QuestionBrainstormer.parse_questions.
  cbv beta iota delta [bind ret throw throw_Error null_property].
  destruct (JSON_parse env responseContent) as [e|[| | | |items|members]];
    try (eexists; reflexivity).
  - destruct (strings_of items); eexists; reflexivity.
  - destruct (member "questions" members) as [[| | | |items|]|];
      try (destruct (first_array members) as [items|];
           [destruct (strings_of items)|]; eexists; reflexivity).
    destruct (strings_of items); eexists; reflexivity.
Qed.

Lemma brainstormer_trace env payload w :
  stage_trace (QuestionBrainstormer.traceId payload +:+ ":generated_questions")
    "questions.generated"
    (actions (QuestionBrainstormer.handler env payload) w).
Proof.
  unfold QuestionBrainstormer.handler, actions, run.
  destruct (negb _).
  { unfold emit, log. simpl. rewrite drop_app_length. apply stage_trace_error. }
  destruct w as [st h tr n1 n2 n3 n4 n5].
  assert (forall m n1' n2',
            stage_trace
              (QuestionBrainstormer.traceId payload +:+ ":generated_questions")
              "questions.generated"
              (drop (length tr)
                 (trace (snd (emit "workflow.error"
                                (DError (QuestionBrainstormer.traceId payload)
                                   QuestionBrainstormer.config_name m)
                                (mkWorld st h tr n1' n2' n3 n4 n5)))))) as Hfail0.
  { intros. unfold emit, log. simpl. rewrite drop_app_length. apply stage_trace_error. }
  assert (forall m n1' n2',
            stage_trace
              (QuestionBrainstormer.traceId payload +:+ ":generated_questions")
              "questions.generated"
              (drop (length tr)
                 (trace (snd (emit "workflow.error"
                                (DError (QuestionBrainstormer.traceId payload)
                                   QuestionBrainstormer.config_name m)
                                (mkWorld st h (tr ++ [Completion]) n1' n2' n3 n4 n5))))))
    as Hfail1.
  { intros. unfold emit, log. simpl. rewrite <- app_assoc, drop_app_length.
    exists [Completion]. split; [by repeat constructor|]. right. left. by eexists. }
  unfold try_catch at 1. unfold bind at 1.
  unfold QuestionBrainstormer.state_get_both.
  cbv beta iota zeta delta [store_ops tick_store store heap trace completions fetches
                             searches clock_reads].
  destruct (store_fault env n1) as [e|]; [apply Hfail0|].
  destruct (store_fault env (S n1)) as [e|]; [apply Hfail0|].
  cbv beta iota delta [fst snd].
  destruct (st !! _) as [seed|]; [|apply Hfail0].
  destruct (st !! _) as [[| | |[|c cs]| |]|]; try apply Hfail0.
  unfold bind at 1. unfold create_completion.
  cbv beta iota zeta delta [store_ops tick_completion log store heap trace completions
                             fetches searches clock_reads].
  destruct (completion env n2) as [e|content]; [apply Hfail1|].
  unfold bind at 1. unfold require_content.
  destruct content as [content|]; [destruct (JS.truthy_string content)|];
    cbv beta iota delta [ret throw_Error throw]; try apply Hfail1.
  unfold bind at 1.
  unfold try_catch at 1.
  match goal with
  | |- context [QuestionBrainstormer.parse_questions env content ?w] =>
      destruct (parse_questions_pure env content w) as (r & ->)
  end.
  destruct r as [questions|e]; cbv beta iota delta [throw_Error throw];
    [|apply Hfail1].
  unfold bind, state_set.
  cbv beta iota zeta delta [store_ops].
  destruct (store_fault env (S (S n1))) as [e|]; [apply Hfail1|].
  unfold emit, log, set_store, tick_store. simpl.
  rewrite <- !app_assoc, drop_app_length.
  exists [Completion]. split; [by repeat constructor|]. right. right. by do 2 eexists.
Qed.

(** C7.  For every stage of the pipeline (query generation, search,
    content extraction, brainstorming, judging, compilation) and in every
    execution, the event that hands over to the next stage is emitted
    only after the stage has written its artifact to the trace state
    store. *)
Theorem persist_before_emit_in_every_stage env d w :
  persist_before_emit (artifact_key d) (successor d) (actions (stage env d) w).
Proof.
  destruct d as [p|p|p|p|p|p]; (apply stage_trace_persists; [discriminate|]); simpl.
  - apply generator_trace.
  - apply searcher_trace.
  - apply extractor_trace.
  - apply brainstormer_trace.
  - apply judger_trace.
  - apply compiler_trace.
Qed.

Lemma persist_before_emit_in_every_stage_witness :
  actions (stage Sample.quiet (ToReportCompiler (ReportCompiler.mkPayload "t1" 0)))
    (Sample.world [Sample.three_questions]) !! 1%nat
  = Some (Emit "report.generated"
            (DReport "t1"
               (ReportCompiler.report_of Sample.quiet (ReportCompiler.mkPayload "t1" 0)
                  (Sample.world [Sample.three_questions]) Sample.three_questions)))
  /\ exists j v,
      (j < 1)%nat
      /\ actions (stage Sample.quiet (ToReportCompiler (ReportCompiler.mkPayload "t1" 0)))
           (Sample.world [Sample.three_questions]) !! j
         = Some (StateSet "t1:final_report" v).
Proof.
  split; [reflexivity|].
  apply (persist_before_emit_in_every_stage Sample.quiet
           (ToReportCompiler (ReportCompiler.mkPayload "t1" 0))
           (Sample.world [Sample.three_questions]) 1%nat _ eq_refl).
Defined.

End PipelineFacts.

(** ** The report endpoint *)

Module ReportRetrieverFacts.
Import ReportRetriever.

(** C8, as the handler has it.  For every non-empty trace identifier
    given as the query parameter: when the [final_report] artifact is in
    the store the endpoint returns it with status 200; when there is none
    it returns 404; and it returns 500 exactly when reading the store
    fails.  A missing or empty identifier is answered with 400. *)
Theorem report_endpoint_statuses env w traceId :
  JS.truthy_string traceId = true ->
  endpoint_as_specified env w traceId
  /\ status_of env (mkInput None) w = Some 400%Z
  /\ status_of env (mkInput (Some EmptyString)) w = Some 400%Z.
Proof.
  intros Hid. split; [|by split].
  destruct traceId as [|c t]; [discriminate|].
  unfold endpoint_as_specified, status_of, outcome, handler.
  cbv beta iota zeta delta [traceId try_catch bind state_get ret].
  destruct (store_fault env (store_ops w)) as [e|] eqn:F0; cbn [fst].
  - split; [done|]. split; [done|]. split; [done|reflexivity].
  - split; [|split].
    + intros report _ ->. reflexivity.
    + intros _ ->. reflexivity.
    + split; [|done]. intros Hs.
      destruct (store w !! _) as [v|]; [destruct (truthy_value v)|]; simplify_eq/=.
Qed.

Lemma report_endpoint_statuses_witness :
  JS.truthy_string "t1" = true
  /\ endpoint_as_specified Sample.quiet (Sample.world []) "t1".
Proof.
  split; [reflexivity|].
  apply (report_endpoint_statuses Sample.quiet (Sample.world []) "t1" eq_refl).
Defined.

(** C8, as the specification states it, fails for the empty identifier:
    no report is stored under it, and the answer is 400, not 404. *)
Lemma empty_identifier_is_rejected :
  ~ endpoint_as_specified Sample.quiet (Sample.world []) EmptyString.
Proof.
  intros (_ & H404 & _).
  specialize (H404 eq_refl eq_refl). vm_compute in H404. discriminate.
Qed.

End ReportRetrieverFacts.

(** ** Strings *)

Lemma append_cons (c : ascii) (s1 s2 : string) :
  String c s1 +:+ s2 = String c (s1 +:+ s2).
Proof. reflexivity. Qed.

Lemma length_append (s1 s2 : string) :
  String.length (s1 +:+ s2) = (String.length s1 + String.length s2)%nat.
Proof.
  induction s1 as [|c s1 IH]; [reflexivity|].
  rewrite append_cons. cbn [String.length]. by rewrite IH.
Qed.

Lemma append_assoc (s1 s2 s3 : string) : (s1 +:+ s2) +:+ s3 = s1 +:+ (s2 +:+ s3).
Proof.
  induction s1 as [|c s1 IH]; [reflexivity|].
  rewrite !append_cons. by rewrite IH.
Qed.

Lemma append_empty_r (s : string) : s +:+ EmptyString = s.
Proof.
  induction s as [|c s IH]; [reflexivity|].
  rewrite append_cons. by rewrite IH.
Qed.

Lemma length_substring0 (n : nat) (s : string) :
  String.length (String.substring 0 n s) = Nat.min n (String.length s).
Proof.
  revert n. induction s as [|c s IH]; intros [|n]; simpl; try reflexivity.
  by rewrite IH.
Qed.

Lemma substring0_prefix (n : nat) (s : string) :
  exists rest, s = String.substring 0 n s +:+ rest.
Proof.
  revert n. induction s as [|c s IH]; intros [|n]; simpl.
  - by exists EmptyString.
  - by exists EmptyString.
  - by exists (String c s).
  - destruct (IH n) as (rest & Hrest). exists rest.
    rewrite append_cons. by rewrite <- Hrest.
Qed.

(** ** The context of the brainstorming prompt *)

Module BrainstormerContextFacts.
Import BrainstormerContext.

(** X1.  The helper [truncateText] returns a text of at most
    [maxLength + 3] characters: a text that is not longer than
    [maxLength] is returned as it is, and a longer one is cut to its
    first [maxLength] characters, which three dots follow. *)
Theorem truncateText_bounded (text : string) (maxLength : nat) :
  (String.length (truncateText text maxLength) <= maxLength + 3)%nat
  /\ ((String.length text <= maxLength)%nat -> truncateText text maxLength = text)
  /\ ((maxLength < String.length text)%nat ->
      String.length (truncateText text maxLength) = (maxLength + 3)%nat
      /\ exists rest,
          text = substring0 maxLength text +:+ rest
          /\ truncateText text maxLength = substring0 maxLength text +:+ "...").
Proof.
  unfold truncateText, substring0.
  destruct text as [|c text]; [simpl; repeat split; try lia; intros; lia|].
  cbn [JS.truthy_string negb].
  destruct (Nat.ltb_spec maxLength (String.length (String c text))) as [Hlt|Hge].
  - rewrite length_append, length_substring0.
    change (String.length "...") with 3%nat.
    split; [lia|]. split; [lia|]. intros _. split; [lia|].
    destruct (substring0_prefix maxLength (String c text)) as (rest & Hrest).
    by exists rest.
  - split; [lia|]. split; [done|]. lia.
Qed.

(** The loop never makes the context longer than the limit. *)
Lemma add_entries_bounded l acc :
  (String.length acc <= MAX_CONTEXT_CHARS)%nat ->
  (String.length (add_entries l acc) <= MAX_CONTEXT_CHARS)%nat.
Proof.
  revert acc. induction l as [|item l IH]; intros acc Hacc; cbn [add_entries]; [done|].
  destruct (summarised item); [|by apply IH].
  destruct (Nat.leb_spec (String.length acc + String.length (entry_of item))
              MAX_CONTEXT_CHARS) as [Hfits|Hnot]; [|done].
  apply IH. by rewrite length_append.
Qed.

(** The loop appends the entries of the first summarised items, for as
    long as they fit. *)
Lemma add_entries_prefix l acc :
  exists k,
    add_entries l acc = acc +:+ entries (take k (List.filter summarised l))
    /\ ((length (List.filter summarised l) <= k)%nat
        \/ exists item,
            List.filter summarised l !! k = Some item
            /\ (MAX_CONTEXT_CHARS
                < String.length (add_entries l acc) + String.length (entry_of item))%nat).
Proof.
  revert acc. induction l as [|item l IH]; intros acc; cbn [add_entries List.filter].
  - exists 0%nat. simpl. rewrite append_empty_r. split; [done|]. left. lia.
  - destruct (summarised item) eqn:Hitem; [|apply IH].
    destruct (Nat.leb_spec (String.length acc + String.length (entry_of item))
                MAX_CONTEXT_CHARS) as [Hfits|Hnot].
    + destruct (IH (acc +:+ entry_of item)) as (k & Heq & Hstop).
      exists (S k). cbn [take entries fold_right length lookup list_lookup].
      split; [by rewrite Heq, append_assoc|].
      destruct Hstop as [Hall|Hstop]; [left; lia|by right].
    + exists 0%nat. cbn [take entries fold_right]. rewrite append_empty_r.
      split; [done|]. right. exists item. split; [done|lia].
Qed.

(** X2.  The context that the brainstormer puts into its prompt is never
    longer than [MAX_CONTEXT_CHARS] (8000 characters) and never empty;
    when no item of the artifact can be summarised it is the sentence
    that says so. *)
Theorem context_within_limit (extractedContent : list ExtractedContent.t) :
  (String.length (contextText extractedContent) <= MAX_CONTEXT_CHARS)%nat
  /\ JS.truthy_string (contextText extractedContent) = true
  /\ (List.filter summarised extractedContent = [] ->
      contextText extractedContent
      = "No content could be summarized from the provided sources.").
Proof.
  unfold contextText.
  pose proof (add_entries_bounded extractedContent EmptyString) as Hbound.
  split; [|split].
  - destruct (JS.truthy_string (add_entries extractedContent EmptyString));
      cbn [negb].
    + apply Hbound. apply Nat.le_0_l.
    + apply Nat.leb_le. vm_compute. reflexivity.
  - destruct (JS.truthy_string (add_entries extractedContent EmptyString)) eqn:H;
      cbn [negb]; [exact H|reflexivity].
  - intros Hnone.
    destruct (add_entries_prefix extractedContent EmptyString) as (k & -> & _).
    rewrite Hnone. by destruct k.
Qed.

(** X3.  The context is made of the entries of the successfully
    extracted items only, in the order of the artifact: the loop appends
    the entry of each item that has no error and has a content or an
    excerpt, and stops for good at the first entry that would take the
    context past the limit, so that a later, shorter entry is not added
    either. *)
Theorem context_from_summarised_items (extractedContent : list ExtractedContent.t) :
  exists used dropped,
    List.filter summarised extractedContent = used ++ dropped
    /\ add_entries extractedContent EmptyString = entries used
    /\ Forall (fun item => JS.truthy_opt_string (ExtractedContent.error item) = false) used
    /\ match dropped with
       | [] => True
       | item :: _ =>
           (MAX_CONTEXT_CHARS < String.length (entries used) + String.length (entry_of item))%nat
       end.
Proof.
  destruct (add_entries_prefix extractedContent EmptyString) as (k & Heq & Hstop).
  change (add_entries extractedContent EmptyString
          = entries (take k (List.filter summarised extractedContent))) in Heq.
  exists (take k (List.filter summarised extractedContent)),
         (drop k (List.filter summarised extractedContent)).
  split; [by rewrite take_drop|]. split; [exact Heq|]. split.
  - apply Forall_take. apply Forall_forall. intros item Hin.
    apply list_elem_of_In, filter_In in Hin as [_ Hs].
    unfold summarised in Hs. apply andb_true_iff in Hs as [Hs _].
    by apply negb_true_iff in Hs.
  - destruct Hstop as [Hall|(item & Hitem & Hlong)].
    + by rewrite drop_ge.
    + rewrite (drop_S _ _ _ Hitem). by rewrite <- Heq.
Qed.

End BrainstormerContextFacts.

(** ** What a computation keeps *)

Section Keeps.
Context (P : World -> World -> Prop).
Hypothesis P_refl : forall w, P w w.
Hypothesis P_trans : forall w1 w2 w3, P w1 w2 -> P w2 w3 -> P w1 w3.

Lemma keeps_ret {A} (a : A) : keeps P (ret a).
Proof using P_refl. intros w. apply P_refl. Qed.

Lemma keeps_throw {A} (e : JS.Thrown) : keeps P (@throw A e).
Proof using P_refl. intros w. apply P_refl. Qed.

Lemma keeps_bind {A B} (c : M A) (k : A -> M B) :
  keeps P c -> (forall a, keeps P (k a)) -> keeps P (bind c k).
Proof using P_trans.
  intros Hc Hk w. specialize (Hc w). unfold run, bind in *.
  destruct (c w) as [[a|e] w']; [|exact Hc].
  eapply P_trans; [exact Hc|apply (Hk a w')].
Qed.

Lemma keeps_try {A} (c : M A) (h : JS.Thrown -> M A) :
  keeps P c -> (forall e, keeps P (h e)) -> keeps P (try_catch c h).
Proof using P_trans.
  intros Hc Hh w. specialize (Hc w). unfold run, try_catch in *.
  destruct (c w) as [[a|e] w']; [exact Hc|].
  eapply P_trans; [exact Hc|apply (Hh e w')].
Qed.

Lemma keeps_for_of {A S} (l : list A) (body : S -> A -> M S) (s : S) :
  (forall s x, keeps P (body s x)) -> keeps P (for_of l body s).
Proof using P_refl P_trans.
  intros Hbody. revert s. induction l as [|x l IH]; intros s; simpl.
  - apply keeps_ret.
  - apply keeps_bind; [apply Hbody|apply IH].
Qed.
End Keeps.

(** *** The store, away from one key *)

Lemma same_elsewhere_refl key w : same_elsewhere key w w.
Proof. by intros k _. Qed.

Lemma same_elsewhere_trans key w1 w2 w3 :
  same_elsewhere key w1 w2 -> same_elsewhere key w2 w3 -> same_elsewhere key w1 w3.
Proof. intros H12 H23 k Hk. by rewrite (H23 k Hk), (H12 k Hk). Qed.

Lemma same_store_keeps {A} key (c : M A) :
  (forall w, store (run c w) = store w) -> keeps (same_elsewhere key) c.
Proof. intros Hc w k _. by rewrite Hc. Qed.

Lemma frame_ret {A} key (a : A) : keeps (same_elsewhere key) (ret a).
Proof. apply keeps_ret, same_elsewhere_refl. Qed.

Lemma frame_throw {A} key e : keeps (same_elsewhere key) (@throw A e).
Proof. apply keeps_throw, same_elsewhere_refl. Qed.

Lemma frame_throw_Error {A} key m : keeps (same_elsewhere key) (@throw_Error A m).
Proof. apply frame_throw. Qed.

Lemma frame_null_property {A} key name : keeps (same_elsewhere key) (@null_property A name).
Proof. apply frame_throw. Qed.

Lemma frame_bind {A B} key (c : M A) (k : A -> M B) :
  keeps (same_elsewhere key) c -> (forall a, keeps (same_elsewhere key) (k a)) ->
  keeps (same_elsewhere key) (bind c k).
Proof. apply keeps_bind, same_elsewhere_trans. Qed.

Lemma frame_try {A} key (c : M A) (h : JS.Thrown -> M A) :
  keeps (same_elsewhere key) c -> (forall e, keeps (same_elsewhere key) (h e)) ->
  keeps (same_elsewhere key) (try_catch c h).
Proof. apply keeps_try, same_elsewhere_trans. Qed.

Lemma frame_for_of {A S} key (l : list A) (body : S -> A -> M S) (s : S) :
  (forall s x, keeps (same_elsewhere key) (body s x)) ->
  keeps (same_elsewhere key) (for_of l body s).
Proof. apply keeps_for_of; [apply same_elsewhere_refl|apply same_elsewhere_trans]. Qed.

(** The one primitive that writes. *)
Lemma frame_state_set env key v : keeps (same_elsewhere key) (state_set env key v).
Proof.
  intros w k Hk. unfold run, state_set.
  destruct (store_fault env (store_ops w)); simpl; [done|].
  by rewrite lookup_insert_ne.
Qed.

(** The primitives that leave the store alone. *)
Lemma store_state_get env key w : store (run (state_get env key) w) = store w.
Proof. unfold run, state_get. by destruct (store_fault env (store_ops w)). Qed.

Lemma store_state_get_string env key w : store (run (state_get_string env key) w) = store w.
Proof.
  unfold run, state_get_string, bind, state_get, ret.
  by destruct (store_fault env (store_ops w)).
Qed.

Lemma store_state_get_both env a b w :
  store (run (QuestionBrainstormer.state_get_both env a b) w) = store w.
Proof.
  unfold run, QuestionBrainstormer.state_get_both.
  destruct (store_fault env (store_ops w)); [done|].
  by destruct (store_fault env (S (store_ops w))).
Qed.

Lemma store_emit topic data w : store (run (emit topic data) w) = store w.
Proof. reflexivity. Qed.

Lemma store_delay ms w : store (run (delay ms) w) = store w.
Proof. reflexivity. Qed.

Lemma store_now env w : store (run (now env) w) = store w.
Proof. reflexivity. Qed.

Lemma store_create_completion env w : store (run (create_completion env) w) = store w.
Proof. unfold run, create_completion. by destruct (completion env (completions w)). Qed.

Lemma store_do_fetch env url w : store (run (do_fetch env url) w) = store w.
Proof. unfold run, do_fetch. by destruct (fetch env (fetches w)). Qed.

Lemma store_exa_search env query w : store (run (exa_search env query) w) = store w.
Proof. unfold run, exa_search. by destruct (exa env (searches w)) as [?|?]. Qed.

Lemma store_array_length a w : store (run (array_length a) w) = store w.
Proof. unfold run, array_length. by destruct (heap w !! a). Qed.

Lemma store_array_elements a w : store (run (array_elements a) w) = store w.
Proof. unfold run, array_elements. by destruct (heap w !! a). Qed.

Lemma store_array_filter p a w : store (run (array_filter p a) w) = store w.
Proof. unfold run, array_filter. by destruct (heap w !! a). Qed.

Lemma store_array_sort f a w : store (run (array_sort f a) w) = store w.
Proof. unfold run, array_sort. by destruct (heap w !! a). Qed.

Lemma store_array_slice0 n a w : store (run (array_slice0 n a) w) = store w.
Proof. unfold run, array_slice0. by destruct (heap w !! a). Qed.

(** One step of the search for a proof that a computation writes at
    most under [key]: the shape of the computation decides. *)
Ltac frame_step :=
  first
    [ apply frame_ret
    | apply frame_throw_Error
    | apply frame_null_property
    | apply frame_throw
    | apply frame_state_set
    | apply same_store_keeps; intros ?;
      first [ apply store_state_get_string | apply store_state_get
            | apply store_state_get_both | apply store_emit | apply store_delay
            | apply store_now | apply store_create_completion | apply store_do_fetch
            | apply store_exa_search | apply store_array_length
            | apply store_array_elements | apply store_array_filter
            | apply store_array_sort | apply store_array_slice0 ]
    | apply frame_bind; [|intros ?]
    | apply frame_try; [|intros ?]
    | apply frame_for_of; intros ? ?
    | progress cbv beta zeta
    | progress unfold read_article, require_content, ExaSearcher.search,
        ContentExtractor.extract, ContentExtractor.fetch_and_extract,
        QuestionJudger.evaluate, QuestionJudger.parse_evaluation,
        QueryGenerator.parse_queries, QueryGenerator.extract_queries,
        QuestionBrainstormer.parse_questions
    | match goal with
      | |- keeps _ (match ?x with _ => _ end) => destruct x
      end ].

Ltac frame := repeat frame_step.

Module FrameFacts.

Lemma frame_generator env payload :
  keeps (same_elsewhere (QueryGenerator.traceId payload +:+ ":generated_queries"))
    (QueryGenerator.handler env payload).
Proof.
  unfold QueryGenerator.handler. frame.
Qed.

Lemma frame_searcher env payload :
  keeps (same_elsewhere (ExaSearcher.traceId payload +:+ ":exa_search_results"))
    (ExaSearcher.handler env payload).
Proof.
  unfold ExaSearcher.handler. frame.
Qed.

Lemma frame_retry_loop key fuel env result st :
  keeps (same_elsewhere key) (ContentExtractor.retry_loop fuel env result st).
Proof.
  revert st. induction fuel as [|fuel IH]; intros st; cbn [ContentExtractor.retry_loop].
  - frame.
  - frame; apply IH.
Qed.

Lemma frame_extractor env payload :
  keeps (same_elsewhere (ContentExtractor.traceId payload +:+ ":extracted_content"))
    (ContentExtractor.handler env payload).
Proof.
  unfold ContentExtractor.handler. frame; apply frame_retry_loop.
Qed.

Lemma frame_brainstormer env payload :
  keeps (same_elsewhere (QuestionBrainstormer.traceId payload +:+ ":generated_questions"))
    (QuestionBrainstormer.handler env payload).
Proof.
  unfold QuestionBrainstormer.handler. frame.
Qed.

Lemma frame_judger env payload :
  keeps (same_elsewhere (QuestionJudger.traceId payload +:+ ":evaluated_questions"))
    (QuestionJudger.handler env payload).
Proof.
  unfold QuestionJudger.handler. frame.
Qed.

Lemma frame_compiler env payload :
  keeps (same_elsewhere (ReportCompiler.traceId payload +:+ ":final_report"))
    (ReportCompiler.handler env payload).
Proof. unfold ReportCompiler.handler. frame. Qed.

Lemma frame_stage env d : keeps (same_elsewhere (artifact_key d)) (stage env d).
Proof.
  destruct d; simpl.
  - apply frame_generator.
  - apply frame_searcher.
  - apply frame_extractor.
  - apply frame_brainstormer.
  - apply frame_judger.
  - apply frame_compiler.
Qed.

End FrameFacts.

(** ** The keys of the trace state store *)

Lemma chars_append (a b : string) :
  list_ascii_of_string (a +:+ b) = list_ascii_of_string a ++ list_ascii_of_string b.
Proof.
  induction a as [|c a IH]; [reflexivity|].
  rewrite append_cons. simpl. by rewrite IH.
Qed.

Lemma chars_inj (a b : string) : list_ascii_of_string a = list_ascii_of_string b -> a = b.
Proof.
  intros H. rewrite <- (string_of_list_ascii_of_string a), H.
  apply string_of_list_ascii_of_string.
Qed.

(** Two keys that are equal end alike. *)
Lemma keys_end_alike (a b s s' : string) :
  a +:+ s = b +:+ s' ->
  reverse (list_ascii_of_string s) ++ reverse (list_ascii_of_string a)
  = reverse (list_ascii_of_string s') ++ reverse (list_ascii_of_string b).
Proof.
  intros H. apply (f_equal list_ascii_of_string) in H.
  rewrite !chars_append in H. by rewrite <- !reverse_app, H.
Qed.

Lemma same_suffix (a b s : string) : a +:+ s = b +:+ s -> a = b.
Proof.
  intros H. apply (f_equal list_ascii_of_string) in H.
  rewrite !chars_append in H. apply app_inv_tail in H. by apply chars_inj.
Qed.

Lemma artifact_key_split d : artifact_key d = traceId_of d +:+ artifact_suffix d.
Proof. by destruct d. Qed.

(** No artifact is stored under the key of a seed topic. *)
Lemma seed_key_is_no_artifact (traceId : string) d :
  traceId +:+ ":seed_topic" <> artifact_key d.
Proof.
  rewrite artifact_key_split. intros H. apply keys_end_alike in H.
  destruct d; cbn in H; discriminate.
Qed.

(** The key of an artifact tells the trace and the stage. *)
Lemma artifact_key_inj d d' :
  artifact_key d = artifact_key d' ->
  traceId_of d = traceId_of d' /\ artifact_suffix d = artifact_suffix d'.
Proof.
  rewrite !artifact_key_split. intros H.
  destruct d, d'; cbn [artifact_suffix] in *;
    try (split; [by apply same_suffix in H|reflexivity]);
    apply keys_end_alike in H; cbn in H; discriminate.
Qed.

(** ** Isolation *)

Module IsolationFacts.

Lemma deliver_keeps (P : World -> Prop) ds w :
  (forall env d w, In (env, d) ds -> P w -> P (run (stage env d) w)) ->
  P w -> P (deliver ds w).
Proof.
  revert w. induction ds as [|[env d] ds IH]; intros w Hstep Hw; [exact Hw|].
  simpl. apply IH.
  - intros env' d' w' Hin. apply Hstep. by right.
  - apply Hstep; [by left|exact Hw].
Qed.

(** A run of deliveries leaves a key alone when none of them is the
    stage that writes it. *)
Lemma deliver_keeps_key (ds : list (Env * Delivery)) w (k : string) :
  Forall (fun ed => artifact_key (snd ed) <> k) ds ->
  store (deliver ds w) !! k = store w !! k.
Proof.
  intros Hds.
  apply (deliver_keeps (fun w' => store w' !! k = store w !! k)); [|reflexivity].
  intros env d w' Hin <-.
  apply FrameFacts.frame_stage. intros Hk.
  rewrite Forall_forall in Hds.
  by apply (Hds (env, d)); [apply list_elem_of_In|].
Qed.

(** X4.  A stage writes to the trace state store under the key of its
    own artifact only: whatever happens during a delivery, every other
    key holds afterwards what it held before. *)
Theorem stage_writes_own_artifact_only env d w (k : string) :
  k <> artifact_key d ->
  store (run (stage env d) w) !! k = store w !! k.
Proof.
  intros Hk. destruct d as [p|p|p|p|p|p]; cbn [stage artifact_key] in *.
  - by apply FrameFacts.frame_generator.
  - by apply FrameFacts.frame_searcher.
  - by apply FrameFacts.frame_extractor.
  - by apply FrameFacts.frame_brainstormer.
  - by apply FrameFacts.frame_judger.
  - by apply FrameFacts.frame_compiler.
Qed.

Lemma stage_writes_own_artifact_only_witness :
  "t1:seed_topic" <> artifact_key (ToReportCompiler (ReportCompiler.mkPayload "t1" 0))
  /\ store (run (stage Sample.quiet (ToReportCompiler (ReportCompiler.mkPayload "t1" 0)))
              (Sample.world [Sample.three_questions])) !! "t1:seed_topic"
     = store (Sample.world [Sample.three_questions]) !! "t1:seed_topic".
Proof.
  split; [discriminate|].
  apply (stage_writes_own_artifact_only Sample.quiet
           (ToReportCompiler (ReportCompiler.mkPayload "t1" 0))
           (Sample.world [Sample.three_questions]) "t1:seed_topic").
  discriminate.
Defined.

(** X5.  No stage of the pipeline ever overwrites a seed topic: after
    any run of deliveries, for any traces and in any order, the seed
    topic of every trace is the one that was stored. *)
Theorem seed_topic_is_never_overwritten (ds : list (Env * Delivery)) w (traceId : string) :
  store (deliver ds w) !! (traceId +:+ ":seed_topic")
  = store w !! (traceId +:+ ":seed_topic").
Proof.
  apply deliver_keeps_key, Forall_forall. intros [env d] _ Hk.
  by apply (seed_key_is_no_artifact traceId d).
Qed.

(** X6.  Traces do not disturb each other: a run of deliveries that all
    belong to other traces leaves every artifact of a trace as it was,
    since the key of an artifact tells its trace and its stage. *)
Theorem traces_do_not_interfere (ds : list (Env * Delivery)) w (d : Delivery) :
  Forall (fun ed => traceId_of (snd ed) <> traceId_of d) ds ->
  store (deliver ds w) !! artifact_key d = store w !! artifact_key d.
Proof.
  intros Hother. apply deliver_keeps_key.
  eapply Forall_impl; [exact Hother|].
  intros [env d'] Hid Hkey. apply Hid. by apply artifact_key_inj in Hkey as [? _].
Qed.

Lemma traces_do_not_interfere_witness :
  store (deliver [(Sample.quiet, ToReportCompiler (ReportCompiler.mkPayload "t1" 0))]
           (Sample.world [Sample.three_questions]))
    !! artifact_key (ToReportCompiler (ReportCompiler.mkPayload "t2" 0))
  = store (Sample.world [Sample.three_questions])
      !! artifact_key (ToReportCompiler (ReportCompiler.mkPayload "t2" 0)).
Proof.
  apply (traces_do_not_interfere
           [(Sample.quiet, ToReportCompiler (ReportCompiler.mkPayload "t1" 0))]
           (Sample.world [Sample.three_questions])
           (ToReportCompiler (ReportCompiler.mkPayload "t2" 0))).
  repeat constructor. simpl. discriminate.
Defined.

End IsolationFacts.

(** ** The Exa searcher *)

Module ExaSearcherFacts.
Import ExaSearcher ExaSearch.

Lemma copy_id res : copy res = res.
Proof. by destruct res. Qed.

Lemma map_copy_id l : map copy l = l.
Proof. induction l as [|res l IH]; simpl; [reflexivity|by rewrite copy_id, IH]. Qed.

Lemma results_from_cons env k query queries :
  results_from env k (query :: queries)
  = results_of (exa env k) ++ results_from env (S k) queries.
Proof. reflexivity. Qed.

Lemma errors_from_cons env k query queries :
  errors_from env k (query :: queries)
  = errors_of query (exa env k) ++ errors_from env (S k) queries.
Proof. reflexivity. Qed.

(** One turn of the loop: the search is made, and its results or its
    error line are pushed. *)
Lemma search_step env found query w :
  search env found query w
  = (Ok (mkFound (allResults found ++ results_of (exa env (searches w)))
                 (errors found ++ errors_of query (exa env (searches w)))),
     log (Search query) (tick_search w)).
Proof.
  unfold search, try_catch, bind, exa_search, ret, results_of, errors_of, error_line.
  destruct found as [rs errs].
  destruct (exa env (searches w)) as [e|[[|r l]|]]; cbn [allResults errors];
    rewrite ?app_nil_r, ?map_copy_id; reflexivity.
Qed.

(** The loop searches for every query, in order, whatever the earlier
    searches did. *)
Lemma search_loop_run env queries found w :
  exists w',
    for_of queries (search env) found w
    = (Ok (mkFound (allResults found ++ results_from env (searches w) queries)
                   (errors found ++ errors_from env (searches w) queries)), w')
    /\ trace w' = trace w ++ map Search queries
    /\ store w' = store w
    /\ store_ops w' = store_ops w.
Proof.
  revert found w. induction queries as [|query queries IH]; intros found w.
  - exists w. destruct found. cbn. by rewrite !app_nil_r.
  - destruct (IH (mkFound (allResults found ++ results_of (exa env (searches w)))
                          (errors found ++ errors_of query (exa env (searches w))))
                 (log (Search query) (tick_search w)))
      as (w' & Hloop & Ht & Hs & Ho).
    exists w'. cbn [for_of].
    rewrite (bind_ok _ _ _ _ _ (search_step env found query w)), Hloop.
    rewrite results_from_cons, errors_from_cons.
    cbn [allResults errors searches tick_search log] in *.
    rewrite <- !app_assoc. split; [reflexivity|].
    split; [|by split].
    rewrite Ht. cbn. by rewrite <- app_assoc.
Qed.

(** The handler, when the key is there. *)
Lemma searcher_run env payload w :
  JS.truthy_opt_string (process_env env !! "EXA_API_KEY") = true ->
  let key := traceId payload +:+ ":exa_search_results" in
  let rs := results_from env (searches w) (queries payload) in
  let errs := errors_from env (searches w) (queries payload) in
  let c := handler env payload in
  match rs with
  | [] =>
      outcome c w = Ok tt
      /\ actions c w
         = map Search (queries payload)
           ++ [Emit "workflow.error"
                 (DError (traceId payload) config_name (no_results_message errs))]
      /\ store (run c w) = store w
  | _ :: _ =>
      match store_fault env (store_ops w) with
      | None =>
          outcome c w = Ok tt
          /\ actions c w
             = map Search (queries payload)
               ++ [StateSet key (VSearchResults rs);
                   Emit "search_results.obtained" (DSearchResults (traceId payload) rs errs)]
          /\ store (run c w) = <[key := VSearchResults rs]> (store w)
      | Some e =>
          outcome c w = Throw e
          /\ actions c w = map Search (queries payload)
          /\ store (run c w) = store w
      end
  end.
Proof.
  intros Hkey key rs errs c. subst c rs errs.
  unfold handler, outcome, actions, run. rewrite Hkey. cbn [negb].
  destruct (search_loop_run env (queries payload) (mkFound [] []) w)
    as (w' & Hloop & Ht & Hs & Ho).
  rewrite (bind_ok _ _ _ _ _ Hloop). cbn [allResults errors app].
  destruct (results_from env (searches w) (queries payload)) as [|r rs].
  - unfold emit, log, no_results_message. cbn.
    rewrite Ht, <- app_assoc, drop_app_length.
    split; [reflexivity|]. split; [|exact Hs].
    by destruct (errors_from env (searches w) (queries payload)).
  - unfold bind, state_set, emit. rewrite Ho.
    destruct (store_fault env (store_ops w)) as [e|]; cbn.
    + rewrite Ht, drop_app_length. by rewrite Hs.
    + rewrite Ht, <- !app_assoc, drop_app_length. by rewrite Hs.
Qed.

(** X7.  The Exa searcher stores the results of all queries in one list,
    in the order of the queries and as Exa returned them; the searches
    are made one per query, in order, and a search that fails does not
    stop the others: it only adds a line to the errors that are announced
    with the results.  What is stored is never the empty list. *)
Theorem search_results_in_query_order env payload w rs :
  let key := traceId payload +:+ ":exa_search_results" in
  StateSet key (VSearchResults rs) ∈ actions (handler env payload) w ->
  rs = concat (map results_of (outcomes env (searches w) (queries payload)))
  /\ rs <> []
  /\ actions (handler env payload) w
     = map Search (queries payload)
       ++ [StateSet key (VSearchResults rs);
           Emit "search_results.obtained"
             (DSearchResults (traceId payload) rs
                (concat (zip_with errors_of (queries payload)
                           (outcomes env (searches w) (queries payload)))))]
  /\ store (run (handler env payload) w) !! key = Some (VSearchResults rs).
Proof.
  intros key Hin.
  assert (forall l : list string, StateSet key (VSearchResults rs) ∉ map Search l) as Hno.
  { intros l Hl. apply list_elem_of_fmap in Hl as (q & Hq & _). discriminate. }
  destruct (JS.truthy_opt_string (process_env env !! "EXA_API_KEY")) eqn:Hkey.
  2:{ unfold handler, actions, run in Hin. rewrite Hkey in Hin. cbn in Hin.
      rewrite drop_app_length in Hin. apply list_elem_of_singleton in Hin. discriminate. }
  pose proof (searcher_run env payload w Hkey) as Hrun. cbv zeta in Hrun.
  fold key in Hrun.
  change (concat (map results_of (outcomes env (searches w) (queries payload))))
    with (results_from env (searches w) (queries payload)).
  change (concat (zip_with errors_of (queries payload)
                    (outcomes env (searches w) (queries payload))))
    with (errors_from env (searches w) (queries payload)).
  destruct (results_from env (searches w) (queries payload)) as [|r l].
  - destruct Hrun as (_ & Hacts & _). rewrite Hacts in Hin.
    apply elem_of_app in Hin as [Hin|Hin]; [by destruct (Hno _ Hin)|].
    apply list_elem_of_singleton in Hin. discriminate.
  - destruct (store_fault env (store_ops w)) as [e|].
    + destruct Hrun as (_ & Hacts & _). rewrite Hacts in Hin. by destruct (Hno _ Hin).
    + destruct Hrun as (_ & Hacts & Hstore). rewrite Hacts in Hin.
      apply elem_of_app in Hin as [Hin|Hin]; [by destruct (Hno _ Hin)|].
      apply elem_of_cons in Hin as [Heq|Hin];
        [|apply list_elem_of_singleton in Hin; discriminate].
      simplify_eq. split; [reflexivity|]. split; [discriminate|].
      split; [exact Hacts|]. rewrite Hstore. by rewrite lookup_insert_eq.
Qed.

Lemma search_results_in_query_order_witness :
  StateSet "t7:exa_search_results" (VSearchResults [Fixture.hit "https://example.org/a"])
    ∈ actions (handler Fixture.searching (mkPayload "t7" ["q1"; "q2"])) (Sample.world [])
  /\ actions (handler Fixture.searching (mkPayload "t7" ["q1"; "q2"])) (Sample.world [])
     = [Search "q1"; Search "q2";
        StateSet "t7:exa_search_results"
          (VSearchResults [Fixture.hit "https://example.org/a"]);
        Emit "search_results.obtained"
          (DSearchResults "t7" [Fixture.hit "https://example.org/a"]
             [error_line "q1" (JS.ThrownError "Error" "503")])].
Proof.
  assert (StateSet "t7:exa_search_results"
            (VSearchResults [Fixture.hit "https://example.org/a"])
            ∈ actions (handler Fixture.searching (mkPayload "t7" ["q1"; "q2"]))
                (Sample.world [])) as Hin.
  { vm_compute. right. right. left. }
  split; [exact Hin|].
  apply (search_results_in_query_order Fixture.searching (mkPayload "t7" ["q1"; "q2"])
           (Sample.world []) [Fixture.hit "https://example.org/a"] Hin).
Defined.



End ExaSearcherFacts.

(** ** The question brainstormer *)

Module QuestionBrainstormerFacts.
Import QuestionBrainstormer Brainstorming.

(** Step 5 with its catch block, by what it finds in the reply. *)
Lemma find_questions_run env responseContent w :
  try_catch (parse_questions env responseContent)
    (fun parseError =>
       throw_Error ("Failed to parse OpenAI JSON response: "
                    +:+ JS.message_or "Unknown parsing error" parseError)) w
  = match questions_found env responseContent with
    | inl message =>
        (Throw (JS.ThrownError "Error"
                  ("Failed to parse OpenAI JSON response: " +:+ message)), w)
    | inr generatedQuestions => (Ok generatedQuestions, w)
    end.
Proof.
  unfold parse_questions, questions_found, try_catch.
  cbv beta iota zeta delta [bind ret throw throw_Error null_property].
  destruct (JSON_parse env responseContent) as [e|[| | | |items|members]];
    try reflexivity.
  - by destruct (strings_of items).
  - destruct (member "questions" members) as [[| | | |items|]|];
      try (destruct (first_array members) as [items|];
           [by destruct (strings_of items)|reflexivity]).
    by destruct (strings_of items).
Qed.


(** The handler does what [expected_actions] says and never rejects. *)
Lemma brainstormer_run env payload w :
  exists w',
    handler env payload w = (Ok tt, w')
    /\ drop (length (trace w)) (trace w') = expected_actions env payload w
    /\ (forall generatedQuestions,
          StateSet (traceId payload +:+ ":generated_questions")
            (VStrings generatedQuestions)
            ∈ expected_actions env payload w ->
          store w' !! (traceId payload +:+ ":generated_questions")
          = Some (VStrings generatedQuestions)).
Proof.
  unfold handler, expected_actions.
  destruct (JS.truthy_opt_string (process_env env !! "OPENAI_API_KEY"));
    cbv beta iota delta [negb].
  2:{ eexists. split; [reflexivity|]. cbn. rewrite drop_app_length.
      split; [reflexivity|].
      intros qs Hin. apply list_elem_of_singleton in Hin. discriminate. }
  destruct w as [st h tr n1 n2 n3 n4 n5].
  assert (forall m n1' n2' (acts : list Action),
            acts = [] \/ acts = [Completion] ->
            exists w',
              emit "workflow.error" (DError (traceId payload) config_name m)
                (mkWorld st h (tr ++ acts) n1' n2' n3 n4 n5) = (Ok tt, w')
              /\ drop (length tr) (trace w')
                 = acts ++ [Emit "workflow.error"
                              (DError (traceId payload) config_name m)]
              /\ (forall qs,
                    StateSet (traceId payload +:+ ":generated_questions") (VStrings qs)
                      ∈ acts ++ [Emit "workflow.error"
                                   (DError (traceId payload) config_name m)] ->
                    store w' !! (traceId payload +:+ ":generated_questions")
                    = Some (VStrings qs))) as Hfail.
  { intros m n1' n2' acts Hacts. eexists. split; [reflexivity|]. cbn.
    rewrite <- app_assoc, drop_app_length.
    split; [reflexivity|].
    intros qs Hin. exfalso.
    destruct Hacts as [-> | ->].
    - apply list_elem_of_singleton in Hin. discriminate.
    - apply elem_of_cons in Hin as [?|Hin]; [discriminate|].
      apply list_elem_of_singleton in Hin. discriminate. }
  pose proof (fun m n1' n2' => Hfail m n1' n2' [Completion] (or_intror eq_refl)) as Hfail1.
  pose proof (fun m n1' n2' => Hfail m n1' n2' [] (or_introl eq_refl)) as Hfail0.
  cbn [app] in Hfail0, Hfail1. setoid_rewrite app_nil_r in Hfail0.
  clear Hfail.
  unfold try_catch at 1. unfold bind at 1. unfold state_get_both.
  cbv beta iota zeta delta [store_ops tick_store store heap trace completions fetches
                             searches clock_reads].
  destruct (store_fault env n1) as [e|]; [apply Hfail0|].
  destruct (store_fault env (S n1)) as [e|]; [apply Hfail0|].
  cbv beta iota delta [fst snd].
  destruct (st !! (traceId payload +:+ ":seed_topic")) as [seed|]; [|apply Hfail0].
  destruct (st !! (traceId payload +:+ ":extracted_content")) as [[| | |[|c cs]| |]|];
    try apply Hfail0.
  unfold bind at 1. unfold create_completion.
  cbv beta iota zeta delta [store_ops tick_completion log store heap trace completions
                             fetches searches clock_reads].
  destruct (completion env n2) as [e|content]; [apply Hfail1|].
  unfold bind at 1. unfold require_content, JS.truthy_opt_string.
  destruct content as [content|]; [destruct (JS.truthy_string content)|];
    cbv beta iota delta [ret throw_Error throw]; try apply Hfail1.
  unfold bind at 1.
  match goal with
  | |- context [try_catch (parse_questions env content) ?h ?w'] =>
      change (try_catch (parse_questions env content) h w')
        with (try_catch (parse_questions env content)
                (fun parseError =>
                   throw_Error ("Failed to parse OpenAI JSON response: "
                                +:+ JS.message_or "Unknown parsing error" parseError)) w');
      rewrite (find_questions_run env content w')
  end.
  cbv beta iota delta [default from_option id].
  destruct (questions_found env content) as [message|questions]; [apply Hfail1|].
  unfold bind, state_set.
  cbv beta iota zeta delta [store_ops].
  destruct (store_fault env (S (S n1))) as [e|]; [apply Hfail1|].
  eexists. split; [reflexivity|]. cbn.
  rewrite <- !app_assoc, drop_app_length.
  split; [reflexivity|].
  intros qs Hin.
  apply elem_of_cons in Hin as [?|Hin]; [discriminate|].
  apply elem_of_cons in Hin as [Heq|Hin];
    [|apply list_elem_of_singleton in Hin; discriminate].
  simplify_eq. by rewrite lookup_insert_eq.
Qed.



(** X10.  The question brainstormer asks for a completion only when the
    store holds both the seed topic of the trace and a non-empty
    [extracted_content]: without the seed topic, or without any
    extracted content, it emits one [workflow.error] that names the
    missing key, and makes no request. *)
Theorem brainstormer_needs_topic_and_content env payload w :
  JS.truthy_opt_string (process_env env !! "OPENAI_API_KEY") = true ->
  store_fault env (store_ops w) = None ->
  store_fault env (S (store_ops w)) = None ->
  let seedTopicKey := traceId payload +:+ ":seed_topic" in
  let contentKey := traceId payload +:+ ":extracted_content" in
  let acts := actions (handler env payload) w in
  let failure message :=
    [Emit "workflow.error" (DError (traceId payload) config_name message)] in
  (store w !! seedTopicKey = None ->
   acts = failure ("Seed topic not found or invalid in state for key: " +:+ seedTopicKey))
  /\ (store w !! seedTopicKey <> None ->
      store w !! contentKey = None \/ store w !! contentKey = Some (VExtracted []) ->
      acts = failure ("Extracted content not found or empty in state for key: "
                      +:+ contentKey))
  /\ (forall item items,
        store w !! seedTopicKey <> None ->
        store w !! contentKey = Some (VExtracted (item :: items)) ->
        exists rest, acts = Completion :: rest).
Proof.
  intros Hkey F0 F1 seedTopicKey contentKey acts failure. subst acts failure.
  unfold actions, run.
  destruct (brainstormer_run env payload w) as (w' & Hrun & Hexp & _).
  rewrite Hrun. cbn [snd]. rewrite Hexp.
  unfold expected_actions. rewrite Hkey, F0, F1. cbn [negb].
  fold seedTopicKey contentKey.
  split; [by intros ->|]. split.
  - intros Hseed Hcontent.
    destruct (store w !! seedTopicKey); [|done].
    by destruct Hcontent as [-> | ->].
  - intros item items Hseed ->.
    destruct (store w !! seedTopicKey); [|done]. by eexists.
Qed.

Lemma brainstormer_needs_topic_and_content_witness :
  JS.truthy_opt_string (process_env Fixture.brainstorming !! "OPENAI_API_KEY") = true
  /\ store_fault Fixture.brainstorming (store_ops Fixture.researched) = None
  /\ store_fault Fixture.brainstorming (S (store_ops Fixture.researched)) = None
  /\ actions (handler Fixture.brainstorming (mkPayload "t4")) Fixture.researched
     = [Emit "workflow.error"
          (DError "t4" config_name
             "Extracted content not found or empty in state for key: t4:extracted_content")].
Proof.
  split; [reflexivity|]. split; [reflexivity|]. split; [reflexivity|].
  apply (brainstormer_needs_topic_and_content Fixture.brainstorming (mkPayload "t4")
           Fixture.researched eq_refl eq_refl eq_refl).
  - vm_compute. discriminate.
  - left. vm_compute. reflexivity.
Defined.

(** A delivery in which the brainstormer does announce questions. *)
Example brainstormer_announces :
  actions (handler Fixture.brainstorming (mkPayload "t5")) Fixture.researched
  = [Completion;
     StateSet "t5:generated_questions" (VStrings ["Q1"; "Q2"]);
     Emit "questions.generated" (DQuestions "t5" ["Q1"; "Q2"])].
Proof. vm_compute. reflexivity. Qed.



End QuestionBrainstormerFacts.

(** ** The question judger: requests, pauses and the scale of the scores *)

Module JudgingFacts.
Import QuestionJudger.












End JudgingFacts.

(** ** The report: what it lists, where its topic comes from, and how it
       is served *)

Module ReportFacts.
Import ReportCompiler.

(** The ranking keeps the best: what it leaves out scores no higher than
    what it lists. *)
Lemma ranked_best qs :
  let rest := drop TOP_N_QUESTIONS (JS.sort by_score_desc (List.filter no_error qs)) in
  Permutation (List.filter no_error qs) (ranked qs ++ rest)
  /\ (forall a b, a ∈ ranked qs -> b ∈ rest ->
        (EvaluatedQuestion.overallScore b <= EvaluatedQuestion.overallScore a)%Q)
  /\ length (ranked qs) = Nat.min TOP_N_QUESTIONS (length (List.filter no_error qs)).
Proof.
  intros rest. subst rest. unfold ranked, JS.slice0.
  set (s := JS.sort by_score_desc (List.filter no_error qs)).
  assert (Permutation s (List.filter no_error qs)) as Hperm
    by apply (sort_perm EvaluatedQuestion.overallScore).
  split; [by rewrite take_drop|]. split.
  - intros a b Ha Hb.
    apply list_elem_of_lookup_1 in Ha as (i & Hi), Hb as (j & Hj).
    apply lookup_take_Some in Hi as [Hi Hlt].
    rewrite lookup_drop in Hj.
    eapply (sorted_lookup EvaluatedQuestion.overallScore s i (TOP_N_QUESTIONS + j));
      [apply sort_sorted|lia|exact Hi|exact Hj].
  - by rewrite length_take, (Permutation_length Hperm).
Qed.

(** X14.  The questions of a stored report are the best of the
    evaluations that passed the filter: the report lists 5 of them, or
    all of them when they are fewer, and no evaluation that it leaves out
    has a higher overall score than one that it lists. *)
Theorem top_questions_are_the_best env payload w qs rep :
  heap w !! evaluatedQuestions payload = Some qs ->
  StateSet (traceId payload +:+ ":final_report") (VReport rep)
    ∈ actions (handler env payload) w ->
  exists rest,
    Permutation (List.filter no_error qs) (FinalReport.topQuestions rep ++ rest)
    /\ (forall a b, a ∈ FinalReport.topQuestions rep -> b ∈ rest ->
          (EvaluatedQuestion.overallScore b <= EvaluatedQuestion.overallScore a)%Q)
    /\ length (FinalReport.topQuestions rep)
       = Nat.min 5 (length (List.filter no_error qs)).
Proof.
  intros Hqs Hin.
  rewrite (ReportCompilerFacts.persisted_report _ _ _ _ _ Hqs Hin).
  eexists. apply ranked_best.
Qed.

Lemma top_questions_are_the_best_witness :
  exists rest,
    Permutation (List.filter no_error Sample.three_questions)
      (ranked Sample.three_questions ++ rest)
    /\ length (ranked Sample.three_questions) = 3%nat.
Proof.
  destruct (top_questions_are_the_best Sample.quiet (mkPayload "t1" 0)
              (Sample.world [Sample.three_questions]) Sample.three_questions
              (report_of Sample.quiet (mkPayload "t1" 0)
                 (Sample.world [Sample.three_questions]) Sample.three_questions))
    as (rest & Hperm & _ & Hlen).
  - reflexivity.
  - vm_compute. left.
  - exists rest. split; [exact Hperm|exact Hlen].
Defined.



(** X16.  When the store fails the report compiler, on reading the
    seed topic or on writing the report, the handler stores nothing,
    announces no report and emits one [workflow.error] that carries the
    message of the failure. *)
Theorem compilation_failure_is_reported env payload w qs e :
  heap w !! evaluatedQuestions payload = Some qs ->
  store_fault env (store_ops w) = Some e
  \/ (store_fault env (store_ops w) = None /\ store_fault env (S (store_ops w)) = Some e) ->
  actions (handler env payload) w
  = [Emit "workflow.error"
       (DError (traceId payload) config_name
          (match e with
           | JS.ThrownError _ message => message
           | JS.ThrownValue _ => "Unknown error during report compilation"
           end))]
  /\ store (run (handler env payload) w) = store w
  /\ outcome (handler env payload) w = Ok tt.
Proof.
  intros Hqs Hfault. unfold actions, run, outcome.
  rewrite (ReportCompilerFacts.compiler_run env payload w qs Hqs).
  destruct Hfault as [-> | [-> ->]]; cbn; rewrite drop_app_length; by destruct e.
Qed.

Lemma compilation_failure_is_reported_witness :
  actions (handler Fixture.storeless (mkPayload "t1" 0))
    (Sample.world [Sample.three_questions])
  = [Emit "workflow.error" (DError "t1" config_name "connect ECONNREFUSED")].
Proof.
  apply (compilation_failure_is_reported Fixture.storeless (mkPayload "t1" 0)
           (Sample.world [Sample.three_questions]) Sample.three_questions
           (JS.ThrownError "Error" "connect ECONNREFUSED") eq_refl).
  by left.
Defined.

End ReportFacts.

(** ** The two endpoints: starting a trace and fetching its report *)

Module EndpointFacts.

(** What the report endpoint does, by the identifier it is given. *)
Lemma retriever_run env input w :
  ReportRetriever.handler env input w
  = match ReportRetriever.traceId input with
    | None | Some EmptyString =>
        (Ok (ReportRetriever.mkApiResponse 400
               (ReportRetriever.ErrorBody "Valid traceId is required")), w)
    | Some traceId =>
        (Ok (match store_fault env (store_ops w) with
             | Some _ =>
                 ReportRetriever.mkApiResponse 500
                   (ReportRetriever.ErrorBody
                      "An internal server error occurred while retrieving the report.")
             | None =>
                 match store w !! (traceId +:+ ":final_report") with
                 | Some report =>
                     if truthy_value report
                     then ReportRetriever.mkApiResponse 200 (ReportRetriever.Stored report)
                     else ReportRetriever.mkApiResponse 404
                            (ReportRetriever.ErrorBody
                               "Report not found. It might still be processing or the traceId is invalid.")
                 | None =>
                     ReportRetriever.mkApiResponse 404
                       (ReportRetriever.ErrorBody
                          "Report not found. It might still be processing or the traceId is invalid.")
                 end
             end),
         tick_store w)
    end.
Proof.
  unfold ReportRetriever.handler.
  destruct (ReportRetriever.traceId input) as [[|c traceId]|]; try reflexivity.
  unfold try_catch, bind, state_get, ret.
  destruct (store_fault env (store_ops w)); [reflexivity|].
  destruct (store w !! _) as [report|]; [|reflexivity].
  by destruct (truthy_value report).
Qed.

(** X17.  The report endpoint only reads: it never rejects, it leaves
    the store, the arrays and the trace of actions as they are, and it
    answers with 200, 400, 404 or 500.  The body of a 200 is the truthy
    value that the store holds under the [final_report] key of the given
    trace, whatever that value is. *)
Theorem report_endpoint_reads_only env input w :
  exists response,
    outcome (ReportRetriever.handler env input) w = Ok response
    /\ store (run (ReportRetriever.handler env input) w) = store w
    /\ heap (run (ReportRetriever.handler env input) w) = heap w
    /\ trace (run (ReportRetriever.handler env input) w) = trace w
    /\ ReportRetriever.api_status response ∈ [200; 400; 404; 500]%Z
    /\ (forall v,
          ReportRetriever.api_body response = ReportRetriever.Stored v ->
          ReportRetriever.api_status response = 200%Z
          /\ truthy_value v = true
          /\ exists traceId,
              ReportRetriever.traceId input = Some traceId
              /\ store w !! (traceId +:+ ":final_report") = Some v)
    /\ (ReportRetriever.api_status response = 200%Z ->
        exists v, ReportRetriever.api_body response = ReportRetriever.Stored v).
Proof.
  unfold outcome, run. rewrite (retriever_run env input w).
  destruct (ReportRetriever.traceId input) as [[|c traceId]|].
  - eexists. repeat split; try discriminate. right. by left.
  - destruct (store_fault env (store_ops w)).
    { eexists. repeat split; try discriminate. do 3 right. by left. }
    destruct (store w !! (String c traceId +:+ ":final_report")) as [report|] eqn:Hreport.
    + destruct (truthy_value report) eqn:Htruthy.
      * eexists. split; [reflexivity|]. repeat split; try by left.
        -- cbn in H. by simplify_eq.
        -- cbn in H. simplify_eq. by exists (String c traceId).
        -- intros _. by eexists.
      * eexists. repeat split; try discriminate. do 2 right. by left.
    + eexists. repeat split; try discriminate. do 2 right. by left.
  - eexists. repeat split; try discriminate. right. by left.
Qed.

(** X18.  Compiling and fetching, one after the other: once the report
    compiler has stored a report for a trace, the report endpoint answers
    a request for that trace with 200 and this very report, also after any
    number of later deliveries, as long as none of them compiles the
    trace again. *)
Theorem compiled_report_is_served env payload w qs (ds : list (Env * Delivery)) env' :
  heap w !! ReportCompiler.evaluatedQuestions payload = Some qs ->
  store_fault env (store_ops w) = None ->
  store_fault env (S (store_ops w)) = None ->
  JS.truthy_string (ReportCompiler.traceId payload) = true ->
  Forall (fun ed => artifact_key (snd ed) <> artifact_key (ToReportCompiler payload)) ds ->
  let w' := deliver ds (run (ReportCompiler.handler env payload) w) in
  store_fault env' (store_ops w') = None ->
  outcome (ReportRetriever.handler env'
             (ReportRetriever.mkInput (Some (ReportCompiler.traceId payload)))) w'
  = Ok (ReportRetriever.mkApiResponse 200
          (ReportRetriever.Stored
             (VReport (ReportCompiler.report_of env payload w qs)))).
Proof.
  intros Hqs F0 F1 Hid Hds w' F2.
  assert (store w' !! (ReportCompiler.traceId payload +:+ ":final_report")
          = Some (VReport (ReportCompiler.report_of env payload w qs))) as Hstored.
  { subst w'.
    rewrite (IsolationFacts.deliver_keeps_key ds _
               (artifact_key (ToReportCompiler payload)) Hds).
    destruct (ReportCompilerFacts.compiler_actions env payload w qs Hqs)
      as [(_ & _ & _ & Hstore & _)|([F|F] & _)]; [exact Hstore|congruence..]. }
  unfold outcome. rewrite retriever_run. cbn [ReportRetriever.traceId].
  destruct (ReportCompiler.traceId payload) as [|c t] eqn:Htid; [discriminate|].
  by rewrite F2, Hstored.
Qed.

Lemma compiled_report_is_served_witness :
  outcome (ReportRetriever.handler Sample.quiet (ReportRetriever.mkInput (Some "t1")))
    (deliver [(Sample.quiet, ToReportCompiler (ReportCompiler.mkPayload "t2" 0))]
       (run (ReportCompiler.handler Sample.quiet (ReportCompiler.mkPayload "t1" 0))
          (Sample.world [Sample.three_questions])))
  = Ok (ReportRetriever.mkApiResponse 200
          (ReportRetriever.Stored
             (VReport (ReportCompiler.report_of Sample.quiet (ReportCompiler.mkPayload "t1" 0)
                         (Sample.world [Sample.three_questions])
                         Sample.three_questions)))).
Proof.
  apply (compiled_report_is_served Sample.quiet (ReportCompiler.mkPayload "t1" 0)
           (Sample.world [Sample.three_questions]) Sample.three_questions
           [(Sample.quiet, ToReportCompiler (ReportCompiler.mkPayload "t2" 0))]
           Sample.quiet); try reflexivity.
  repeat constructor. cbn. discriminate.
Defined.

(** What the entry point does, by what the store and the event bus do. *)
Lemma starter_run rt env input w :
  let traceId := ResearchStarter.randomUUID rt in
  let topic := ResearchStarter.seed_topic input in
  let key := traceId +:+ ":seed_topic" in
  ResearchStarter.handler rt env input w
  = match store_fault env (store_ops w) with
    | Some e => (Throw e, tick_store w)
    | None =>
        let w1 := log (StateSet key (VString topic))
                    (set_store (insert key (VString topic)) (tick_store w)) in
        match ResearchStarter.emit_fault rt with
        | None =>
            (Ok (ResearchStarter.mkApiResponse 200 (ResearchStarter.TraceId traceId)),
             log (Emit "topic.seeded" (DTopic traceId topic)) w1)
        | Some _ =>
            (Ok (ResearchStarter.mkApiResponse 500
                   (ResearchStarter.ErrorBody "Failed to initiate research workflow.")),
             w1)
        end
    end.
Proof.
  unfold ResearchStarter.handler, ResearchStarter.context_emit,
    bind, try_catch, state_set, emit, throw, ret.
  destruct (store_fault env (store_ops w)); [reflexivity|].
  by destruct (ResearchStarter.emit_fault rt).
Qed.

(** X19.  The entry point stores the seed topic under the key of the
    new trace before it announces the trace.  It answers 200 with the
    trace identifier exactly when [topic.seeded] was emitted; when the
    emission fails it answers 500, and the seed topic stays stored; when
    the store refuses the write it rejects, and nothing is emitted.  The
    earlier handler of the file stores the topic in the same way and
    answers 200 without emitting anything. *)
Theorem research_start_persists_then_announces rt env input w :
  let traceId := ResearchStarter.randomUUID rt in
  let topic := ResearchStarter.seed_topic input in
  let key := traceId +:+ ":seed_topic" in
  let c := ResearchStarter.handler rt env input in
  (forall e,
     store_fault env (store_ops w) = Some e ->
     outcome c w = Throw e /\ actions c w = [] /\ store (run c w) = store w)
  /\ (store_fault env (store_ops w) = None ->
      store (run c w) = <[key := VString topic]> (store w)
      /\ (ResearchStarter.emit_fault rt = None ->
          outcome c w
          = Ok (ResearchStarter.mkApiResponse 200 (ResearchStarter.TraceId traceId))
          /\ actions c w
             = [StateSet key (VString topic);
                Emit "topic.seeded" (DTopic traceId topic)])
      /\ (ResearchStarter.emit_fault rt <> None ->
          outcome c w
          = Ok (ResearchStarter.mkApiResponse 500
                  (ResearchStarter.ErrorBody "Failed to initiate research workflow."))
          /\ actions c w = [StateSet key (VString topic)])
      /\ outcome (ResearchStarter.handler_storing rt env input) w
         = Ok (ResearchStarter.mkApiResponse 200 (ResearchStarter.TraceId traceId))
      /\ actions (ResearchStarter.handler_storing rt env input) w
         = [StateSet key (VString topic)]
      /\ store (run (ResearchStarter.handler_storing rt env input) w)
         = <[key := VString topic]> (store w)).
Proof.
  intros traceId topic key c. subst c.
  unfold outcome, actions, run. rewrite (starter_run rt env input w). cbv zeta.
  fold traceId topic key.
  unfold ResearchStarter.handler_storing, bind, state_set, ret. fold traceId topic key.
  split.
  - intros e ->. cbn. by rewrite drop_all.
  - intros ->. cbn.
    split; [by destruct (ResearchStarter.emit_fault rt)|].
    split; [intros ->; cbn; by rewrite <- app_assoc, drop_app_length|].
    split; [|by rewrite drop_app_length].
    intros Hfault. destruct (ResearchStarter.emit_fault rt); [|done].
    cbn. by rewrite drop_app_length.
Qed.

(** X20.  From the entry point to the report: the seed topic that a
    trace was started with is the [seedTopic] of every report compiled for
    that trace, whatever stages ran in between, for this trace or for
    others, and whatever they did. *)
Theorem seed_topic_reaches_report
    rt env0 input w0 (ds : list (Env * Delivery)) env ref qs rep :
  store_fault env0 (store_ops w0) = None ->
  JS.truthy_string (ResearchStarter.seed_topic input) = true ->
  let w := deliver ds (run (ResearchStarter.handler rt env0 input) w0) in
  let payload := ReportCompiler.mkPayload (ResearchStarter.randomUUID rt) ref in
  heap w !! ref = Some qs ->
  StateSet (ResearchStarter.randomUUID rt +:+ ":final_report") (VReport rep)
    ∈ actions (ReportCompiler.handler env payload) w ->
  FinalReport.seedTopic rep = ResearchStarter.seed_topic input
  /\ FinalReport.traceId rep = ResearchStarter.randomUUID rt.
Proof.
  intros F0 Htopic w payload Hqs Hin.
  rewrite (ReportCompilerFacts.persisted_report env payload w qs rep Hqs Hin).
  split; [|reflexivity].
  cbn [FinalReport.seedTopic ReportCompiler.report_of ReportCompiler.traceId payload].
  subst w.
  rewrite (IsolationFacts.deliver_keeps_key ds _
             (ResearchStarter.randomUUID rt +:+ ":seed_topic")).
  2:{ apply Forall_forall. intros [env' d] _ Hk.
      by apply (seed_key_is_no_artifact (ResearchStarter.randomUUID rt) d). }
  unfold run. rewrite (starter_run rt env0 input w0). cbv zeta. rewrite F0.
  assert (forall w1 : World,
            store w1 = <[ResearchStarter.randomUUID rt +:+ ":seed_topic"
                         := VString (ResearchStarter.seed_topic input)]> (store w0) ->
            JS.or_string
              match store w1 !! (ResearchStarter.randomUUID rt +:+ ":seed_topic") with
              | Some (VString s) => Some s
              | _ => None
              end "Unknown"
            = ResearchStarter.seed_topic input) as Hread.
  { intros w1 ->. rewrite lookup_insert_eq. cbn. by rewrite Htopic. }
  destruct (ResearchStarter.emit_fault rt); by apply Hread.
Qed.

Lemma seed_topic_reaches_report_witness :
  FinalReport.seedTopic
    (ReportCompiler.report_of Sample.quiet (ReportCompiler.mkPayload "3f2c" 0)
       (deliver []
          (run (ResearchStarter.handler Fixture.runtime Sample.quiet Fixture.request)
             (Sample.world [Sample.three_questions])))
       Sample.three_questions)
  = "Quantum computing applications in drug discovery".
Proof.
  apply (seed_topic_reaches_report Fixture.runtime Sample.quiet Fixture.request
           (Sample.world [Sample.three_questions]) [] Sample.quiet 0
           Sample.three_questions
           (ReportCompiler.report_of Sample.quiet (ReportCompiler.mkPayload "3f2c" 0)
              (deliver []
                 (run (ResearchStarter.handler Fixture.runtime Sample.quiet Fixture.request)
                    (Sample.world [Sample.three_questions])))
              Sample.three_questions)).
  - reflexivity.
  - reflexivity.
  - reflexivity.
  - vm_compute. left.
Defined.

End EndpointFacts.

(** ** The content extractor: the cost of a batch and the shape of the
       text *)

Lemma trim_start_shorter s : (String.length (JS.trim_start s) <= String.length s)%nat.
Proof.
  induction s as [|c s IH]; cbn [JS.trim_start]; [done|].
  destruct (JS.is_white_space c); cbn [String.length]; lia.
Qed.

Lemma trim_start_idem s : JS.trim_start (JS.trim_start s) = JS.trim_start s.
Proof.
  induction s as [|c s IH]; cbn [JS.trim_start]; [done|].
  destruct (JS.is_white_space c) eqn:Hc; [exact IH|].
  cbn [JS.trim_start]. by rewrite Hc.
Qed.

Lemma trim_end_idem s : JS.trim_end (JS.trim_end s) = JS.trim_end s.
Proof.
  induction s as [|c s IH]; cbn [JS.trim_end]; [done|].
  destruct (JS.trim_end s) as [|d t] eqn:Ht.
  - destruct (JS.is_white_space c) eqn:Hc; [done|].
    cbn [JS.trim_end]. by rewrite Hc.
  - cbn [JS.trim_end]. cbn [JS.trim_end] in IH. by rewrite IH.
Qed.

(** Trimming the end of a text that does not start with white space
    gives a text that does not start with white space. *)
Lemma trim_start_trim_end s :
  JS.trim_start s = s -> JS.trim_start (JS.trim_end s) = JS.trim_end s.
Proof.
  destruct s as [|c s]; [done|]. cbn [JS.trim_start JS.trim_end].
  destruct (JS.is_white_space c) eqn:Hc.
  - intros H. pose proof (trim_start_shorter s) as Hlen.
    rewrite H in Hlen. cbn [String.length] in Hlen. lia.
  - intros _. destruct (JS.trim_end s); cbn [JS.trim_start]; by rewrite Hc.
Qed.

Lemma trim_trimmed s : trimmed (JS.trim s).
Proof.
  unfold trimmed, JS.trim. split.
  - apply trim_start_trim_end, trim_start_idem.
  - apply trim_end_idem.
Qed.

Module ExtractionFacts.
Import ContentExtractor.

(** The content of the entry that an attempt settles on. *)
Lemma verdict_content result o :
  match verdict result o with
  | Extracted e | Rejected e => trimmed (ExtractedContent.content e)
  | Failed _ => True
  end.
Proof.
  unfold verdict.
  destruct o as [e|[] status ctype [e|[article|]]]; try exact I;
    destruct (JS.includes (default EmptyString ctype) "text/html");
    cbn [negb]; try exact I; try (by split).
  destruct (JS.truthy_opt_string (Article.textContent article)); [|exact I].
  apply trim_trimmed.
Qed.

(** The work on one URL: its fetches, its pauses and its text. *)
Lemma unit_result_counts result o1 o2 o3 :
  let e := fst (unit_result result o1 o2 o3) in
  let acts := snd (unit_result result o1 o2 o3) in
  (1 <= length (List.filter is_fetch acts) <= MAX_RETRIES + 1)%nat
  /\ (length (List.filter is_delay acts) + 1 = length (List.filter is_fetch acts))%nat
  /\ (forall ms, Delay ms ∈ acts -> ms = RETRY_DELAY)
  /\ trimmed (ExtractedContent.content e).
Proof.
  intros e acts. subst e acts. unfold unit_result, MAX_RETRIES, RETRY_DELAY.
  assert (forall ms (l : list Action),
            Delay ms ∈ l ->
            Forall (fun a => match a with Delay d => d = 1000%Z | _ => True end) l ->
            ms = 1000%Z) as Hdelay.
  { intros ms l Hin Hl. rewrite Forall_forall in Hl. exact (Hl _ Hin). }
  pose proof (verdict_content result o1) as H1.
  pose proof (verdict_content result o2) as H2.
  pose proof (verdict_content result o3) as H3.
  destruct (verdict result o1) as [e1|e1|m1];
    [| |destruct (verdict result o2) as [e2|e2|m2];
        [| |destruct (verdict result o3) as [e3|e3|m3]]];
    cbn [fst snd List.filter is_fetch is_delay length];
    (split; [lia|]); (split; [lia|]);
    (split; [intros ms Hin; apply (Hdelay ms _ Hin); by repeat constructor|]);
    try assumption; by split.
Qed.

Lemma settled_counts results l acts :
  settled results l acts ->
  length l = length (with_url results)
  /\ (length l <= length (List.filter is_fetch acts) <= (MAX_RETRIES + 1) * length l)%nat
  /\ (length (List.filter is_delay acts) + length l = length (List.filter is_fetch acts))%nat
  /\ (forall ms, Delay ms ∈ acts -> ms = RETRY_DELAY)
  /\ Forall (fun e => trimmed (ExtractedContent.content e)) l.
Proof.
  induction 1 as [|r rs l acts Hurl _ (Hlen & Hfetch & Hdelay & Hms & Htrim)
                  |r rs l acts o1 o2 o3 Hurl _ (Hlen & Hfetch & Hdelay & Hms & Htrim)].
  - repeat split; try done. intros ms Hin. by apply elem_of_nil in Hin.
  - unfold with_url in *. cbn [List.filter]. by rewrite Hurl.
  - destruct (unit_result_counts r o1 o2 o3) as (Hf & Hd & Hm & Ht).
    unfold with_url in *. cbn [List.filter]. rewrite Hurl.
    rewrite !List.filter_app, !length_app. cbn [length].
    split; [by rewrite Hlen|]. split; [lia|]. split; [lia|]. split.
    + intros ms Hin. apply elem_of_app in Hin as [Hin|Hin]; [by apply Hm|by apply Hms].
    + by constructor.
Qed.

(** X21.  The cost of a batch: the content extractor fetches each search
    result that has a URL at least once and at most 3 times, pauses for
    exactly one second between two attempts on the same URL and not after
    the last one, and does so whether or not the store accepts the
    artifact afterwards. *)
Theorem extraction_fetch_budget env payload w :
  let acts := actions (handler env payload) w in
  let n := length (with_url (results payload)) in
  (n <= length (List.filter is_fetch acts) <= 3 * n)%nat
  /\ (length (List.filter is_delay acts) + n = length (List.filter is_fetch acts))%nat
  /\ (forall ms, Delay ms ∈ acts -> ms = 1000%Z).
Proof.
  intros acts n. subst acts n.
  destruct (ContentExtractorFacts.extractor_actions env payload w)
    as (l & acts & Hsettled & Hcases).
  destruct (settled_counts _ _ _ Hsettled) as (Hlen & Hfetch & Hdelay & Hms & _).
  unfold MAX_RETRIES in Hfetch. rewrite <- Hlen.
  destruct Hcases as [(_ & -> & _)|(e & _ & -> & _)].
  - rewrite !List.filter_app, !length_app. cbn [List.filter is_fetch is_delay length].
    split; [lia|]. split; [lia|].
    intros ms Hin. apply elem_of_app in Hin as [Hin|Hin]; [by apply Hms|].
    apply elem_of_cons in Hin as [?|Hin]; [discriminate|].
    apply list_elem_of_singleton in Hin. discriminate.
  - split; [lia|]. split; [lia|exact Hms].
Qed.

(** X22.  The content of every entry that the content extractor stores
    has no white space at its start or at its end: the text of a page is
    trimmed, and an entry without text has the empty content. *)
Theorem extracted_content_is_trimmed env payload w l :
  StateSet (traceId payload +:+ ":extracted_content") (VExtracted l)
    ∈ actions (handler env payload) w ->
  Forall (fun e => trimmed (ExtractedContent.content e)) l.
Proof.
  intros Hin.
  destruct (ContentExtractorFacts.extractor_actions env payload w)
    as (l' & acts & Hsettled & Hcases).
  destruct (settled_counts _ _ _ Hsettled) as (_ & _ & _ & _ & Htrim).
  destruct (ContentExtractorFacts.settled_batch _ _ _ Hsettled) as [_ Hsilent].
  rewrite Forall_forall in Hsilent.
  destruct Hcases as [(_ & Hacts & _)|(e & _ & Hacts & _)]; rewrite Hacts in Hin.
  - apply elem_of_app in Hin as [Hin|Hin]; [destruct (Hsilent _ Hin)|].
    apply elem_of_cons in Hin as [Heq|Hin];
      [|apply list_elem_of_singleton in Hin; discriminate].
    by simplify_eq.
  - destruct (Hsilent _ Hin).
Qed.

Lemma extracted_content_is_trimmed_witness :
  StateSet "t6:extracted_content"
    (VExtracted [ExtractedContent.mk "https://example.org/a" "Page A, as published"
                   "The text of page A." None (Some 20%Z) None])
    ∈ actions (handler Fixture.serving Fixture.one_page) (Sample.world [])
  /\ Forall (fun e => trimmed (ExtractedContent.content e))
       [ExtractedContent.mk "https://example.org/a" "Page A, as published"
          "The text of page A." None (Some 20%Z) None].
Proof.
  assert (StateSet "t6:extracted_content"
            (VExtracted [ExtractedContent.mk "https://example.org/a" "Page A, as published"
                           "The text of page A." None (Some 20%Z) None])
            ∈ actions (handler Fixture.serving Fixture.one_page) (Sample.world []))
    as Hin.
  { vm_compute. right. left. }
  split; [exact Hin|].
  apply (extracted_content_is_trimmed Fixture.serving Fixture.one_page (Sample.world [])
           _ Hin).
Defined.

(** X23.  Extracting and brainstorming, one after the other: the content
    extractor stores and announces its artifact also when it is empty,
    because no search result had a URL; the question brainstormer then
    finds it empty and ends the trace with [workflow.error], without a
    completion request.  When at least one result had a URL, the
    brainstormer goes on to its request, even if every extraction
    failed. *)
Theorem nothing_extracted_stops_the_trace env payload w env' :
  store_fault env (store_ops w) = None ->
  let traceId := traceId payload in
  let w1 := run (handler env payload) w in
  let acts :=
    actions (QuestionBrainstormer.handler env' (QuestionBrainstormer.mkPayload traceId))
      w1 in
  JS.truthy_opt_string (process_env env' !! "OPENAI_API_KEY") = true ->
  store_fault env' (store_ops w1) = None ->
  store_fault env' (S (store_ops w1)) = None ->
  store w !! (traceId +:+ ":seed_topic") <> None ->
  (with_url (results payload) = [] ->
   Emit "content.extracted" (DExtracted traceId []) ∈ actions (handler env payload) w
   /\ acts
      = [Emit "workflow.error"
           (DError traceId QuestionBrainstormer.config_name
              ("Extracted content not found or empty in state for key: "
               +:+ traceId +:+ ":extracted_content"))])
  /\ (with_url (results payload) <> [] -> exists rest, acts = Completion :: rest).
Proof.
  intros F0 tid w1 acts Hkey F1 F2 Hseed. subst acts.
  destruct (ContentExtractorFacts.extractor_actions env payload w)
    as (l & acts0 & Hsettled & [(_ & Hacts & Hstore & _)|(e & F & _)]); [|congruence].
  fold tid w1 in Hstore.
  destruct (ContentExtractorFacts.settled_batch _ _ _ Hsettled) as [(Hurls & _) _].
  assert (store w1 !! (tid +:+ ":seed_topic") = store w !! (tid +:+ ":seed_topic"))
    as Hkept.
  { apply (FrameFacts.frame_extractor env payload w).
    apply (seed_key_is_no_artifact tid (ToContentExtractor payload)). }
  assert (actions (QuestionBrainstormer.handler env' (QuestionBrainstormer.mkPayload tid))
            w1
          = Brainstorming.expected_actions env' (QuestionBrainstormer.mkPayload tid) w1)
    as ->.
  { unfold actions, run.
    destruct (QuestionBrainstormerFacts.brainstormer_run env'
                (QuestionBrainstormer.mkPayload tid) w1) as (w2 & Hrun & Hexp & _).
    by rewrite Hrun. }
  unfold Brainstorming.expected_actions. cbn [QuestionBrainstormer.traceId].
  rewrite Hkey, F1, F2, Hkept, Hstore. cbn [negb].
  destruct (store w !! (tid +:+ ":seed_topic")); [|done].
  split.
  - intros Hnone. rewrite Hnone in Hurls. destruct l; [|discriminate].
    split; [|reflexivity].
    rewrite Hacts. apply elem_of_app. right. right. by left.
  - intros Hsome. destruct l as [|item l].
    + destruct (with_url (results payload)); [done|discriminate].
    + by eexists.
Qed.

Lemma nothing_extracted_stops_the_trace_witness :
  actions (QuestionBrainstormer.handler Fixture.brainstorming
             (QuestionBrainstormer.mkPayload "t4"))
    (run (handler Sample.quiet Sample.batch_without_url) Fixture.researched)
  = [Emit "workflow.error"
       (DError "t4" QuestionBrainstormer.config_name
          "Extracted content not found or empty in state for key: t4:extracted_content")].
Proof.
  apply (nothing_extracted_stops_the_trace Sample.quiet Sample.batch_without_url
           Fixture.researched Fixture.brainstorming eq_refl eq_refl eq_refl eq_refl).
  - vm_compute. discriminate.
  - reflexivity.
Defined.

End ExtractionFacts.

(** ** The fallback of the query generator *)

Lemma is_quote_char c : JS.is_quote c = true -> String c EmptyString = JS.quote.
Proof.
  unfold JS.is_quote, JS.quote. intros H. apply Nat.eqb_eq in H.
  by rewrite <- H, ascii_nat_embedding.
Qed.

Module FallbackFacts.

Lemma until_quote_spec s inner rest :
  JS.until_quote s = Some (inner, rest) ->
  s = inner +:+ JS.quote +:+ rest /\ Forall plain (list_ascii_of_string inner).
Proof.
  revert inner rest. induction s as [|c s IH]; intros inner rest; cbn [JS.until_quote].
  - discriminate.
  - destruct (JS.is_quote c) eqn:Hq.
    + intros [= <- <-]. split; [|constructor].
      change (String c s) with (String c EmptyString +:+ s).
      by rewrite (is_quote_char c Hq).
    + destruct (JS.is_line_terminator c) eqn:Hl; [discriminate|].
      destruct (JS.until_quote s) as [[inner' rest']|]; [|discriminate].
      intros [= <- <-]. destruct (IH inner' rest' eq_refl) as [-> Hplain].
      split; [reflexivity|]. cbn. by constructor.
Qed.

Lemma quoted_from_spec fuel s q :
  q ∈ JS.quoted_from fuel s ->
  (exists before after, s = before +:+ JS.quote +:+ q +:+ JS.quote +:+ after)
  /\ Forall plain (list_ascii_of_string q).
Proof.
  revert s. induction fuel as [|fuel IH]; intros s; cbn [JS.quoted_from].
  - intros H. by apply elem_of_nil in H.
  - destruct s as [|c s]; [intros H; by apply elem_of_nil in H|].
    assert (forall s', q ∈ JS.quoted_from fuel s' ->
              (exists before after,
                 String c s' = before +:+ JS.quote +:+ q +:+ JS.quote +:+ after)
              /\ Forall plain (list_ascii_of_string q)) as Hlater.
    { intros s' Hin. destruct (IH s' Hin) as [(before & after & ->) Hplain].
      split; [|exact Hplain]. by exists (String c before), after. }
    destruct (JS.is_quote c) eqn:Hq; [|apply Hlater].
    destruct (JS.until_quote s) as [[inner rest]|] eqn:Hu; [|apply Hlater].
    destruct (until_quote_spec s inner rest Hu) as [-> Hplain].
    intros Hin. apply elem_of_cons in Hin as [->|Hin].
    + split; [|exact Hplain]. exists EmptyString, rest.
      change (String c (inner +:+ JS.quote +:+ rest))
        with (String c EmptyString +:+ inner +:+ JS.quote +:+ rest).
      by rewrite (is_quote_char c Hq).
    + destruct (IH rest Hin) as [(before & after & ->) Hq'].
      split; [|exact Hq'].
      exists (String c inner +:+ JS.quote +:+ before), after.
      by rewrite !append_cons, !append_assoc.
Qed.

(** X24.  When the query generator falls back on the quoted phrases of
    the completion, every query it takes stood between two double quotes
    in the completion and holds neither a double quote nor a line break,
    and there is at least one query; finding the queries changes
    nothing. *)
Theorem fallback_queries_are_quoted_phrases rawQueries w qs w' :
  QueryGenerator.extract_queries rawQueries w = (Ok qs, w') ->
  w' = w
  /\ qs <> []
  /\ (forall q, q ∈ qs ->
        (exists before after,
           rawQueries = before +:+ JS.quote +:+ q +:+ JS.quote +:+ after)
        /\ Forall plain (list_ascii_of_string q)).
Proof.
  unfold QueryGenerator.extract_queries, throw_Error, throw, ret.
  destruct (JS.quoted_substrings rawQueries) as [|q0 l] eqn:Hfound; [discriminate|].
  intros [= <- <-]. split; [reflexivity|]. split; [discriminate|].
  intros q Hq. rewrite <- Hfound in Hq. by apply (quoted_from_spec _ _ _ Hq).
Qed.

Lemma fallback_queries_are_quoted_phrases_witness :
  QueryGenerator.extract_queries Sample.two_quoted (Sample.world [])
  = (Ok ["query A"; "query B"], Sample.world [])
  /\ exists before after,
       Sample.two_quoted = before +:+ JS.quote +:+ "query B" +:+ JS.quote +:+ after.
Proof.
  split; [reflexivity|].
  destruct (fallback_queries_are_quoted_phrases Sample.two_quoted (Sample.world [])
              ["query A"; "query B"] (Sample.world []) eq_refl) as (_ & _ & Hall).
  apply (Hall "query B"). right. left.
Defined.

End FallbackFacts.

(** ** The lists found in a parsed completion *)

Lemma strings_of_spec items : map JString (strings_of items) = List.filter is_string items.
Proof.
  induction items as [|[| | |s| |] items IH]; cbn [strings_of List.filter is_string map];
    by rewrite ?IH.
Qed.

Module ParsingFacts.

(** X25.  The queries and the questions that the strict parse of a
    completion yields are the string items of one array of the parsed
    text, all of them and in their order: for the query generator the
    array at the root or under [queries]; for the question brainstormer
    the array at the root, under [questions], or else the first array
    among the values of the object, and then at least one string. *)
Theorem parsed_lists_keep_the_strings env text w :
  (forall qs w',
     QueryGenerator.parse_queries env text w = (Ok qs, w') ->
     exists items,
       map JString qs = List.filter is_string items
       /\ (JSON_parse env text = inr (JArray items)
           \/ exists members,
               JSON_parse env text = inr (JObject members)
               /\ member "queries" members = Some (JArray items)))
  /\ (forall qs w',
        QuestionBrainstormer.parse_questions env text w = (Ok qs, w') ->
        qs <> []
        /\ exists items,
            map JString qs = List.filter is_string items
            /\ (JSON_parse env text = inr (JArray items)
                \/ exists members,
                    JSON_parse env text = inr (JObject members)
                    /\ (member "questions" members = Some (JArray items)
                        \/ ((forall items', member "questions" members
                                            <> Some (JArray items'))
                            /\ first_array members = Some items)))).
Proof.
  split.
  - intros qs w'. unfold QueryGenerator.parse_queries, throw_Error, null_property, throw, ret.
    destruct (JSON_parse env text) as [e|[| | | |items|members]]; try discriminate.
    + intros [= <- _]. exists items. split; [apply strings_of_spec|by left].
    + destruct (member "queries" members) as [[| | | |items|]|] eqn:Hm; try discriminate.
      intros [= <- _]. exists items. split; [apply strings_of_spec|].
      right. by exists members.
  - intros qs w'.
    unfold QuestionBrainstormer.parse_questions.
    cbv beta iota zeta delta [bind ret throw throw_Error null_property].
    assert (forall items (w0 : World),
              match strings_of items with
              | [] =>
                  throw_Error "OpenAI response parsed, but no questions found in the array."
              | generatedQuestions => ret generatedQuestions
              end w0 = (Ok qs, w') ->
              qs <> [] /\ map JString qs = List.filter is_string items) as Hlist.
    { intros items w0. rewrite <- strings_of_spec.
      destruct (strings_of items); [discriminate|]. by intros [= <- _]. }
    cbv beta iota zeta delta [ret throw throw_Error] in Hlist.
    destruct (JSON_parse env text) as [e|[| | | |items|members]]; try discriminate.
    + intros H. destruct (Hlist _ _ H) as [Hne Heq].
      split; [exact Hne|]. exists items. split; [exact Heq|by left].
    + destruct (member "questions" members) as [[| | | |items|]|] eqn:Hm;
        try (destruct (first_array members) as [items|] eqn:Hf; cbv beta iota;
             [|discriminate]; intros H; destruct (Hlist _ _ H) as [Hne Heq];
             split; [exact Hne|]; exists items; split; [exact Heq|];
             right; exists members; split; [reflexivity|];
             right; split; [intros items'; rewrite Hm; discriminate|exact Hf]).
      intros H. destruct (Hlist _ _ H) as [Hne Heq].
      split; [exact Hne|]. exists items. split; [exact Heq|].
      right. exists members. split; [reflexivity|by left].
Qed.

End ParsingFacts.

(** ** One event per delivery *)





Module EventFacts.



End EventFacts.

